(** * UltraGrid libavcodec video compression: encoder negotiation,
      configuration and reconfiguration

    A shallow embedding of [src/video_compress/libavcodec.cpp]: the option
    parser ([parse_fmt]), the pixel-format negotiation
    ([get_first_matching_pix_fmt] and the trial-open loop of
    [configure_with]), the parameter tuner ([set_cqp],
    [set_codec_ctx_params] with the tuning of every codec family and the
    thread-mode parser [set_codec_thread_mode]), the performance monitor
    ([check_duration]) and the per-frame reconfiguration decision
    ([libavcodec_compress_tile], [libavcodec_check_messages]); and of the
    translations of [src/libavcodec/lavc_common.c].

    Conventions.
    - C integers are [Z]; where the source can wrap, the wrap is written out.
    - C [double] is IEEE binary64, Rocq's primitive [float].
    - [std::string] and C strings are [string]; [std::map<string,string>] is
      [gmap string string]; [std::set<string>] is [gset string].
    - Log lines, warnings and calls into FFmpeg are recorded as [event]s.
    - C [float] is IEEE binary32, a [spec_float] of precision 24.
    - Code that lives outside the embedded files (FFmpeg, UltraGrid helpers)
      is reached through the [Collaborators] and [Platform] interfaces.
    - The parameter tuner works on a context, the parameters and the
      blacklist at once; its steps are written in the monad [tuner], which
      threads them, collects the events and stops where the process does. *)

From Stdlib Require Import ZArith Floats Ascii String List Lia Bool.
From stdpp Require Import gmap strings list pretty sorting.
From Equations Require Import Equations.
Import ListNotations.

#[local] Set Warnings "-inexact-float".
#[local] Open Scope Z_scope.

(* ===================================================================== *)
(** ** C library functions used by the source *)
(* ===================================================================== *)

Module LibC.

Definition INT_MAX : Z := 2147483647.
Definition INT_MIN : Z := -2147483648.
Definition LONG_MAX : Z := 9223372036854775807.
Definition LONG_MIN : Z := -9223372036854775808.

(** Conversion of an integer to [int] (two's complement wrap). *)
Definition wrap_int (z : Z) : Z := (z + 2 ^ 31) mod 2 ^ 32 - 2 ^ 31.

(** Conversion of an integer to [unsigned int]. *)
Definition wrap_uint (z : Z) : Z := z mod 2 ^ 32.

(** Conversion of an integer to [size_t]. *)
Definition wrap_size_t (z : Z) : Z := z mod 2 ^ 64.

Definition code (c : ascii) : Z := Z.of_N (N_of_ascii c).
Definition chr (z : Z) : ascii := ascii_of_N (Z.to_N z).

Definition islower (c : ascii) : bool := (97 <=? code c) && (code c <=? 122).
Definition isupper (c : ascii) : bool := (65 <=? code c) && (code c <=? 90).
Definition isdigit (c : ascii) : bool := (48 <=? code c) && (code c <=? 57).
(** [isspace] in the C locale: space, \t, \n, \v, \f, \r. *)
Definition isspace (c : ascii) : bool :=
  (code c =? 32) || ((9 <=? code c) && (code c <=? 13)).

Definition toupper (c : ascii) : ascii := if islower c then chr (code c - 32) else c.
Definition tolower (c : ascii) : ascii := if isupper c then chr (code c + 32) else c.

Definition ascii_eqb_ci (a b : ascii) : bool := Ascii.eqb (tolower a) (tolower b).

(** [strstr(item, pre) == item]: [pre] is a prefix of [item]. *)
Fixpoint starts_with (pre item : string) : bool :=
  match pre, item with
  | EmptyString, _ => true
  | String a pre', String b item' => Ascii.eqb a b && starts_with pre' item'
  | String _ _, EmptyString => false
  end.

(** [strncasecmp(pre, item, strlen(pre)) == 0]: [pre] is a prefix of
    [item] up to the case of letters. *)
Fixpoint starts_with_ci (pre item : string) : bool :=
  match pre, item with
  | EmptyString, _ => true
  | String a pre', String b item' => ascii_eqb_ci a b && starts_with_ci pre' item'
  | String _ _, EmptyString => false
  end.

(** [strcasecmp(a, b) == 0]. *)
Fixpoint strcasecmp_eq (a b : string) : bool :=
  match a, b with
  | EmptyString, EmptyString => true
  | String x a', String y b' => ascii_eqb_ci x y && strcasecmp_eq a' b'
  | _, _ => false
  end.

(** [strcmp(a, b) == 0]. *)
Definition strcmp_eq (a b : string) : bool := String.eqb a b.

(** [strstr(hay, needle) != NULL]. *)
Fixpoint contains (needle hay : string) : bool :=
  starts_with needle hay ||
  match hay with
  | EmptyString => false
  | String _ hay' => contains needle hay'
  end.

(** [strchr(s, c)]: the suffix of [s] that starts at the first [c]. *)
Fixpoint strchr (s : string) (c : ascii) : option string :=
  match s with
  | EmptyString => None
  | String a s' => if Ascii.eqb a c then Some s else strchr s' c
  end.

(** The part of [s] before the first [c] (all of [s] when there is none). *)
Fixpoint before (s : string) (c : ascii) : string :=
  match s with
  | EmptyString => EmptyString
  | String a s' => if Ascii.eqb a c then EmptyString else String a (before s' c)
  end.

(** [strchr(s, c) + 1]. *)
Definition after (s : string) (c : ascii) : option string :=
  match strchr s c with
  | Some (String _ rest) => Some rest
  | _ => None
  end.

Fixpoint drop (n : nat) (s : string) : string :=
  match n, s with
  | O, _ => s
  | S n', String _ s' => drop n' s'
  | S _, EmptyString => EmptyString
  end.

(** A line terminator, which [.] of a [std::regex] does not match. *)
Definition is_line_terminator (c : ascii) : bool := (code c =? 10) || (code c =? 13).

Fixpoint no_line_terminator (s : string) : bool :=
  match s with
  | EmptyString => true
  | String c s' => negb (is_line_terminator c) && no_line_terminator s'
  end.

(** [regex_match(s, regex(".*" + suffix))], for a [suffix] of plain
    characters. *)
Fixpoint regex_match_any_then (suffix s : string) : bool :=
  String.eqb s suffix ||
  match s with
  | EmptyString => false
  | String c s' => negb (is_line_terminator c) && regex_match_any_then suffix s'
  end.

(** [regex_match(s, regex(".*" + infix + ".*"))], for an [infix] of plain
    characters. *)
Fixpoint regex_match_any_then_any (infix s : string) : bool :=
  (starts_with infix s && no_line_terminator (drop (String.length infix) s)) ||
  match s with
  | EmptyString => false
  | String c s' => negb (is_line_terminator c) && regex_match_any_then_any infix s'
  end.

Definition string_rev_of (l : list ascii) : string :=
  fold_left (fun acc c => String c acc) l EmptyString.

Definition flush (cur : list ascii) : list string :=
  match cur with
  | [] => []
  | _ => [string_rev_of cur]
  end.

(** Repeated [strtok_r(.., delim, ..)]: the maximal non-empty runs of
    characters other than [delim], left to right. *)
Fixpoint strtok_from (delim : ascii) (s : string) (cur : list ascii) : list string :=
  match s with
  | EmptyString => flush cur
  | String c s' =>
      if Ascii.eqb c delim then flush cur ++ strtok_from delim s' []
      else strtok_from delim s' (c :: cur)
  end.

Definition strtok_all (delim : ascii) (s : string) : list string :=
  strtok_from delim s [].

(** The digits at the head of [s]: their value on top of [acc], and how
    many there are. *)
Fixpoint digits (s : string) (acc : Z) (n : nat) : Z * nat :=
  match s with
  | String c s' =>
      if isdigit c then digits s' (acc * 10 + (code c - 48)) (S n) else (acc, n)
  | EmptyString => (acc, n)
  end.

Fixpoint skip_spaces (s : string) (n : nat) : string * nat :=
  match s with
  | String c s' => if isspace c then skip_spaces s' (S n) else (s, n)
  | EmptyString => (s, n)
  end.

(** [strtol(s, &end, 10)] before range clamping: [None] when no digits can
    be converted, else the mathematical value and [end - s]. *)
Definition strtol10 (s : string) : option (Z * nat) :=
  let '(s1, n1) := skip_spaces s 0 in
  let '(neg, s2, n2) :=
    match s1 with
    | String "-" r => (true, r, S n1)
    | String "+" r => (false, r, S n1)
    | _ => (false, s1, n1)
    end in
  let '(v, nd) := digits s2 0 0 in
  match nd with
  | O => None
  | _ => Some (if neg then - v else v, (n2 + nd)%nat)
  end.

Definition clamp_long (z : Z) : Z := Z.max LONG_MIN (Z.min LONG_MAX z).

(** [atoi(s)] is [(int) strtol(s, NULL, 10)]: 0 when nothing converts. *)
Definition atoi (s : string) : Z :=
  match strtol10 s with
  | Some (v, _) => wrap_int (clamp_long v)
  | None => 0
  end.

Inductive stoi_result :=
| StoiOk (value : Z) (endpos : nat)
| StoiInvalidArgument
| StoiOutOfRange.

(** [std::stoi(s, &endpos)]. *)
Definition stoi (s : string) : stoi_result :=
  match strtol10 s with
  | None => StoiInvalidArgument
  | Some (v, n) =>
      if (INT_MIN <=? v) && (v <=? INT_MAX) then StoiOk v n else StoiOutOfRange
  end.

End LibC.

(* ===================================================================== *)
(** ** C [double] *)
(* ===================================================================== *)

Module CDouble.

(** Integer to [double], rounded to nearest even. *)
Definition of_Z (z : Z) : float := SF2Prim (binary_normalize prec emax z 0 false).

(** The integral part of a finite [double]; [None] for NaN and the
    infinities. *)
Definition trunc (f : float) : option Z :=
  match Prim2SF f with
  | S754_zero _ => Some 0
  | S754_finite s m e =>
      let a := match e with
               | Z0 => Zpos m
               | Zpos p => Zpos m * 2 ^ Zpos p
               | Zneg p => Zpos m / 2 ^ Zpos p
               end in
      Some (if s then - a else a)
  | _ => None
  end.

(** [double] to a signed integer of [bits] bits. The conversion is
    undefined in C when the integral part is out of range; the value
    modelled for that case is the one x86-64 produces (the minimum). *)
Definition to_int (bits : Z) (f : float) : Z :=
  match trunc f with
  | Some z => if (- 2 ^ (bits - 1) <=? z) && (z <? 2 ^ (bits - 1)) then z
              else - 2 ^ (bits - 1)
  | None => - 2 ^ (bits - 1)
  end.

Definition to_int64 : float -> Z := to_int 64.
Definition to_int32 : float -> Z := to_int 32.

End CDouble.

Import LibC.

(* ===================================================================== *)
(** ** Data model *)
(* ===================================================================== *)

(** [codec_t]: the codecs this file names, and every other member of the
    enumeration (raw pixel formats and codecs of other modules). *)
Inductive codec_t :=
| VIDEO_CODEC_NONE
| H264 | H265 | MJPG | J2K | VP8 | VP9 | HFYU | FFV1 | AV1 | PRORES
| OTHER_CODEC (tag : positive).

#[global] Instance codec_t_eq_dec : EqDecision codec_t.
Proof. solve_decision. Defined.

Definition DEFAULT_CODEC : codec_t := MJPG.
Definition DEFAULT_X264_X265_CRF : float := 22.0%float.
Definition DEFAULT_CQP : Z := 21.
Definition DEFAULT_CQP_MJPEG_QSV : Z := 80.
Definition DEFAULT_CQP_QSV : Z := 5000.
Definition DEFAULT_GOP_SIZE : Z := 20.
Definition DEFAULT_SLICE_COUNT : Z := 32.
Definition DEFAULT_QSV_RC : string := "vbr".

(** Modelled from the spec: [enum interlacing_t] (types.h, outside the
    embedded sources), the interlacing mode of a stream description; the
    first enumerator is the one whose value is 0. *)
Inductive interlacing_t :=
| PROGRESSIVE | UPPER_FIELD_FIRST | LOWER_FIELD_FIRST | INTERLACED_MERGED | SEGMENTED_FRAME.

#[global] Instance interlacing_t_eq_dec : EqDecision interlacing_t.
Proof. solve_decision. Defined.

(** Modelled from the spec: [struct video_desc] (declared in UltraGrid's
    types.h, outside the embedded sources). The StreamDescription of the
    spec: width, height, source colour format, frame rate, interlacing
    mode, and the tile count that comparisons leave out. [width], [height]
    and [tile_count] are [unsigned int]. *)
Record video_desc := mk_video_desc {
  width : Z;
  height : Z;
  color_spec : codec_t;
  fps : float;
  interlacing : interlacing_t;
  tile_count : Z
}.

Definition set_color_spec v (d : video_desc) : video_desc :=
  mk_video_desc (width d) (height d) v (fps d) (interlacing d) (tile_count d).
Definition set_tile_count v (d : video_desc) : video_desc :=
  mk_video_desc (width d) (height d) (color_spec d) (fps d) (interlacing d) v.

(** [memset(&desc, 0, sizeof desc)]. *)
Definition zero_desc : video_desc :=
  mk_video_desc 0 0 VIDEO_CODEC_NONE 0%float PROGRESSIVE 0.

(** [enum AVPixelFormat]; the arrays of formats a codec advertises end with
    [AV_PIX_FMT_NONE]. *)
Definition AVPixelFormat := Z.
Definition AV_PIX_FMT_NONE : AVPixelFormat := -1.

Inductive AVCodecID :=
| AV_CODEC_ID_NONE
| AV_CODEC_ID_H264 | AV_CODEC_ID_HEVC | AV_CODEC_ID_MJPEG | AV_CODEC_ID_JPEG2000
| AV_CODEC_ID_VP8 | AV_CODEC_ID_VP9 | AV_CODEC_ID_HUFFYUV | AV_CODEC_ID_FFV1
| AV_CODEC_ID_AV1 | AV_CODEC_ID_PRORES
| AV_CODEC_ID_OTHER (tag : positive).

#[global] Instance AVCodecID_eq_dec : EqDecision AVCodecID.
Proof. solve_decision. Defined.

(** FFmpeg's flag bits (libavcodec/avcodec.h, codec.h). *)
Definition AV_CODEC_FLAG_QSCALE : Z := 2.
Definition AV_CODEC_FLAG_INTERLACED_DCT : Z := 262144.
Definition FF_THREAD_FRAME : Z := 1.
Definition FF_THREAD_SLICE : Z := 2.
Definition AV_CODEC_CAP_FRAME_THREADS : Z := 4096.
Definition AV_CODEC_CAP_SLICE_THREADS : Z := 8192.
Definition AV_CODEC_CAP_OTHER_THREADS : Z := 32768.

(** The fields of FFmpeg's [AVCodec] that the source reads. [pix_fmts] is
    [None] for a NULL pointer, else the array up to its terminator. *)
Record AVCodec := mk_AVCodec {
  name : string;
  id : AVCodecID;
  capabilities : Z;
  pix_fmts : option (list AVPixelFormat)
}.

(** A value passed to [av_opt_set], [av_opt_set_int] or
    [av_opt_set_double]. *)
Inductive opt_val :=
| OptStr (v : string)
| OptInt (v : Z)
| OptDouble (v : float).

(** The fields of FFmpeg's [AVCodecContext] that the embedded functions
    read or assign; [priv_data] holds the private options that were set
    successfully. *)
Record AVCodecContext := mk_AVCodecContext {
  codec : AVCodec;
  flags : Z;
  qmin : Z;
  qmax : Z;
  global_quality : Z;
  bit_rate : Z;
  bit_rate_tolerance : Z;
  rc_max_rate : Z;
  strict_std_compliance : Z;
  pix_fmt : AVPixelFormat;
  thread_type : Z;
  thread_count : Z;
  priv_data : gmap string opt_val
}.

Definition set_flags v (c : AVCodecContext) : AVCodecContext :=
  mk_AVCodecContext (codec c) v (qmin c) (qmax c) (global_quality c) (bit_rate c)
    (bit_rate_tolerance c) (rc_max_rate c) (strict_std_compliance c) (pix_fmt c)
    (thread_type c) (thread_count c) (priv_data c).
Definition set_qmin v (c : AVCodecContext) : AVCodecContext :=
  mk_AVCodecContext (codec c) (flags c) v (qmax c) (global_quality c) (bit_rate c)
    (bit_rate_tolerance c) (rc_max_rate c) (strict_std_compliance c) (pix_fmt c)
    (thread_type c) (thread_count c) (priv_data c).
Definition set_qmax v (c : AVCodecContext) : AVCodecContext :=
  mk_AVCodecContext (codec c) (flags c) (qmin c) v (global_quality c) (bit_rate c)
    (bit_rate_tolerance c) (rc_max_rate c) (strict_std_compliance c) (pix_fmt c)
    (thread_type c) (thread_count c) (priv_data c).
Definition set_global_quality v (c : AVCodecContext) : AVCodecContext :=
  mk_AVCodecContext (codec c) (flags c) (qmin c) (qmax c) v (bit_rate c)
    (bit_rate_tolerance c) (rc_max_rate c) (strict_std_compliance c) (pix_fmt c)
    (thread_type c) (thread_count c) (priv_data c).
Definition set_bit_rate v (c : AVCodecContext) : AVCodecContext :=
  mk_AVCodecContext (codec c) (flags c) (qmin c) (qmax c) (global_quality c) v
    (bit_rate_tolerance c) (rc_max_rate c) (strict_std_compliance c) (pix_fmt c)
    (thread_type c) (thread_count c) (priv_data c).
Definition set_bit_rate_tolerance v (c : AVCodecContext) : AVCodecContext :=
  mk_AVCodecContext (codec c) (flags c) (qmin c) (qmax c) (global_quality c) (bit_rate c) v
    (rc_max_rate c) (strict_std_compliance c) (pix_fmt c) (thread_type c) (thread_count c)
    (priv_data c).
Definition set_rc_max_rate v (c : AVCodecContext) : AVCodecContext :=
  mk_AVCodecContext (codec c) (flags c) (qmin c) (qmax c) (global_quality c) (bit_rate c)
    (bit_rate_tolerance c) v (strict_std_compliance c) (pix_fmt c) (thread_type c)
    (thread_count c) (priv_data c).
Definition set_strict_std_compliance v (c : AVCodecContext) : AVCodecContext :=
  mk_AVCodecContext (codec c) (flags c) (qmin c) (qmax c) (global_quality c) (bit_rate c)
    (bit_rate_tolerance c) (rc_max_rate c) v (pix_fmt c) (thread_type c) (thread_count c)
    (priv_data c).
Definition set_pix_fmt v (c : AVCodecContext) : AVCodecContext :=
  mk_AVCodecContext (codec c) (flags c) (qmin c) (qmax c) (global_quality c) (bit_rate c)
    (bit_rate_tolerance c) (rc_max_rate c) (strict_std_compliance c) v (thread_type c)
    (thread_count c) (priv_data c).
Definition set_thread_type v (c : AVCodecContext) : AVCodecContext :=
  mk_AVCodecContext (codec c) (flags c) (qmin c) (qmax c) (global_quality c) (bit_rate c)
    (bit_rate_tolerance c) (rc_max_rate c) (strict_std_compliance c) (pix_fmt c) v
    (thread_count c) (priv_data c).
Definition set_thread_count v (c : AVCodecContext) : AVCodecContext :=
  mk_AVCodecContext (codec c) (flags c) (qmin c) (qmax c) (global_quality c) (bit_rate c)
    (bit_rate_tolerance c) (rc_max_rate c) (strict_std_compliance c) (pix_fmt c)
    (thread_type c) v (priv_data c).
Definition set_priv_data v (c : AVCodecContext) : AVCodecContext :=
  mk_AVCodecContext (codec c) (flags c) (qmin c) (qmax c) (global_quality c) (bit_rate c)
    (bit_rate_tolerance c) (rc_max_rate c) (strict_std_compliance c) (pix_fmt c)
    (thread_type c) (thread_count c) v.

(** Modelled from the spec: [struct to_lavc_req_prop] (declared in
    libavcodec/to_lavc_vid_conv.h, outside the embedded sources): the
    subsampling, bit-depth and RGB-vs-YUV overrides of the request and the
    forced conversion target, in the order of the initialiser
    [{ 0, 0, -1, VIDEO_CODEC_NONE }]. *)
Record to_lavc_req_prop := mk_to_lavc_req_prop {
  subsampling : Z;
  depth : Z;
  rgb : Z;
  force_conv_to : codec_t
}.

(** [struct setparam_param]; its two references alias [lavc_opts] and
    [blacklist_opts] of the state and are read there. *)
Record setparam_param := mk_setparam_param {
  desc : video_desc;
  have_preset : bool;
  periodic_intra : Z;
  interlaced_dct : Z;
  thread_mode : string;
  slices : Z
}.

Definition set_desc v (p : setparam_param) : setparam_param :=
  mk_setparam_param v (have_preset p) (periodic_intra p) (interlaced_dct p) (thread_mode p)
    (slices p).
Definition set_have_preset v (p : setparam_param) : setparam_param :=
  mk_setparam_param (desc p) v (periodic_intra p) (interlaced_dct p) (thread_mode p)
    (slices p).
Definition set_periodic_intra v (p : setparam_param) : setparam_param :=
  mk_setparam_param (desc p) (have_preset p) v (interlaced_dct p) (thread_mode p)
    (slices p).
Definition set_interlaced_dct v (p : setparam_param) : setparam_param :=
  mk_setparam_param (desc p) (have_preset p) (periodic_intra p) v (thread_mode p)
    (slices p).
Definition set_thread_mode v (p : setparam_param) : setparam_param :=
  mk_setparam_param (desc p) (have_preset p) (periodic_intra p) (interlaced_dct p) v
    (slices p).
Definition set_slices v (p : setparam_param) : setparam_param :=
  mk_setparam_param (desc p) (have_preset p) (periodic_intra p) (interlaced_dct p)
    (thread_mode p) v.

(** [codec_params_t] without its function pointers [get_preset] and
    [set_param], which the embedded functions do not call. *)
Record codec_params_t := mk_codec_params_t {
  get_prefered_encoder : option (bool -> string);
  avg_bpp : float;
  capabilities_priority : Z
}.

(** The registry [codec_params]. *)
Definition codec_params (c : codec_t) : option codec_params_t :=
  match c with
  | H264 => Some (mk_codec_params_t
                    (Some (fun is_rgb : bool => if is_rgb then "libx264rgb" else "libx264"))
                    (0.07 * 2 * 2)%float 100)
  | H265 => Some (mk_codec_params_t (Some (fun _ => "libx265")) (0.04 * 2 * 2)%float 101)
  | MJPG => Some (mk_codec_params_t None 1.2%float 102)
  | J2K => Some (mk_codec_params_t None 1.0%float 500)
  | VP8 => Some (mk_codec_params_t None 0.4%float 103)
  | VP9 => Some (mk_codec_params_t None 0.4%float 104)
  | HFYU => Some (mk_codec_params_t None 0%float 501)
  | FFV1 => Some (mk_codec_params_t None 0%float 502)
  | AV1 => Some (mk_codec_params_t (Some (fun _ => "libsvtav1")) 0.1%float 600)
  | PRORES => Some (mk_codec_params_t None 0.5%float 300)
  | _ => None
  end.

(** [codec_params[c].avg_bpp]: [std::map::operator[]] value-initialises the
    entry of a codec that has none. *)
Definition codec_params_avg_bpp (c : codec_t) : float :=
  match codec_params c with
  | Some p => avg_bpp p
  | None => 0%float
  end.

(** [struct state_video_compress_libav]. Handles to FFmpeg and converter
    objects ([pixfmt_conversion], [hwframe], [sws_ctx], [sws_frame]) are
    [true] when non-NULL. The message queue of [module_data] is passed to
    [libavcodec_check_messages] as a list. *)
Record state_video_compress_libav := mk_state {
  saved_desc : video_desc;
  pixfmt_conversion : bool;
  codec_ctx : option AVCodecContext;
  requested_codec_id : codec_t;
  requested_bitrate : Z;
  requested_bpp : float;
  requested_crf : float;
  requested_cqp : Z;
  req_conv_prop : to_lavc_req_prop;
  compressed_desc : video_desc;
  params : setparam_param;
  backend : string;
  requested_gop : Z;
  lavc_opts : gmap string string;
  blacklist_opts : gset string;
  hwenc : bool;
  store_orig_format : bool;
  hwframe : bool;
  sws_ctx : bool;
  sws_frame : bool;
  conv_thread_count : Z;
  mov_avg_comp_duration : float;
  mov_avg_frames : Z
}.

Abbreviation state := state_video_compress_libav.

Definition set_saved_desc v (s : state) : state :=
  mk_state v (pixfmt_conversion s) (codec_ctx s) (requested_codec_id s)
    (requested_bitrate s) (requested_bpp s) (requested_crf s) (requested_cqp s)
    (req_conv_prop s) (compressed_desc s) (params s) (backend s) (requested_gop s)
    (lavc_opts s) (blacklist_opts s) (hwenc s) (store_orig_format s) (hwframe s)
    (sws_ctx s) (sws_frame s) (conv_thread_count s) (mov_avg_comp_duration s)
    (mov_avg_frames s).
Definition set_pixfmt_conversion v (s : state) : state :=
  mk_state (saved_desc s) v (codec_ctx s) (requested_codec_id s) (requested_bitrate s)
    (requested_bpp s) (requested_crf s) (requested_cqp s) (req_conv_prop s)
    (compressed_desc s) (params s) (backend s) (requested_gop s) (lavc_opts s)
    (blacklist_opts s) (hwenc s) (store_orig_format s) (hwframe s) (sws_ctx s)
    (sws_frame s) (conv_thread_count s) (mov_avg_comp_duration s) (mov_avg_frames s).
Definition set_codec_ctx v (s : state) : state :=
  mk_state (saved_desc s) (pixfmt_conversion s) v (requested_codec_id s)
    (requested_bitrate s) (requested_bpp s) (requested_crf s) (requested_cqp s)
    (req_conv_prop s) (compressed_desc s) (params s) (backend s) (requested_gop s)
    (lavc_opts s) (blacklist_opts s) (hwenc s) (store_orig_format s) (hwframe s)
    (sws_ctx s) (sws_frame s) (conv_thread_count s) (mov_avg_comp_duration s)
    (mov_avg_frames s).
Definition set_requested_codec_id v (s : state) : state :=
  mk_state (saved_desc s) (pixfmt_conversion s) (codec_ctx s) v (requested_bitrate s)
    (requested_bpp s) (requested_crf s) (requested_cqp s) (req_conv_prop s)
    (compressed_desc s) (params s) (backend s) (requested_gop s) (lavc_opts s)
    (blacklist_opts s) (hwenc s) (store_orig_format s) (hwframe s) (sws_ctx s)
    (sws_frame s) (conv_thread_count s) (mov_avg_comp_duration s) (mov_avg_frames s).
Definition set_requested_bitrate v (s : state) : state :=
  mk_state (saved_desc s) (pixfmt_conversion s) (codec_ctx s) (requested_codec_id s) v
    (requested_bpp s) (requested_crf s) (requested_cqp s) (req_conv_prop s)
    (compressed_desc s) (params s) (backend s) (requested_gop s) (lavc_opts s)
    (blacklist_opts s) (hwenc s) (store_orig_format s) (hwframe s) (sws_ctx s)
    (sws_frame s) (conv_thread_count s) (mov_avg_comp_duration s) (mov_avg_frames s).
Definition set_requested_bpp v (s : state) : state :=
  mk_state (saved_desc s) (pixfmt_conversion s) (codec_ctx s) (requested_codec_id s)
    (requested_bitrate s) v (requested_crf s) (requested_cqp s) (req_conv_prop s)
    (compressed_desc s) (params s) (backend s) (requested_gop s) (lavc_opts s)
    (blacklist_opts s) (hwenc s) (store_orig_format s) (hwframe s) (sws_ctx s)
    (sws_frame s) (conv_thread_count s) (mov_avg_comp_duration s) (mov_avg_frames s).
Definition set_requested_crf v (s : state) : state :=
  mk_state (saved_desc s) (pixfmt_conversion s) (codec_ctx s) (requested_codec_id s)
    (requested_bitrate s) (requested_bpp s) v (requested_cqp s) (req_conv_prop s)
    (compressed_desc s) (params s) (backend s) (requested_gop s) (lavc_opts s)
    (blacklist_opts s) (hwenc s) (store_orig_format s) (hwframe s) (sws_ctx s)
    (sws_frame s) (conv_thread_count s) (mov_avg_comp_duration s) (mov_avg_frames s).
Definition set_requested_cqp v (s : state) : state :=
  mk_state (saved_desc s) (pixfmt_conversion s) (codec_ctx s) (requested_codec_id s)
    (requested_bitrate s) (requested_bpp s) (requested_crf s) v (req_conv_prop s)
    (compressed_desc s) (params s) (backend s) (requested_gop s) (lavc_opts s)
    (blacklist_opts s) (hwenc s) (store_orig_format s) (hwframe s) (sws_ctx s)
    (sws_frame s) (conv_thread_count s) (mov_avg_comp_duration s) (mov_avg_frames s).
Definition set_req_conv_prop v (s : state) : state :=
  mk_state (saved_desc s) (pixfmt_conversion s) (codec_ctx s) (requested_codec_id s)
    (requested_bitrate s) (requested_bpp s) (requested_crf s) (requested_cqp s) v
    (compressed_desc s) (params s) (backend s) (requested_gop s) (lavc_opts s)
    (blacklist_opts s) (hwenc s) (store_orig_format s) (hwframe s) (sws_ctx s)
    (sws_frame s) (conv_thread_count s) (mov_avg_comp_duration s) (mov_avg_frames s).
Definition set_compressed_desc v (s : state) : state :=
  mk_state (saved_desc s) (pixfmt_conversion s) (codec_ctx s) (requested_codec_id s)
    (requested_bitrate s) (requested_bpp s) (requested_crf s) (requested_cqp s)
    (req_conv_prop s) v (params s) (backend s) (requested_gop s) (lavc_opts s)
    (blacklist_opts s) (hwenc s) (store_orig_format s) (hwframe s) (sws_ctx s)
    (sws_frame s) (conv_thread_count s) (mov_avg_comp_duration s) (mov_avg_frames s).
Definition set_params v (s : state) : state :=
  mk_state (saved_desc s) (pixfmt_conversion s) (codec_ctx s) (requested_codec_id s)
    (requested_bitrate s) (requested_bpp s) (requested_crf s) (requested_cqp s)
    (req_conv_prop s) (compressed_desc s) v (backend s) (requested_gop s) (lavc_opts s)
    (blacklist_opts s) (hwenc s) (store_orig_format s) (hwframe s) (sws_ctx s)
    (sws_frame s) (conv_thread_count s) (mov_avg_comp_duration s) (mov_avg_frames s).
Definition set_backend v (s : state) : state :=
  mk_state (saved_desc s) (pixfmt_conversion s) (codec_ctx s) (requested_codec_id s)
    (requested_bitrate s) (requested_bpp s) (requested_crf s) (requested_cqp s)
    (req_conv_prop s) (compressed_desc s) (params s) v (requested_gop s) (lavc_opts s)
    (blacklist_opts s) (hwenc s) (store_orig_format s) (hwframe s) (sws_ctx s)
    (sws_frame s) (conv_thread_count s) (mov_avg_comp_duration s) (mov_avg_frames s).
Definition set_requested_gop v (s : state) : state :=
  mk_state (saved_desc s) (pixfmt_conversion s) (codec_ctx s) (requested_codec_id s)
    (requested_bitrate s) (requested_bpp s) (requested_crf s) (requested_cqp s)
    (req_conv_prop s) (compressed_desc s) (params s) (backend s) v (lavc_opts s)
    (blacklist_opts s) (hwenc s) (store_orig_format s) (hwframe s) (sws_ctx s)
    (sws_frame s) (conv_thread_count s) (mov_avg_comp_duration s) (mov_avg_frames s).
Definition set_lavc_opts v (s : state) : state :=
  mk_state (saved_desc s) (pixfmt_conversion s) (codec_ctx s) (requested_codec_id s)
    (requested_bitrate s) (requested_bpp s) (requested_crf s) (requested_cqp s)
    (req_conv_prop s) (compressed_desc s) (params s) (backend s) (requested_gop s) v
    (blacklist_opts s) (hwenc s) (store_orig_format s) (hwframe s) (sws_ctx s)
    (sws_frame s) (conv_thread_count s) (mov_avg_comp_duration s) (mov_avg_frames s).
Definition set_blacklist_opts v (s : state) : state :=
  mk_state (saved_desc s) (pixfmt_conversion s) (codec_ctx s) (requested_codec_id s)
    (requested_bitrate s) (requested_bpp s) (requested_crf s) (requested_cqp s)
    (req_conv_prop s) (compressed_desc s) (params s) (backend s) (requested_gop s)
    (lavc_opts s) v (hwenc s) (store_orig_format s) (hwframe s) (sws_ctx s) (sws_frame s)
    (conv_thread_count s) (mov_avg_comp_duration s) (mov_avg_frames s).
Definition set_hwenc v (s : state) : state :=
  mk_state (saved_desc s) (pixfmt_conversion s) (codec_ctx s) (requested_codec_id s)
    (requested_bitrate s) (requested_bpp s) (requested_crf s) (requested_cqp s)
    (req_conv_prop s) (compressed_desc s) (params s) (backend s) (requested_gop s)
    (lavc_opts s) (blacklist_opts s) v (store_orig_format s) (hwframe s) (sws_ctx s)
    (sws_frame s) (conv_thread_count s) (mov_avg_comp_duration s) (mov_avg_frames s).
Definition set_store_orig_format v (s : state) : state :=
  mk_state (saved_desc s) (pixfmt_conversion s) (codec_ctx s) (requested_codec_id s)
    (requested_bitrate s) (requested_bpp s) (requested_crf s) (requested_cqp s)
    (req_conv_prop s) (compressed_desc s) (params s) (backend s) (requested_gop s)
    (lavc_opts s) (blacklist_opts s) (hwenc s) v (hwframe s) (sws_ctx s) (sws_frame s)
    (conv_thread_count s) (mov_avg_comp_duration s) (mov_avg_frames s).
Definition set_hwframe v (s : state) : state :=
  mk_state (saved_desc s) (pixfmt_conversion s) (codec_ctx s) (requested_codec_id s)
    (requested_bitrate s) (requested_bpp s) (requested_crf s) (requested_cqp s)
    (req_conv_prop s) (compressed_desc s) (params s) (backend s) (requested_gop s)
    (lavc_opts s) (blacklist_opts s) (hwenc s) (store_orig_format s) v (sws_ctx s)
    (sws_frame s) (conv_thread_count s) (mov_avg_comp_duration s) (mov_avg_frames s).
Definition set_sws_ctx v (s : state) : state :=
  mk_state (saved_desc s) (pixfmt_conversion s) (codec_ctx s) (requested_codec_id s)
    (requested_bitrate s) (requested_bpp s) (requested_crf s) (requested_cqp s)
    (req_conv_prop s) (compressed_desc s) (params s) (backend s) (requested_gop s)
    (lavc_opts s) (blacklist_opts s) (hwenc s) (store_orig_format s) (hwframe s) v
    (sws_frame s) (conv_thread_count s) (mov_avg_comp_duration s) (mov_avg_frames s).
Definition set_sws_frame v (s : state) : state :=
  mk_state (saved_desc s) (pixfmt_conversion s) (codec_ctx s) (requested_codec_id s)
    (requested_bitrate s) (requested_bpp s) (requested_crf s) (requested_cqp s)
    (req_conv_prop s) (compressed_desc s) (params s) (backend s) (requested_gop s)
    (lavc_opts s) (blacklist_opts s) (hwenc s) (store_orig_format s) (hwframe s)
    (sws_ctx s) v (conv_thread_count s) (mov_avg_comp_duration s) (mov_avg_frames s).
Definition set_conv_thread_count v (s : state) : state :=
  mk_state (saved_desc s) (pixfmt_conversion s) (codec_ctx s) (requested_codec_id s)
    (requested_bitrate s) (requested_bpp s) (requested_crf s) (requested_cqp s)
    (req_conv_prop s) (compressed_desc s) (params s) (backend s) (requested_gop s)
    (lavc_opts s) (blacklist_opts s) (hwenc s) (store_orig_format s) (hwframe s)
    (sws_ctx s) (sws_frame s) v (mov_avg_comp_duration s) (mov_avg_frames s).
Definition set_mov_avg_comp_duration v (s : state) : state :=
  mk_state (saved_desc s) (pixfmt_conversion s) (codec_ctx s) (requested_codec_id s)
    (requested_bitrate s) (requested_bpp s) (requested_crf s) (requested_cqp s)
    (req_conv_prop s) (compressed_desc s) (params s) (backend s) (requested_gop s)
    (lavc_opts s) (blacklist_opts s) (hwenc s) (store_orig_format s) (hwframe s)
    (sws_ctx s) (sws_frame s) (conv_thread_count s) v (mov_avg_frames s).
Definition set_mov_avg_frames v (s : state) : state :=
  mk_state (saved_desc s) (pixfmt_conversion s) (codec_ctx s) (requested_codec_id s)
    (requested_bitrate s) (requested_bpp s) (requested_crf s) (requested_cqp s)
    (req_conv_prop s) (compressed_desc s) (params s) (backend s) (requested_gop s)
    (lavc_opts s) (blacklist_opts s) (hwenc s) (store_orig_format s) (hwframe s)
    (sws_ctx s) (sws_frame s) (conv_thread_count s) (mov_avg_comp_duration s) v.

(** The state the constructor of [state_video_compress_libav] builds;
    [conv_threads] is the clamped [thread::hardware_concurrency()]. *)
Definition initial_state (conv_threads : Z) : state :=
  mk_state zero_desc false None VIDEO_CODEC_NONE 0 0%float (-1)%float (-1)
           (mk_to_lavc_req_prop 0 0 (-1) VIDEO_CODEC_NONE)
           zero_desc
           (mk_setparam_param zero_desc false (-1) (-1) "" (-1))
           "" DEFAULT_GOP_SIZE ∅ ∅ false false false false false
           conv_threads 0%float 0.

(** The compression request held in the state: what [parse_fmt] assigns. *)
Record CompressionRequest := mk_request {
  rq_codec : codec_t;
  rq_bitrate : Z;
  rq_bpp : float;
  rq_crf : float;
  rq_cqp : Z;
  rq_conv_prop : to_lavc_req_prop;
  rq_gop : Z;
  rq_backend : string;
  rq_thread_mode : string;
  rq_slices : Z;
  rq_periodic_intra : Z;
  rq_interlaced_dct : Z;
  rq_conv_thread_count : Z;
  rq_lavc_opts : gmap string string
}.

Definition request_of (s : state) : CompressionRequest :=
  mk_request (requested_codec_id s) (requested_bitrate s) (requested_bpp s)
             (requested_crf s) (requested_cqp s) (req_conv_prop s)
             (requested_gop s) (backend s) (thread_mode (params s))
             (slices (params s)) (periodic_intra (params s))
             (interlaced_dct (params s)) (conv_thread_count s) (lavc_opts s).

(* ===================================================================== *)
(** ** Observable effects *)
(* ===================================================================== *)

Inductive response_status := RESPONSE_OK | RESPONSE_INT_SERV_ERR.

Inductive log_level :=
| LOG_LEVEL_ERROR | LOG_LEVEL_WARNING | LOG_LEVEL_NOTICE | LOG_LEVEL_INFO.

(** The warnings of the performance monitor ([check_duration]). *)
Inductive hint :=
| HintNvencDelay      (* "delay=<frames>" option to NVENC compression *)
| HintThreadsFS       (* "threads=<n>FS" option *)
| HintThreads.        (* "threads=<n>" option *)

Inductive perf_warning :=
| TooSlow                  (* "Average compression time of last ... frames is ..." *)
| ConsiderAdding (h : hint)
| SlowPixfmtChange.        (* "Also pixfmt change of last frame took ..." *)

Inductive event :=
| EvLog (lvl : log_level) (msg : string)
| EvOptSet (key : string) (val : opt_val) (ok : bool)
| EvExit (status : Z)
| EvResponse (r : response_status)
| EvCleanup
| EvConfigure (d : video_desc)
| EvTrialOpen (fmt : AVPixelFormat) (ok : bool)
| EvPerf (w : perf_warning).

(** What a trial open ([try_open_codec]) leaves behind: the opened context
    on success (the context is freed and NULL on failure), the pixel format
    it wrote back through its reference parameter, and the fields of the
    state the tuner and the VA-API setup assign on the way. *)
Record open_result := mk_open_result {
  or_ctx : option AVCodecContext;
  or_pix_fmt : AVPixelFormat;
  or_hwenc : bool;
  or_hwframe : bool;
  or_params : setparam_param;
  or_blacklist_opts : gset string
}.

(** Code outside the embedded file: FFmpeg, the C++ runtime, and UltraGrid
    helpers of other translation units. *)
Class Collaborators := {
  (** utils: codec name to [codec_t], [VIDEO_CODEC_NONE] when unknown *)
  get_codec_from_name : string -> codec_t;
  (** utils: number with an SI suffix *)
  unit_evaluate : string -> Z;
  (** utils: as above for doubles; NaN on error *)
  unit_evaluate_dbl : string -> float;
  atof : string -> float;
  (** host: [--param] values *)
  get_commandline_param : string -> option string;
  (** video: [video_desc_eq_excl_param(a, b, PARAM_TILE_COUNT)] *)
  video_desc_eq_excl_tile_count : video_desc -> video_desc -> bool;
  codec_is_a_rgb : codec_t -> bool;
  (** FFmpeg: does the codec accept this private option? *)
  av_opt_accepts : AVCodec -> string -> opt_val -> bool;
  avcodec_find_encoder_by_name : string -> option AVCodec;
  avcodec_find_encoder : AVCodecID -> option AVCodec;
  av_get_pix_fmt : string -> AVPixelFormat;
  (** to_lavc_vid_conv: the formats the converter can produce, best first *)
  get_available_pix_fmts : codec_t -> to_lavc_req_prop -> list AVPixelFormat;
  (** [Some fmt] when the build defines X2RGB10LE_PRESENT *)
  AV_PIX_FMT_X2RGB10LE : option AVPixelFormat;
  (** is the format known to FFmpeg and not hardware-only? *)
  pix_fmt_is_software : AVPixelFormat -> bool;
  (** the tuner and [avcodec_open2] behind [try_open_codec] *)
  open_backend : state -> AVPixelFormat -> video_desc -> codec_t -> AVCodec -> open_result;
  (** [to_lavc_vid_conv_init(...) != nullptr] *)
  to_lavc_vid_conv_init : codec_t -> Z -> Z -> AVPixelFormat -> Z -> bool;
  (** is the build one with HAVE_SWSCALE? *)
  have_swscale : bool;
  AV_PIX_FMT_UYVY422 : AVPixelFormat;
  (** [getSwsContext(w, h, in, w, h, out, SWS_POINT) != NULL] *)
  sws_getContext_ok : Z -> Z -> AVPixelFormat -> AVPixelFormat -> bool;
  (** [av_frame_alloc() != NULL] and [av_image_alloc(...) >= 0] *)
  av_frame_alloc_ok : bool;
  av_image_alloc_ok : Z -> Z -> AVPixelFormat -> bool;
  (** [av_pix_fmt_desc_get(fmt)->flags & AV_PIX_FMT_FLAG_RGB] *)
  pix_fmt_is_rgb : AVPixelFormat -> bool;
  (** [std::thread::hardware_concurrency()] *)
  hardware_concurrency : Z
}.

Definition set_subsampling v (p : to_lavc_req_prop) : to_lavc_req_prop :=
  mk_to_lavc_req_prop v (depth p) (rgb p) (force_conv_to p).
Definition set_depth v (p : to_lavc_req_prop) : to_lavc_req_prop :=
  mk_to_lavc_req_prop (subsampling p) v (rgb p) (force_conv_to p).
Definition set_rgb v (p : to_lavc_req_prop) : to_lavc_req_prop :=
  mk_to_lavc_req_prop (subsampling p) (depth p) v (force_conv_to p).
Definition set_force_conv_to v (p : to_lavc_req_prop) : to_lavc_req_prop :=
  mk_to_lavc_req_prop (subsampling p) (depth p) (rgb p) v.

(** Ways the process stops inside the embedded code instead of returning. *)
Inductive crash :=
| UncaughtException (what : string)
| AssertionFailure
| NullDereference.

(* ===================================================================== *)
(** ** Option parser: [parse_fmt] *)
(* ===================================================================== *)

Definition DEL : ascii := ascii_of_nat 127.

(** Modelled from the spec: [replace_all(fmt, ESCAPED_COLON, DELDEL)]
    (utils/string.h, outside the embedded sources): every backslash-colon
    pair, left to right, becomes two DEL characters, so that an escaped
    colon does not split a token. *)
Fixpoint escape_colons (s : string) : string :=
  match s with
  | EmptyString => EmptyString
  | String c1 s' =>
      match s' with
      | String c2 r =>
          if Ascii.eqb c1 "\" && Ascii.eqb c2 ":"
          then String DEL (String DEL (escape_colons r))
          else String c1 (escape_colons s')
      | EmptyString => String c1 EmptyString
      end
  end.

(** Modelled from the spec: [replace_all(val, DELDEL, ":")], the way back:
    every pair of DEL characters, left to right, becomes one colon. *)
Fixpoint unescape_colons (s : string) : string :=
  match s with
  | EmptyString => EmptyString
  | String c1 s' =>
      match s' with
      | String c2 r =>
          if Ascii.eqb c1 DEL && Ascii.eqb c2 DEL
          then String ":" (unescape_colons r)
          else String c1 (unescape_colons s')
      | EmptyString => String c1 EmptyString
      end
  end.

Inductive parse_status :=
| Returned (ret : Z)
| Crashed (c : crash).

(** One turn of the token loop: go on with the next token, or leave
    [parse_fmt]. *)
Inductive item_result :=
| Continue (s : state) (show_help : bool)
| Stop (st : parse_status) (s : state).

(** [strchr(item, '=') + 1]. *)
Definition after_eq (item : string) : string :=
  match after item "=" with
  | Some v => v
  | None => EmptyString
  end.

Section Parser.
Context `{Collaborators}.

(** The body of the [while] loop of [parse_fmt] for one token. Log lines and
    help output are left out. *)
Definition parse_item (s : state) (show_help : bool) (item : string) : item_result :=
  if starts_with_ci "help" item then
    Continue s true
  else if starts_with_ci "codec=" item then
    let s := set_requested_codec_id (get_codec_from_name (drop 6 item)) s in
    if decide (requested_codec_id s = VIDEO_CODEC_NONE)
    then Stop (Returned (-1)) s
    else Continue s show_help
  else if starts_with_ci "bitrate=" item then
    let s := set_requested_bitrate (unit_evaluate (drop 8 item)) s in
    if 0 <=? requested_bitrate s
    then Continue s show_help
    else Stop (Crashed AssertionFailure) s
  else if starts_with_ci "bpp=" item then
    let s := set_requested_bpp (unit_evaluate_dbl (drop 4 item)) s in
    if PrimFloat.is_nan (requested_bpp s)
    then Stop (Returned (-1)) s
    else Continue s show_help
  else if starts_with_ci "crf=" item then
    Continue (set_requested_crf (atof (drop 4 item)) s) show_help
  else if starts_with "cqp=" item || starts_with "q=" item then
    Continue (set_requested_cqp (atoi (after_eq item)) s) show_help
  else if starts_with_ci "subsampling=" item then
    let v := atoi (drop 12 item) in
    (* 420 -> 4200; the product is taken in [int] *)
    let v := if v <? 1000 then wrap_int (v * 10) else v in
    let s := set_req_conv_prop (set_subsampling v (req_conv_prop s)) s in
    if negb (v =? 4440) && negb (v =? 4220) && negb (v =? 4200)
    then Stop (Returned (-1)) s
    else Continue s show_help
  else if starts_with "depth=" item then
    Continue (set_req_conv_prop (set_depth (atoi (after_eq item)) (req_conv_prop s)) s) show_help
  else if strcasecmp_eq item "rgb" || strcasecmp_eq item "yuv" then
    Continue (set_req_conv_prop
                (set_rgb (if strcasecmp_eq item "rgb" then 1 else 0) (req_conv_prop s)) s)
             show_help
  else if contains "intra_refresh" item then
    Continue (set_params
                (set_periodic_intra (if starts_with "disable_" item then 0 else 1) (params s)) s)
             show_help
  else if contains "interlaced_dct" item then
    Continue (set_params
                (set_interlaced_dct (if starts_with "disable_" item then 0 else 1) (params s)) s)
             show_help
  else if starts_with_ci "threads=" item then
    let threads := drop 8 item in
    match after threads "," with
    | Some conv =>
        match stoi conv with
        | StoiOk v _ =>
            let s := set_conv_thread_count v s in
            Continue (set_params (set_thread_mode (before threads ",") (params s)) s) show_help
        | StoiInvalidArgument => Stop (Crashed (UncaughtException "invalid_argument")) s
        | StoiOutOfRange => Stop (Crashed (UncaughtException "out_of_range")) s
        end
    | None => Continue (set_params (set_thread_mode threads (params s)) s) show_help
    end
  else if starts_with_ci "slices=" item then
    match stoi (after_eq item) with
    | StoiOk v _ => Continue (set_params (set_slices v (params s)) s) show_help
    | StoiInvalidArgument => Stop (Crashed (UncaughtException "invalid_argument")) s
    | StoiOutOfRange => Stop (Crashed (UncaughtException "out_of_range")) s
    end
  else if starts_with_ci "encoder=" item then
    Continue (set_backend (drop 8 item) s) show_help
  else if starts_with_ci "gop=" item then
    Continue (set_requested_gop (atoi (drop 4 item)) s) show_help
  else if contains "=" item then
    let key := before item "=" in
    let val := unescape_colons (after_eq item) in
    Continue (set_lavc_opts (<[key := val]> (lavc_opts s)) s) show_help
  else
    Stop (Returned (-1)) s.

(** What [parse_fmt] does after the token loop; the help texts it prints are
    left out. *)
Definition parse_fmt_finish (s : state) (show_help : bool) : parse_status * state :=
  let use_codec_help :=
    match get_commandline_param "lavc-use-codec" with
    | Some v => String.eqb v "help"
    | None => false
    end in
  let s := match get_commandline_param "keep-pixfmt" with
           | Some _ => set_store_orig_format true s
           | None => s
           end in
  (Returned (if show_help || use_codec_help then 1 else 0), s).

Fixpoint parse_items (s : state) (show_help : bool) (items : list string)
  : parse_status * state :=
  match items with
  | [] => parse_fmt_finish s show_help
  | item :: rest =>
      match parse_item s show_help item with
      | Continue s' show_help' => parse_items s' show_help' rest
      | Stop st s' => (st, s')
      end
  end.

(** [parse_fmt(s, fmt)]: 0 on success, 1 after help, -1 on error. It works
    on [s] itself. *)
Definition parse_fmt (s : state) (fmt : option string) : parse_status * state :=
  match fmt with
  | None => (Returned 0, s)
  | Some fmt => parse_items s false (strtok_all ":" (escape_colons fmt))
  end.

(** [libavcodec_check_messages]: every pending message, oldest first, is a
    new configuration string; each gets its response. *)
Fixpoint libavcodec_check_messages (s : state) (pending : list string)
  : option crash * state * list event :=
  match pending with
  | [] => (None, s, [])
  | config_string :: rest =>
      match parse_fmt s (Some config_string) with
      | (Returned ret, s1) =>
          let r := if ret =? 0 then RESPONSE_OK else RESPONSE_INT_SERV_ERR in
          let s2 := set_saved_desc zero_desc s1 in
          let '(c, s3, evs) := libavcodec_check_messages s2 rest in
          (c, s3, EvResponse r :: evs)
      | (Crashed c, s1) => (Some c, s1, [])
      end
  end.

End Parser.

(* ===================================================================== *)
(** ** Encoder selection and pixel-format negotiation *)
(* ===================================================================== *)

(** [get_av_to_ug_codec] (libavcodec/lavc_common.c). *)
Definition get_av_to_ug_codec (av_codec : AVCodecID) : codec_t :=
  match av_codec with
  | AV_CODEC_ID_H264 => H264
  | AV_CODEC_ID_HEVC => H265
  | AV_CODEC_ID_MJPEG => MJPG
  | AV_CODEC_ID_JPEG2000 => J2K
  | AV_CODEC_ID_VP8 => VP8
  | AV_CODEC_ID_VP9 => VP9
  | AV_CODEC_ID_HUFFYUV => HFYU
  | AV_CODEC_ID_FFV1 => FFV1
  | AV_CODEC_ID_AV1 => AV1
  | AV_CODEC_ID_PRORES => PRORES
  | _ => VIDEO_CODEC_NONE
  end.

(** [get_ug_to_av_codec] (libavcodec/lavc_common.c). *)
Definition get_ug_to_av_codec (ug_codec : codec_t) : AVCodecID :=
  match ug_codec with
  | H264 => AV_CODEC_ID_H264
  | H265 => AV_CODEC_ID_HEVC
  | MJPG => AV_CODEC_ID_MJPEG
  | J2K => AV_CODEC_ID_JPEG2000
  | VP8 => AV_CODEC_ID_VP8
  | VP9 => AV_CODEC_ID_VP9
  | HFYU => AV_CODEC_ID_HUFFYUV
  | FFV1 => AV_CODEC_ID_FFV1
  | AV1 => AV_CODEC_ID_AV1
  | PRORES => AV_CODEC_ID_PRORES
  | _ => AV_CODEC_ID_NONE
  end.

(** The inner [while] of [get_first_matching_pix_fmt]: walk the codec's
    array up to its terminator looking for [fmt]. *)
Fixpoint codec_array_has (codec_pix_fmts : list AVPixelFormat) (fmt : AVPixelFormat) : bool :=
  match codec_pix_fmts with
  | [] => false
  | x :: tmp =>
      if x =? AV_PIX_FMT_NONE then false
      else if x =? fmt then true
      else codec_array_has tmp fmt
  end.

(** The outer [for] of [get_first_matching_pix_fmt]: the iterator walks the
    requested formats; on a match it is left just past the match. *)
Fixpoint first_matching_from (codec_pix_fmts : list AVPixelFormat) (it : list AVPixelFormat)
  : AVPixelFormat * list AVPixelFormat :=
  match it with
  | [] => (AV_PIX_FMT_NONE, [])
  | req :: it' =>
      if codec_array_has codec_pix_fmts req then (req, it')
      else first_matching_from codec_pix_fmts it'
  end.

(** [get_first_matching_pix_fmt(it, end, codec_pix_fmts)]: the format it
    returns and the iterator as it leaves it (the rest of the requested
    list). *)
Definition get_first_matching_pix_fmt (it : list AVPixelFormat)
    (codec_pix_fmts : option (list AVPixelFormat)) : AVPixelFormat * list AVPixelFormat :=
  match codec_pix_fmts with
  | None => (AV_PIX_FMT_NONE, it)
  | Some arr => first_matching_from arr it
  end.

(** [formats.erase(std::find(...))]: drop the first occurrence. *)
Fixpoint erase_first (x : AVPixelFormat) (formats : list AVPixelFormat) : list AVPixelFormat :=
  match formats with
  | [] => []
  | y :: rest => if y =? x then rest else y :: erase_first x rest
  end.

(** Keeps the equation between a scrutinee and its value. *)
Definition inspect {A : Type} (a : A) : {b : A | a = b} := exist _ a eq_refl.

Section Pipeline.
Context `{Collaborators}.

(** [get_av_codec]: the encoder, and [*ug_codec] as it leaves it. *)
Definition get_av_codec (s : state) (ug_codec : codec_t) (src_rgb : bool)
  : option AVCodec * codec_t :=
  if negb (String.eqb (backend s) "") then
    match avcodec_find_encoder_by_name (backend s) with
    | None => (None, ug_codec)
    | Some codec =>
        if negb (bool_decide (requested_codec_id s = VIDEO_CODEC_NONE))
           && negb (bool_decide (requested_codec_id s = get_av_to_ug_codec (id codec)))
        then (None, ug_codec)
        else
          let ug := get_av_to_ug_codec (id codec) in
          if bool_decide (ug = VIDEO_CODEC_NONE) then (None, ug) else (Some codec, ug)
    end
  else
    match codec_params ug_codec with
    | Some (mk_codec_params_t (Some prefered) _ _) =>
        (avcodec_find_encoder_by_name (prefered src_rgb), ug_codec)
    | _ => (avcodec_find_encoder (get_ug_to_av_codec ug_codec), ug_codec)
    end.

(** [get_requested_pix_fmts]: the ordered candidates, and whether it asked
    the process to exit over a wrong [lavc-use-codec]. *)
Definition get_requested_pix_fmts (in_codec : codec_t) (req_conv_prop : to_lavc_req_prop)
  : list AVPixelFormat * list event :=
  match get_commandline_param "lavc-use-codec" with
  | Some val =>
      let fmt := av_get_pix_fmt val in
      if negb (fmt =? AV_PIX_FMT_NONE) then ([fmt], [])
      else
        let force := get_codec_from_name val in
        if bool_decide (force = VIDEO_CODEC_NONE) then ([], [EvExit 1])
        else (get_available_pix_fmts in_codec (set_force_conv_to force req_conv_prop), [])
  | None => (get_available_pix_fmts in_codec req_conv_prop, [])
  end.

(** [apply_blacklist]. *)
Definition apply_blacklist (formats : list AVPixelFormat) (encoder_name : string)
  : list AVPixelFormat :=
  match AV_PIX_FMT_X2RGB10LE with
  | Some x2rgb10le =>
      if contains "nvenc" encoder_name then
        if (length formats =? 1)%nat then formats
        else erase_first x2rgb10le formats
      else formats
  | None => formats
  end.

(** [try_open_codec]: success, the pixel format written back, the state. *)
Definition try_open_codec (s : state) (pix_fmt : AVPixelFormat) (d : video_desc)
    (ug_codec : codec_t) (enc : AVCodec) : bool * AVPixelFormat * state :=
  let r := open_backend s pix_fmt d ug_codec enc in
  let s := set_params (or_params r) s in
  let s := set_blacklist_opts (or_blacklist_opts r) s in
  let s := set_hwenc (or_hwenc r) s in
  let s := set_hwframe (or_hwframe r) s in
  let s := set_codec_ctx (or_ctx r) s in
  (bool_decide (is_Some (or_ctx r)), or_pix_fmt r, s).

(** The trial-open loop of [configure_with]:
    [while ((pix_fmt = get_first_matching_pix_fmt(it, end, codec->pix_fmts))
            != AV_PIX_FMT_NONE) { if (try_open_codec(...)) break; }].
    Returns [pix_fmt], the shared iterator and the state when the loop is
    left, and one [EvTrialOpen] per trial. *)
Equations? negotiate (d : video_desc) (ug_codec : codec_t) (enc : AVCodec)
    (s : state) (it : list AVPixelFormat)
  : AVPixelFormat * list AVPixelFormat * state * list event
  by wf (length it) lt :=
  negotiate d ug_codec enc s it
    with inspect (get_first_matching_pix_fmt it (pix_fmts enc)) := {
    | exist _ (fmt, it') Hm with inspect (fmt =? AV_PIX_FMT_NONE) := {
      | exist _ true _ => (AV_PIX_FMT_NONE, it', s, [])
      | exist _ false Hne with try_open_codec s fmt d ug_codec enc := {
        | (true, pix_fmt, s') => (pix_fmt, it', s', [EvTrialOpen fmt true])
        | (false, _, s') =>
            let '(r, it'', s'', evs) := negotiate d ug_codec enc s' it' in
            (r, it'', s'', EvTrialOpen fmt false :: evs) } } }.
Proof.
  clear negotiate.
  destruct (pix_fmts enc) as [arr|]; simpl in Hm.
  - revert fmt it' Hm Hne. induction it as [|c it IH]; intros fmt it' Hm Hne; simpl in Hm.
    + inversion Hm; subst. discriminate.
    + destruct (codec_array_has arr c).
      * inversion Hm; subst. simpl. lia.
      * specialize (IH _ _ Hm Hne). simpl. lia.
  - inversion Hm; subst. discriminate.
Qed.

(** The swscale fallback loop of [configure_with] over the codec's own
    array: [pix_fmt] (still [AV_PIX_FMT_NONE] when nothing opened), the
    state, the trials. *)
Fixpoint swscale_fallback (d : video_desc) (ug_codec : codec_t) (enc : AVCodec)
    (s : state) (pix : list AVPixelFormat) : AVPixelFormat * state * list event :=
  match pix with
  | [] => (AV_PIX_FMT_NONE, s, [])
  | p :: rest =>
      if p =? AV_PIX_FMT_NONE then (AV_PIX_FMT_NONE, s, [])
      else if pix_fmt_is_software p then
        match try_open_codec s p d ug_codec enc with
        | (true, curr_pix_fmt, s') => (curr_pix_fmt, s', [EvTrialOpen p true])
        | (false, _, s') =>
            let '(r, s'', evs) := swscale_fallback d ug_codec enc s' rest in
            (r, s'', EvTrialOpen p false :: evs)
        end
      else swscale_fallback d ug_codec enc s rest
  end.

(** [configure_swscale]. *)
Definition configure_swscale (s : state) (d : video_desc) (sws_out_pixfmt : AVPixelFormat)
  : bool * state :=
  if negb have_swscale then (false, s)
  else
    let sws_in_format :=
      match get_available_pix_fmts (color_spec d) (req_conv_prop s) with
      | [] => AV_PIX_FMT_UYVY422
      | f :: _ => f
      end in
    let s := set_pixfmt_conversion
               (to_lavc_vid_conv_init (color_spec d) (width d) (height d)
                                      sws_in_format (conv_thread_count s)) s in
    if negb (pixfmt_conversion s) then (false, s)
    else
      let s := set_sws_ctx (sws_getContext_ok (width d) (height d) sws_in_format sws_out_pixfmt) s in
      if negb (sws_ctx s) then (false, s)
      else
        let s := set_sws_frame av_frame_alloc_ok s in
        if negb (sws_frame s) then (false, s)
        else (av_image_alloc_ok (width d) (height d) sws_out_pixfmt, s).

Inductive configure_result :=
| Configured        (* [configure_with] returned true *)
| NotConfigured     (* it returned false *)
| ConfigureCrashed (c : crash).

(** [configure_with(s, desc)]. *)
Definition configure_with (s : state) (d : video_desc)
  : configure_result * state * list event :=
  let ug_codec := if bool_decide (requested_codec_id s = VIDEO_CODEC_NONE)
                  then DEFAULT_CODEC else requested_codec_id s in
  let s := set_sws_frame false (set_sws_ctx false s) in
  let s := set_params (set_desc d (params s)) s in
  match get_av_codec s ug_codec (codec_is_a_rgb (color_spec d)) with
  | (None, _) => (NotConfigured, s, [])
  | (Some enc, ug_codec) =>
      let '(requested_pix_fmt, ev0) := get_requested_pix_fmts (color_spec d) (req_conv_prop s) in
      let requested_pix_fmt := apply_blacklist requested_pix_fmt (name enc) in
      let '(pix_fmt, _, s, ev1) := negotiate d ug_codec enc s requested_pix_fmt in
      let fallback :=
        if have_swscale && (pix_fmt =? AV_PIX_FMT_NONE)
           && negb (bool_decide (is_Some (get_commandline_param "lavc-use-codec")))
        then
          match pix_fmts enc with
          | None => inl NullDereference
          | Some arr => inr (swscale_fallback d ug_codec enc s arr)
          end
        else inr (pix_fmt, s, []) in
      match fallback with
      | inl c => (ConfigureCrashed c, s, ev0 ++ ev1)
      | inr (pix_fmt, s, ev2) =>
          if pix_fmt =? AV_PIX_FMT_NONE then (NotConfigured, s, ev0 ++ ev1 ++ ev2)
          else
            let s := set_compressed_desc (set_tile_count 1 (set_color_spec ug_codec d)) s in
            let s := set_mov_avg_comp_duration 0%float s in
            let s := set_mov_avg_frames 0 s in
            let s := set_pixfmt_conversion
                       (to_lavc_vid_conv_init (color_spec d) (width d) (height d)
                                              pix_fmt (conv_thread_count s)) s in
            let '(ok, s) := if pixfmt_conversion s then (true, s)
                            else configure_swscale s d pix_fmt in
            if ok then (Configured, set_saved_desc d s, ev0 ++ ev1 ++ ev2)
            else (NotConfigured, s, ev0 ++ ev1 ++ ev2)
      end
  end.

(** [cleanup]: flush and free the encoder context and the frames. *)
Definition cleanup (s : state) : state :=
  set_sws_frame false (set_sws_ctx false (set_hwframe false (set_codec_ctx None s))).

(* ===================================================================== *)
(** ** Performance monitor: [check_duration] *)
(* ===================================================================== *)

Definition mov_window : Z := 100.
Definition NS_IN_SEC_DBL : float := 1000000000%float.

(** The hint [check_duration] picks for the open encoder, if any. *)
Definition pick_hint (s : state) (ctx : AVCodecContext) : option hint :=
  if regex_match_any_then_any "nvenc" (name (codec ctx)) then
    if bool_decide (lavc_opts s !! "delay" = None) then Some HintNvencDelay else None
  else if (Z.land (thread_type ctx) FF_THREAD_SLICE =? 0)
          && negb (Z.land (capabilities (codec ctx)) AV_CODEC_CAP_FRAME_THREADS =? 0)
  then Some HintThreadsFS
  else if (thread_count ctx =? 1)
          && negb (Z.land (capabilities (codec ctx)) AV_CODEC_CAP_OTHER_THREADS =? 0)
  then Some HintThreads
  else None.

(** [check_duration(s, dur_pixfmt_change_ns, dur_total_ns)]. *)
Definition check_duration (s : state) (dur_pixfmt_change_ns dur_total_ns : Z)
  : option crash * state * list event :=
  if 10 * mov_window <=? mov_avg_frames s then (None, s, [])
  else
    let duration := (CDouble.of_Z dur_total_ns / NS_IN_SEC_DBL)%float in
    let s := set_mov_avg_comp_duration
               ((mov_avg_comp_duration s * CDouble.of_Z (mov_window - 1) + duration)
                / CDouble.of_Z mov_window)%float s in
    let s := set_mov_avg_frames (mov_avg_frames s + 1) s in
    if (mov_avg_frames s <? 2 * mov_window)
       || (mov_avg_comp_duration s <? 1 / fps (compressed_desc s))%float
    then (None, s, [])
    else
      match codec_ctx s with
      | None => (Some NullDereference, s, [EvPerf TooSlow])
      | Some ctx =>
          let hint_ev := match pick_hint s ctx with
                         | Some h => [EvPerf (ConsiderAdding h)]
                         | None => []
                         end in
          let src_rgb := codec_is_a_rgb (color_spec (saved_desc s)) in
          let dst_rgb := pix_fmt_is_rgb (pix_fmt ctx) in
          let conv_ev :=
            if negb (Bool.eqb src_rgb dst_rgb)
               && (mov_avg_comp_duration s / 4 <? CDouble.of_Z dur_pixfmt_change_ns / NS_IN_SEC_DBL)%float
            then [EvPerf SlowPixfmtChange] else [] in
          (None, set_mov_avg_frames LONG_MAX s, EvPerf TooSlow :: hint_ev ++ conv_ev)
      end.

(* ===================================================================== *)
(** ** Encode pipeline: [libavcodec_compress_tile] *)
(* ===================================================================== *)

(** What the world hands to one call of [libavcodec_compress_tile]: the
    frame's description, and what the converter, the backend and the clock
    answer while it is processed. *)
Record frame_io := mk_frame_io {
  tx_desc : video_desc;          (* video_desc_from_frame(tx) *)
  codec_tag : Z;                 (* s->codec_ctx->codec_tag *)
  conv_ok : bool;                (* to_lavc_vid_conv returned a frame *)
  extradata_size : Z;            (* s->codec_ctx->extradata_size *)
  send_ret : Z;                  (* avcodec_send_frame *)
  pkt_sizes : list Z;            (* the packets avcodec_receive_packet yields *)
  dur_pixfmt_change_ns : Z;      (* t1 - t0 *)
  dur_total_ns : Z               (* t3 - t0 *)
}.

(** [libav_codec_has_extradata] (libavcodec/lavc_common.c). *)
Definition libav_codec_has_extradata (c : codec_t) : bool :=
  bool_decide (c = HFYU) || bool_decide (c = FFV1).

Inductive tile_result :=
| NoOutput                                   (* [return {}] *)
| Output (data_len : Z) (orig_format : bool) (* payload length; descriptor appended? *)
| TileCrashed (c : crash).

(** Lines 1165-1172: reconfigure when the frame's description differs from
    the saved one, the tile count apart. [Some r] is the outcome of the
    reconfiguration that ran, [None] says none was needed. *)
Definition reconfigure_if_needed (s : state) (d : video_desc)
  : option configure_result * state * list event :=
  if negb (video_desc_eq_excl_tile_count d (saved_desc s)) then
    let s := cleanup s in
    let '(r, s, evs) := configure_with s d in
    (Some r, s, EvCleanup :: EvConfigure d :: evs)
  else (None, s, []).

(** The loop over the packets of [avcodec_receive_packet] (lines
    1229-1237), with the buffer of [max_len] bytes and [data_len] bytes in
    it: the assertion on the room that is left, then the new length. The
    packet's size is an [int], the length an [unsigned int], [max_len] a
    [size_t]. *)
Fixpoint receive_packets (max_len : Z) (pkts : list Z) (data_len : Z) : crash + Z :=
  match pkts with
  | [] => inr data_len
  | size :: rest =>
      if negb (wrap_uint (size + data_len) <=? wrap_size_t (max_len - data_len))
      then inl AssertionFailure
      else receive_packets max_len rest (wrap_uint (data_len + size))
  end.

(** The rest of [libavcodec_compress_tile], for a configured pipeline. The
    bytes of the output buffer and the warnings of a failed send or receive
    are left out. *)
Definition encode_frame (s : state) (tx : frame_io) : tile_result * state * list event :=
  let cd := compressed_desc s in
  if bool_decide (color_spec cd = PRORES) && (codec_tag tx =? 0)
  then (TileCrashed AssertionFailure, s, [])
  else
    let max_len := Z.max (wrap_size_t (width cd * height cd * 4)) 4096 in
    if negb (conv_ok tx) then (NoOutput, s, [])
    else
      let data_len :=
        if libav_codec_has_extradata (color_spec cd)
        then wrap_uint (4 + extradata_size tx) else 0 in
      if negb (send_ret tx =? 0) then (NoOutput, s, [])
      else
        match receive_packets max_len (pkt_sizes tx) data_len with
        | inl c => (TileCrashed c, s, [])
        | inr data_len =>
            match check_duration s (dur_pixfmt_change_ns tx) (dur_total_ns tx) with
            | (Some c, s, evs) => (TileCrashed c, s, evs)
            | (None, s, evs) =>
                if data_len =? 0 then (NoOutput, s, evs)
                else
                  let cs := color_spec (compressed_desc s) in
                  (Output data_len
                          (store_orig_format s
                           && (bool_decide (cs = H264) || bool_decide (cs = H265))),
                   s, evs)
            end
        end.

(** [libavcodec_compress_tile(mod, tx)], with the messages that are pending
    when it is called. *)
Definition libavcodec_compress_tile (s : state) (pending : list string) (tx : frame_io)
  : tile_result * state * list event :=
  match libavcodec_check_messages s pending with
  | (Some c, s, ev0) => (TileCrashed c, s, ev0)
  | (None, s, ev0) =>
      match reconfigure_if_needed s (tx_desc tx) with
      | (Some (ConfigureCrashed c), s, ev1) => (TileCrashed c, s, ev0 ++ ev1)
      | (Some NotConfigured, s, ev1) => (NoOutput, s, ev0 ++ ev1)
      | (_, s, ev1) =>
          let '(r, s, ev2) := encode_frame s tx in
          (r, s, ev0 ++ ev1 ++ ev2)
      end
  end.

End Pipeline.

#[global] Arguments try_open_codec : simpl never.
#[global] Arguments configure_with : simpl never.
#[global] Arguments check_duration : simpl never.

(* ===================================================================== *)
(** ** Parameter tuner *)
(* ===================================================================== *)

Definition MSG_UNKNOWN_THREAD_MODE : string := "Unknown thread mode".
Definition MSG_NO_PARALLELISM : string :=
  "Slice-based or external multithreading not available, encoding won't be parallel".
Definition MSG_THREAD_MODE_UNSUPPORTED : string := "Codec doesn't support specified thread mode.".
Definition MSG_UNKNOWN_RC : string :=
  "Unknown/unsupported RC. Please report if you need some mode added.".
Definition MSG_RC_HELP : string := "See codec-specific usage for available RCs.".

(** Conversion of an integer to [int64_t]. *)
Definition wrap_int64 (z : Z) : Z := (z + 2 ^ 63) mod 2 ^ 64 - 2 ^ 63.

Section Tuner.
Context `{Collaborators}.

(** [check_av_opt_set<T>(codec_ctx->priv_data, key, val)]: whether the
    option was set, the context, the attempt as an event. *)
Definition check_av_opt_set (ctx : AVCodecContext) (key : string) (val : opt_val)
  : bool * AVCodecContext * list event :=
  let ok := av_opt_accepts (codec ctx) key val in
  (ok,
   if ok then set_priv_data (<[key := val]> (priv_data ctx)) ctx else ctx,
   [EvOptSet key val ok]).

(** [set_cqp(codec_ctx, requested_cqp)]. *)
Definition set_cqp (ctx : AVCodecContext) (requested_cqp : Z) : AVCodecContext * list event :=
  let nm := name (codec ctx) in
  let cqp :=
    if requested_cqp =? -1 then
      if contains "_qsv" nm
      then (if strcmp_eq nm "mjpeg_qsv" then DEFAULT_CQP_MJPEG_QSV else DEFAULT_CQP_QSV)
      else DEFAULT_CQP
    else requested_cqp in
  let ctx := set_flags (Z.lor (flags ctx) AV_CODEC_FLAG_QSCALE) ctx in
  if strcmp_eq nm "mjpeg" then (set_qmax cqp (set_qmin cqp ctx), [])
  else if contains "_qsv" nm then (set_global_quality cqp ctx, [])
  else let '(_, ctx, ev) := check_av_opt_set ctx "qp" (OptInt cqp) in (ctx, ev).

(** The target bitrate [set_codec_ctx_params] computes (lines 736-742).
    The two branches of the conditional expression are a [long long] and a
    [double], so its value is a [double]: the requested bitrate too is
    converted to [double] before it is stored in the [int_fast64_t]. *)
Definition target_bitrate (s : state) (d : video_desc) (ug_codec : codec_t) : Z :=
  let avg_bpp := if (0 <? requested_bpp s)%float then requested_bpp s
                 else codec_params_avg_bpp ug_codec in
  CDouble.to_int64
    (if 0 <? requested_bitrate s then CDouble.of_Z (requested_bitrate s)
     else (CDouble.of_Z (wrap_uint (width d * height d)) * avg_bpp * fps d)%float).

(** The first condition of the quality policy of [set_codec_ctx_params]
    (line 749), for the encoder named [nm]: constant QP is chosen. *)
Definition cqp_selected (s : state) (nm : string) : bool :=
  let is_vaapi := regex_match_any_then "_vaapi" nm in
  let is_mjpeg := contains "mjpeg" nm in
  (0 <=? requested_cqp s)
  || ((is_vaapi || is_mjpeg) && (requested_crf s =? -1)%float
      && (requested_bitrate s =? 0) && (requested_bpp s =? 0)%float).

(** Its second condition (line 751), tried when the first fails: constant
    rate factor is chosen. *)
Definition crf_selected (s : state) (nm : string) : bool :=
  let is_x264_x265 := starts_with "libx26" nm in
  (0 <=? requested_crf s)%float
  || (is_x264_x265 && (requested_bitrate s =? 0) && (requested_bpp s =? 0)%float).

(** The quality policy of [set_codec_ctx_params] (lines 732-763), on the
    context [s->codec_ctx] that [try_open_codec] has just allocated: CQP,
    CRF or bitrate. It is the first part of the function; the rest is
    [set_codec_ctx_params_rest], and [set_codec_ctx_params] is the two in
    a row. *)
Definition set_codec_ctx_params_quality (s : state) (ctx : AVCodecContext)
    (d : video_desc) (ug_codec : codec_t) : state * AVCodecContext * list event :=
  let nm := name (codec ctx) in
  let bitrate := target_bitrate s d ug_codec in
  let s := set_params (set_have_preset (bool_decide (is_Some (lavc_opts s !! "preset")))
                                       (params s)) s in
  let ctx := set_strict_std_compliance (-2) ctx in
  let '(set_bitrate, ctx, ev) :=
    if cqp_selected s nm then
      let '(ctx, ev) := set_cqp ctx (requested_cqp s) in (false, ctx, ev)
    else if crf_selected s nm then
      let crf := if (0 <=? requested_crf s)%float then requested_crf s
                 else DEFAULT_X264_X265_CRF in
      let '(_, ctx, ev) := check_av_opt_set ctx "crf" (OptDouble crf) in (false, ctx, ev)
    else (true, ctx, []) in
  let ctx :=
    if set_bitrate || (0 <? requested_bitrate s) then
      set_bit_rate_tolerance (CDouble.to_int32 (CDouble.of_Z bitrate / fps d * 6)%float)
                             (set_bit_rate bitrate ctx)
    else ctx in
  (s, ctx, ev).

(** The [while] loop of [set_codec_thread_mode] over the characters from
    [endpos] on. *)
Fixpoint thread_mode_letters (rest : string) (req_thread_type : Z) : Z * list event :=
  match rest with
  | EmptyString => (req_thread_type, [])
  | String c rest' =>
      let u := toupper c in
      if Ascii.eqb u "n" then thread_mode_letters rest' (-1)
      else if Ascii.eqb u "F" then thread_mode_letters rest' (Z.lor req_thread_type FF_THREAD_FRAME)
      else if Ascii.eqb u "S" then thread_mode_letters rest' (Z.lor req_thread_type FF_THREAD_SLICE)
      else
        let '(t, evs) := thread_mode_letters rest' req_thread_type in
        (t, EvLog LOG_LEVEL_ERROR MSG_UNKNOWN_THREAD_MODE :: evs)
  end.

(** [set_codec_thread_mode(codec_ctx, param)]. *)
Definition set_codec_thread_mode (ctx : AVCodecContext) (param : setparam_param)
  : option crash * AVCodecContext * list event :=
  if String.eqb (thread_mode param) "no" then
    (None, set_thread_count 1 (set_thread_type 0 ctx), [])
  else
    let parsed :=
      match stoi (thread_mode param) with
      | StoiOk v endpos => inr (v, endpos)
      | StoiInvalidArgument => inr (-1, O)
      | StoiOutOfRange => inl (UncaughtException "out_of_range")
      end in
    match parsed with
    | inl c => (Some c, ctx, [])
    | inr (req_thread_count, endpos) =>
        let caps := capabilities (codec ctx) in
        let '(req_thread_type, ev1) := thread_mode_letters (drop endpos (thread_mode param)) 0 in
        let '(req_thread_type, ev2) :=
          if req_thread_type =? 0 then
            if negb (Z.land caps AV_CODEC_CAP_SLICE_THREADS =? 0) then (FF_THREAD_SLICE, [])
            else if (Z.land caps AV_CODEC_CAP_OTHER_THREADS =? 0)
                    && negb (Z.land caps AV_CODEC_CAP_FRAME_THREADS =? 0)
            then (req_thread_type, [EvLog LOG_LEVEL_WARNING MSG_NO_PARALLELISM])
            else (req_thread_type, [])
          else if req_thread_type =? -1 then (0, [])
          else (req_thread_type, []) in
        let '(ctx, ev3) :=
          if (negb (Z.land req_thread_type FF_THREAD_SLICE =? 0)
              && (Z.land caps AV_CODEC_CAP_SLICE_THREADS =? 0))
             || (negb (Z.land req_thread_type FF_THREAD_FRAME =? 0)
                 && (Z.land caps AV_CODEC_CAP_FRAME_THREADS =? 0))
          then (ctx, [EvLog LOG_LEVEL_ERROR MSG_THREAD_MODE_UNSUPPORTED])
          else (set_thread_type req_thread_type ctx, []) in
        let ctx :=
          if negb (req_thread_count =? -1) then set_thread_count req_thread_count ctx
          else if negb (Z.land caps AV_CODEC_CAP_OTHER_THREADS =? 0) then
            if starts_with "libvpx" (name (codec ctx)) then set_thread_count 0 ctx else ctx
          else if negb (thread_type ctx =? 0) then set_thread_count (wrap_int hardware_concurrency) ctx
          else ctx in
        (None, ctx, ev1 ++ ev2 ++ ev3)
    end.

(** The rate-control part of [configure_qsv_h264_hevc] for the mode [rc]. *)
Definition configure_qsv_rc (ctx : AVCodecContext) (rc : string)
  : option crash * AVCodecContext * list event :=
  if strcmp_eq rc "help" then
    (None, ctx, [EvLog LOG_LEVEL_INFO MSG_RC_HELP; EvExit 0])
  else if strcasecmp_eq rc "cbr" then
    (None, set_rc_max_rate (bit_rate ctx) ctx, [])
  else if strcasecmp_eq rc "cqp" then
    (None, set_flags (Z.lor (flags ctx) AV_CODEC_FLAG_QSCALE) ctx, [])
  else if strcasecmp_eq rc "icq" || strcasecmp_eq rc "qvbr" then
    let ctx := set_global_quality
                 (if global_quality ctx <=? 0 then DEFAULT_CQP else global_quality ctx) ctx in
    let ctx := set_flags (Z.land (flags ctx) (Z.lnot AV_CODEC_FLAG_QSCALE)) ctx in
    if strcasecmp_eq rc "qvbr" then
      if 0 <? bit_rate ctx
      then (None, set_rc_max_rate (Z.quot (wrap_int64 (23 * bit_rate ctx)) 20) ctx, [])
      else (Some AssertionFailure, ctx, [])
    else (None, ctx, [])
  else if strcasecmp_eq rc "vbr" then
    (None, ctx, [])
  else
    (None, ctx, [EvLog LOG_LEVEL_ERROR MSG_UNKNOWN_RC; EvExit 1]).

(** [configure_qsv_h264_hevc(codec_ctx, param)]; [param->lavc_opts] and
    [param->blacklist_opts] are the maps of the state. Returns the context
    and the blacklist as it leaves them. *)
Definition configure_qsv_h264_hevc (ctx : AVCodecContext) (param : setparam_param)
    (lavc_opts : gmap string string) (blacklist_opts : gset string)
  : option crash * AVCodecContext * gset string * list event :=
  let '(_, ctx, e1) := check_av_opt_set ctx "scenario" (OptStr "livestreaming") in
  let '(_, ctx, e2) := check_av_opt_set ctx "async_depth" (OptInt 1) in
  let '(ctx, e3) :=
    if negb (periodic_intra param =? 0) then
      let '(_, ctx, a) := check_av_opt_set ctx "int_ref_type" (OptStr "vertical") in
      let '(_, ctx, b) := check_av_opt_set ctx "int_ref_cycle_size" (OptInt 20) in
      (ctx, a ++ b)
    else (ctx, []) in
  let ctx :=
    if bool_decide (interlacing (desc param) = INTERLACED_MERGED)
       && negb (interlaced_dct param =? 0)
    then set_flags (Z.lor (flags ctx) AV_CODEC_FLAG_INTERLACED_DCT) ctx
    else ctx in
  let '(rc, blacklist_opts) :=
    match lavc_opts !! "rc" with
    | Some v => (v, {["rc"]} ∪ blacklist_opts)
    | None => (DEFAULT_QSV_RC, blacklist_opts)
    end in
  let '(c, ctx, e4) := configure_qsv_rc ctx rc in
  (c, ctx, blacklist_opts, e1 ++ e2 ++ e3 ++ e4).

End Tuner.

(* ===================================================================== *)
(** ** A concrete environment *)
(* ===================================================================== *)

(** Modelled from the spec: [video_desc_eq_excl_param(a, b,
    PARAM_TILE_COUNT)] (video.h, outside the embedded sources): two stream
    descriptions compared in every field except the tile count. *)
Definition desc_eq_excl_tile_count (a b : video_desc) : bool :=
  (width a =? width b) && (height a =? height b)
  && bool_decide (color_spec a = color_spec b)
  && (fps a =? fps b)%float
  && bool_decide (interlacing a = interlacing b).

Definition sample_pix_fmt_yuv420p : AVPixelFormat := 0.
Definition sample_pix_fmt_yuv422p : AVPixelFormat := 4.
Definition sample_pix_fmt_yuv444p : AVPixelFormat := 5.
Definition sample_pix_fmt_nv12 : AVPixelFormat := 23.

Definition sample_libx264 : AVCodec :=
  mk_AVCodec "libx264" AV_CODEC_ID_H264
             (Z.lor AV_CODEC_CAP_FRAME_THREADS (Z.lor AV_CODEC_CAP_SLICE_THREADS AV_CODEC_CAP_OTHER_THREADS))
             (Some [sample_pix_fmt_yuv420p; sample_pix_fmt_yuv422p; sample_pix_fmt_yuv444p]).

Definition sample_mjpeg : AVCodec :=
  mk_AVCodec "mjpeg" AV_CODEC_ID_MJPEG
             (Z.lor AV_CODEC_CAP_FRAME_THREADS AV_CODEC_CAP_SLICE_THREADS)
             (Some [sample_pix_fmt_yuv420p; sample_pix_fmt_yuv422p; sample_pix_fmt_yuv444p]).

Definition sample_h264_qsv : AVCodec :=
  mk_AVCodec "h264_qsv" AV_CODEC_ID_H264 0 (Some [sample_pix_fmt_nv12]).

(** A context as [avcodec_alloc_context3] hands it out. *)
Definition sample_context (enc : AVCodec) : AVCodecContext :=
  mk_AVCodecContext enc 0 (-1) (-1) 0 0 4000000 0 0 AV_PIX_FMT_NONE 0 1 ∅.

Definition sample_find_encoder_by_name (nm : string) : option AVCodec :=
  if String.eqb nm "libx264" then Some sample_libx264
  else if String.eqb nm "mjpeg" then Some sample_mjpeg
  else if String.eqb nm "h264_qsv" then Some sample_h264_qsv
  else None.

Definition sample_codec_from_name (nm : string) : codec_t :=
  if strcasecmp_eq nm "H.264" then H264
  else if strcasecmp_eq nm "H.265" then H265
  else if strcasecmp_eq nm "MJPEG" then MJPG
  else VIDEO_CODEC_NONE.

(** An environment in which the only encoders are [libx264], [mjpeg] and
    [h264_qsv]; an encoder opens unless asked for 4:4:4, and MJPEG is not
    installed as a default encoder. *)
#[local] Instance sample_collaborators : Collaborators := {|
  get_codec_from_name := sample_codec_from_name;
  unit_evaluate := fun str => match strtol10 str with Some (v, _) => v | None => -1 end;
  unit_evaluate_dbl := fun str => match strtol10 str with
                                  | Some (v, _) => CDouble.of_Z v
                                  | None => PrimFloat.nan
                                  end;
  atof := fun str => CDouble.of_Z (atoi str);
  get_commandline_param := fun _ => None;
  video_desc_eq_excl_tile_count := desc_eq_excl_tile_count;
  codec_is_a_rgb := fun _ => false;
  av_opt_accepts := fun _ _ _ => true;
  avcodec_find_encoder_by_name := sample_find_encoder_by_name;
  avcodec_find_encoder := fun _ => None;
  av_get_pix_fmt := fun _ => AV_PIX_FMT_NONE;
  get_available_pix_fmts := fun _ _ =>
    [sample_pix_fmt_yuv444p; sample_pix_fmt_yuv422p; sample_pix_fmt_yuv420p];
  AV_PIX_FMT_X2RGB10LE := None;
  pix_fmt_is_software := fun _ => true;
  open_backend := fun s fmt d ug enc =>
    mk_open_result
      (if fmt =? sample_pix_fmt_yuv444p then None
       else Some (set_pix_fmt fmt (sample_context enc)))
      fmt (hwenc s) (hwframe s) (params s) (blacklist_opts s);
  to_lavc_vid_conv_init := fun _ _ _ _ _ => true;
  have_swscale := false;
  AV_PIX_FMT_UYVY422 := 1;
  sws_getContext_ok := fun _ _ _ _ => false;
  av_frame_alloc_ok := true;
  av_image_alloc_ok := fun _ _ _ => true;
  pix_fmt_is_rgb := fun _ => false;
  hardware_concurrency := 8
|}.

Definition sample_desc : video_desc :=
  mk_video_desc 1920 1080 (OTHER_CODEC 2) 25%float PROGRESSIVE 1.

Definition sample_frame (d : video_desc) (total_ns : Z) : frame_io :=
  mk_frame_io d 0 true 0 0 [1000] 1000000 total_ns.

Definition sample_state : state := initial_state 8.

(* ===================================================================== *)
(** ** Definitions used to state the properties *)
(* ===================================================================== *)

(** The entries of a codec's format array, up to its terminator. *)
Fixpoint array_entries (arr : list AVPixelFormat) : list AVPixelFormat :=
  match arr with
  | [] => []
  | x :: rest => if x =? AV_PIX_FMT_NONE then [] else x :: array_entries rest
  end.

(** The negotiation rule in the words of the spec: the first element of
    the backend's list [B] that also occurs in the candidate list [C]. *)
Definition first_backend_format_in_candidates (B C : list AVPixelFormat) : AVPixelFormat :=
  match find (fun b => existsb (Z.eqb b) C) (array_entries B) with
  | Some b => b
  | None => AV_PIX_FMT_NONE
  end.

(** The formats of the trial opens in a trace, in order. *)
Fixpoint trial_fmts (evs : list event) : list AVPixelFormat :=
  match evs with
  | [] => []
  | EvTrialOpen f _ :: rest => f :: trial_fmts rest
  | _ :: rest => trial_fmts rest
  end.

(** The tokens [items] applied to the live state one after the other, as
    long as the loop of [parse_fmt] goes on: the state and the help flag
    after the last of them, [None] when one of them leaves the loop. *)
Fixpoint apply_items `{Collaborators} (s : state) (show_help : bool) (items : list string)
  : option (state * bool) :=
  match items with
  | [] => Some (s, show_help)
  | item :: rest =>
      match parse_item s show_help item with
      | Continue s' show_help' => apply_items s' show_help' rest
      | Stop _ _ => None
      end
  end.

(** The rate-control modes [configure_qsv_h264_hevc] knows: [help], and
    [cbr], [cqp], [icq], [qvbr], [vbr] in any letter case. *)
Definition qsv_rc_recognised (rc : string) : bool :=
  strcmp_eq rc "help"
  || existsb (strcasecmp_eq rc) ["cbr"; "cqp"; "icq"; "qvbr"; "vbr"].

(** A string with [toupper] applied to every character. *)
Fixpoint string_toupper (str : string) : string :=
  match str with
  | EmptyString => EmptyString
  | String c rest => String (toupper c) (string_toupper rest)
  end.

(** Events of the performance monitor, the only ones a frame that needs no
    reconfiguration can produce. *)
Definition is_perf_event (e : event) : Prop :=
  match e with
  | EvPerf _ => True
  | _ => False
  end.

(** [check_duration] called for one frame after the other, as
    [libavcodec_compress_tile] does; each frame is the pair of durations
    [(dur_pixfmt_change_ns, dur_total_ns)]. The run ends at a crash. *)
Fixpoint run_check_duration `{Collaborators} (s : state) (frames : list (Z * Z))
  : option crash * state * list event :=
  match frames with
  | [] => (None, s, [])
  | (pc, tot) :: rest =>
      match check_duration s pc tot with
      | (Some c, s', evs) => (Some c, s', evs)
      | (None, s', evs) =>
          let '(c, s'', evs') := run_check_duration s' rest in
          (c, s'', evs ++ evs')
      end
  end.

(** How often the monitor fired in a trace. *)
Fixpoint count_too_slow (evs : list event) : nat :=
  match evs with
  | [] => O
  | EvPerf TooSlow :: rest => S (count_too_slow rest)
  | _ :: rest => count_too_slow rest
  end.

(** One update of the moving average by a frame that took [tot] ns. *)
Definition mov_avg_step (avg : float) (tot : Z) : float :=
  ((avg * CDouble.of_Z (mov_window - 1) + CDouble.of_Z tot / NS_IN_SEC_DBL)
   / CDouble.of_Z mov_window)%float.

(** Frame rates, each with twice its per-frame budget in nanoseconds. *)
Definition twice_budget_scenarios : list (float * Z) :=
  [(24%float, 83333334); (25%float, 80000000); (30%float, 66666667);
   (50%float, 40000000); (60%float, 33333334)].

(* ===================================================================== *)
(** ** The rest of the embedded files *)
(* ===================================================================== *)

(** *** C [float] *)

(** IEEE binary32 values, as [spec_float]s of precision 24. *)
Module CFloat.

Definition prec32 : Z := 24.
Definition emax32 : Z := 128.

(** Integer to [float], rounded to nearest even. *)
Definition of_Z (z : Z) : spec_float := binary_normalize prec32 emax32 z 0 false.

Definition mul (x y : spec_float) : spec_float := SFmul prec32 emax32 x y.

(** [float] to [double]: every [float] is a [double]. *)
Definition to_double (x : spec_float) : float :=
  match x with
  | S754_finite s m e => SF2Prim (binary_normalize prec emax (if s then Zneg m else Zpos m) e s)
  | _ => SF2Prim x
  end.

(** The integral part of a finite [float]. *)
Definition trunc (x : spec_float) : option Z :=
  match x with
  | S754_zero _ => Some 0
  | S754_finite s m e =>
      let a := match e with
               | Z0 => Zpos m
               | Zpos p => Zpos m * 2 ^ Zpos p
               | Zneg p => Zpos m / 2 ^ Zpos p
               end in
      Some (if s then - a else a)
  | _ => None
  end.

(** [float] to [int]; out of range as for [CDouble.to_int]. *)
Definition to_int32 (x : spec_float) : Z :=
  match trunc x with
  | Some z => if (- 2 ^ 31 <=? z) && (z <? 2 ^ 31) then z else - 2 ^ 31
  | None => - 2 ^ 31
  end.

End CFloat.

(** *** Code outside the embedded files, continued *)

(** The fields of FFmpeg's [AVPixFmtDescriptor] that the sources read. *)
Record AVPixFmtDescriptor := mk_AVPixFmtDescriptor {
  log2_chroma_w : Z;
  log2_chroma_h : Z;
  pixdesc_flags : Z;          (* flags *)
  comp_0_depth : Z            (* comp[0].depth *)
}.

(** FFmpeg's flag bits (libavutil/pixdesc.h). *)
Definition AV_PIX_FMT_FLAG_HWACCEL : Z := 8.
Definition AV_PIX_FMT_FLAG_RGB : Z := 32.

(** [struct pixfmt_desc] (declared in UltraGrid's types.h, outside the
    embedded sources), with the fields [av_pixfmt_get_desc] assigns and
    [write_orig_format] reads: two [int]s and a [bool]. *)
Record pixfmt_desc := mk_pixfmt_desc {
  pd_depth : Z;               (* depth *)
  pd_rgb : bool;              (* rgb *)
  pd_subsampling : Z          (* subsampling *)
}.

(** Constants, macros and functions of headers outside the embedded files,
    and the switches of the build. *)
Class Platform := {
  (** debug.h: the values of [LOG_LEVEL_QUIET] and [LOG_LEVEL_NOTICE] *)
  log_level_quiet : Z;
  log_level_notice : Z;
  (** utils/macros.h: the macro [IF_NOT_UNDEF_ELSE(val, alt)] *)
  IF_NOT_UNDEF_ELSE : Z -> Z -> Z;
  (** video_codec: bits per colour component of a codec *)
  get_bits_per_component : codec_t -> Z;
  (** video_codec: [get_pixfmt_desc] *)
  get_pixfmt_desc : codec_t -> pixfmt_desc;
  (** FFmpeg: [av_pix_fmt_desc_get], [None] for NULL *)
  av_pix_fmt_desc_get : AVPixelFormat -> option AVPixFmtDescriptor;
  (** host.h: [cuda_devices[0]] *)
  cuda_devices_0 : Z;
  (** [std::stof]; [None] when it throws *)
  stof : string -> option spec_float;
  (** is the build one with PATCHED_FF_NVENC_NO_INFINITE_GOP? *)
  patched_ff : bool;
  (** LIBAVCODEC_VERSION_INT > AV_VERSION_INT(59, 21, 100) *)
  lavc_newer_than_59_21_100 : bool;
  (** FFmpeg: the registered codecs, in the order [av_codec_iterate] yields them *)
  av_codec_iterate : list AVCodec;
  av_codec_is_encoder : AVCodec -> bool;
  av_codec_is_decoder : AVCodec -> bool;
  (** utils/color_out.h *)
  TERM_BOLD : string;
  TERM_RESET : string;
  (** rtp/rtpenc_h264.h: the byte lists the macros expand to *)
  START_CODE_3B : list Z;
  H264_NAL_SEI_PREFIX : list Z;
  HEVC_NAL_SEI_PREFIX : list Z;
  UG_ORIG_FORMAT_ISO_IEC_11578_GUID : list Z
}.

(* ===================================================================== *)
(** *** libavcodec/lavc_common.c *)
(* ===================================================================== *)

(** The table [av_to_uv_map]. *)
Definition av_to_uv_map : list (AVCodecID * codec_t) :=
  [ (AV_CODEC_ID_H264, H264); (AV_CODEC_ID_HEVC, H265); (AV_CODEC_ID_MJPEG, MJPG);
    (AV_CODEC_ID_JPEG2000, J2K); (AV_CODEC_ID_VP8, VP8); (AV_CODEC_ID_VP9, VP9);
    (AV_CODEC_ID_HUFFYUV, HFYU); (AV_CODEC_ID_FFV1, FFV1); (AV_CODEC_ID_AV1, AV1);
    (AV_CODEC_ID_PRORES, PRORES) ].

(** [av_to_uv_log]: an FFmpeg log level as an UltraGrid one. The division
    is C's, rounding towards zero. *)
Definition av_to_uv_log (level : Z) : Z :=
  let level := Z.quot level 8 in
  if level <=? 0 then level + 1
  else if level <=? 3 then level
  else level + 1.

(** [av_log_filter(ff_module_name, fmt)]. *)
Definition av_log_filter (ff_module_name : option string) (fmt : string) : bool :=
  match ff_module_name with
  | Some nm => strcmp_eq nm "mjpeg" && contains "APP" fmt
  | None => false
  end.

Section LavcCommon.
Context `{Platform}.

(** [uv_to_av_log]: an UltraGrid log level as an FFmpeg one. *)
Definition uv_to_av_log (level : Z) : Z :=
  let level := wrap_int (level * 8) in
  if level =? 8 * log_level_quiet then wrap_int (level - 8)
  else if level <=? 8 * log_level_notice then level
  else wrap_int (level - 8).

(** [av_pixfmt_get_subsampling(fmt)]; the descriptor is dereferenced
    unchecked. *)
Definition av_pixfmt_get_subsampling (fmt : AVPixelFormat) : crash + Z :=
  match av_pix_fmt_desc_get fmt with
  | None => inl NullDereference
  | Some pd =>
      inr (if (log2_chroma_w pd =? 0) && (log2_chroma_h pd =? 0) then 4440
           else if (log2_chroma_w pd =? 1) && (log2_chroma_h pd =? 0) then 4220
           else if (log2_chroma_w pd =? 1) && (log2_chroma_h pd =? 1) then 4200
           else 0)
  end.

(** [av_pixfmt_get_desc(pixfmt)]. *)
Definition av_pixfmt_get_desc (pixfmt : AVPixelFormat) : crash + pixfmt_desc :=
  match av_pix_fmt_desc_get pixfmt with
  | None => inl NullDereference
  | Some avd =>
      match av_pixfmt_get_subsampling pixfmt with
      | inl c => inl c
      | inr subs =>
          inr (mk_pixfmt_desc (comp_0_depth avd)
                              (negb (Z.land (pixdesc_flags avd) AV_PIX_FMT_FLAG_RGB =? 0))
                              subs)
      end
  end.

(** [pixfmt_has_420_subsampling(fmt)]. *)
Definition pixfmt_has_420_subsampling (fmt : AVPixelFormat) : bool :=
  match av_pix_fmt_desc_get fmt with
  | None => false
  | Some fmt_desc => (log2_chroma_w fmt_desc =? 1) && (log2_chroma_h fmt_desc =? 1)
  end.

(** [pixfmt_list_has_420_subsampling(fmt)], over the array up to its
    terminator. *)
Fixpoint pixfmt_list_has_420_subsampling (fmt : list AVPixelFormat) : crash + bool :=
  match fmt with
  | [] => inr true
  | it :: rest =>
      if it =? AV_PIX_FMT_NONE then inr true
      else if pixfmt_has_420_subsampling it then pixfmt_list_has_420_subsampling rest
      else
        match av_pix_fmt_desc_get it with
        | None => inl NullDereference
        | Some fmt_desc =>
            if Z.land (pixdesc_flags fmt_desc) AV_PIX_FMT_FLAG_HWACCEL =? 0 then inr false
            else pixfmt_list_has_420_subsampling rest
        end
  end.

End LavcCommon.

(* ===================================================================== *)
(** *** The parameter tuner, in full *)
(* ===================================================================== *)

Definition DONT_SET_PRESET : string := "dont_set_preset".
Definition DEFAULT_X26X_RC_BUF_SIZE_FACTOR : float := 2.5%float.
Definition DEFAULT_AMF_USAGE : string := "lowlatency".
Definition DEFAULT_NVENC_PRESET : string := "p4".
Definition DEFAULT_NVENC_RC : string := "cbr".
Definition DEFAULT_NVENC_TUNE : string := "ull".
Definition FALLBACK_NVENC_PRESET : string := "llhq".
Definition DEFAULT_QSV_PRESET : string := "medium".

Definition MSG_J2K_EXPERIMENTAL : string := "J2K support is experimental and may be broken!".
Definition MSG_UNKNOWN_ENCODER : string :=
  "Warning: Unknown encoder. Using default configuration values.".
Definition MSG_UNABLE_TO_SET_OPTION : string := "Error: Unable to set option. Check command-line options.".
Definition MSG_NVENC_OLD_HEADERS : string :=
  "Possibly old libavcodec or compiled with old NVIDIA NVENC headers.".
Definition MSG_NVENC_NOT_PATCHED (enabling : bool) : string :=
  if enabling then "FFmpeg not patched, enabling Intra Refresh."
  else "FFmpeg not patched, not enabling Intra Refresh.".
Definition MSG_NVENC_PULSATION : string :=
  "To reduce NVENC pulsation, you can try --param lavc-rc-buffer-size-factor=0 or a small number. 0 or higher value (than default 1) may cause frame drops on receiver.".
Definition MSG_NO_PRESET_FOUND : string := "Warning: Unable to find suitable preset for encoder.".

(** The further fields of FFmpeg's [AVCodecContext] that the tuner
    assigns. [time_base] is the pair (numerator, denominator); [qcompress]
    is a C [float] whose two values here, 0.5 and 0, are exact. *)
Record AVCodecContextTail := mk_AVCodecContextTail {
  ctx_width : Z;                (* width *)
  ctx_height : Z;               (* height *)
  time_base : Z * Z;
  gop_size : Z;
  max_b_frames : Z;
  bits_per_raw_sample : Z;
  ctx_slices : Z;               (* slices *)
  rc_buffer_size : Z;
  qcompress : float;
  max_qdiff : Z;
  refs : Z
}.

Definition set_ctx_width v (c : AVCodecContextTail) : AVCodecContextTail :=
  mk_AVCodecContextTail v (ctx_height c) (time_base c) (gop_size c) (max_b_frames c)
    (bits_per_raw_sample c) (ctx_slices c) (rc_buffer_size c) (qcompress c) (max_qdiff c)
    (refs c).
Definition set_ctx_height v (c : AVCodecContextTail) : AVCodecContextTail :=
  mk_AVCodecContextTail (ctx_width c) v (time_base c) (gop_size c) (max_b_frames c)
    (bits_per_raw_sample c) (ctx_slices c) (rc_buffer_size c) (qcompress c) (max_qdiff c)
    (refs c).
Definition set_time_base v (c : AVCodecContextTail) : AVCodecContextTail :=
  mk_AVCodecContextTail (ctx_width c) (ctx_height c) v (gop_size c) (max_b_frames c)
    (bits_per_raw_sample c) (ctx_slices c) (rc_buffer_size c) (qcompress c) (max_qdiff c)
    (refs c).
Definition set_gop_size v (c : AVCodecContextTail) : AVCodecContextTail :=
  mk_AVCodecContextTail (ctx_width c) (ctx_height c) (time_base c) v (max_b_frames c)
    (bits_per_raw_sample c) (ctx_slices c) (rc_buffer_size c) (qcompress c) (max_qdiff c)
    (refs c).
Definition set_max_b_frames v (c : AVCodecContextTail) : AVCodecContextTail :=
  mk_AVCodecContextTail (ctx_width c) (ctx_height c) (time_base c) (gop_size c) v
    (bits_per_raw_sample c) (ctx_slices c) (rc_buffer_size c) (qcompress c) (max_qdiff c)
    (refs c).
Definition set_bits_per_raw_sample v (c : AVCodecContextTail) : AVCodecContextTail :=
  mk_AVCodecContextTail (ctx_width c) (ctx_height c) (time_base c) (gop_size c)
    (max_b_frames c) v (ctx_slices c) (rc_buffer_size c) (qcompress c) (max_qdiff c)
    (refs c).
Definition set_ctx_slices v (c : AVCodecContextTail) : AVCodecContextTail :=
  mk_AVCodecContextTail (ctx_width c) (ctx_height c) (time_base c) (gop_size c)
    (max_b_frames c) (bits_per_raw_sample c) v (rc_buffer_size c) (qcompress c)
    (max_qdiff c) (refs c).
Definition set_rc_buffer_size v (c : AVCodecContextTail) : AVCodecContextTail :=
  mk_AVCodecContextTail (ctx_width c) (ctx_height c) (time_base c) (gop_size c)
    (max_b_frames c) (bits_per_raw_sample c) (ctx_slices c) v (qcompress c) (max_qdiff c)
    (refs c).
Definition set_qcompress v (c : AVCodecContextTail) : AVCodecContextTail :=
  mk_AVCodecContextTail (ctx_width c) (ctx_height c) (time_base c) (gop_size c)
    (max_b_frames c) (bits_per_raw_sample c) (ctx_slices c) (rc_buffer_size c) v
    (max_qdiff c) (refs c).
Definition set_max_qdiff v (c : AVCodecContextTail) : AVCodecContextTail :=
  mk_AVCodecContextTail (ctx_width c) (ctx_height c) (time_base c) (gop_size c)
    (max_b_frames c) (bits_per_raw_sample c) (ctx_slices c) (rc_buffer_size c)
    (qcompress c) v (refs c).
Definition set_refs v (c : AVCodecContextTail) : AVCodecContextTail :=
  mk_AVCodecContextTail (ctx_width c) (ctx_height c) (time_base c) (gop_size c)
    (max_b_frames c) (bits_per_raw_sample c) (ctx_slices c) (rc_buffer_size c)
    (qcompress c) (max_qdiff c) v.

(** What the functions of the tuner work on: the codec context ([t_ctx]
    with [t_tail]), [struct setparam_param] and the blacklist its reference
    aliases. The user's options, which they only read, are passed along. *)
Record tuning := mk_tuning {
  t_ctx : AVCodecContext;
  t_tail : AVCodecContextTail;
  t_param : setparam_param;
  t_blacklist : gset string
}.

(** The tuner's functions as state transformers that log events and may
    stop the process. *)
Definition tuner (A : Type) : Type := tuning -> (crash + A) * tuning * list event.

Definition tuner_ret {A} (a : A) : tuner A := fun t => (inr a, t, []).

Definition tuner_bind {A B} (m : tuner A) (k : A -> tuner B) : tuner B :=
  fun t =>
    match m t with
    | (inl c, t', evs) => (inl c, t', evs)
    | (inr a, t', evs) => let '(r, t'', evs') := k a t' in (r, t'', evs ++ evs')
    end.

Declare Scope tuner_scope.
Delimit Scope tuner_scope with tuner.
Notation "x <- m ;; k" := (tuner_bind m (fun x => k))
  (at level 20, m at level 99, k at level 200, only parsing) : tuner_scope.
Notation "m ;; k" := (tuner_bind m (fun _ => k))
  (at level 100, k at level 200, only parsing, right associativity) : tuner_scope.

Definition tuner_get : tuner tuning := fun t => (inr t, t, []).
Definition tuner_emit (e : event) : tuner unit := fun t => (inr tt, t, [e]).
Definition tuner_stop {A} (c : crash) : tuner A := fun t => (inl c, t, []).
Definition modify_ctx (f : AVCodecContext -> AVCodecContext) : tuner unit :=
  fun t => (inr tt, mk_tuning (f (t_ctx t)) (t_tail t) (t_param t) (t_blacklist t), []).
Definition modify_tail (f : AVCodecContextTail -> AVCodecContextTail) : tuner unit :=
  fun t => (inr tt, mk_tuning (t_ctx t) (f (t_tail t)) (t_param t) (t_blacklist t), []).
Definition modify_param (f : setparam_param -> setparam_param) : tuner unit :=
  fun t => (inr tt, mk_tuning (t_ctx t) (t_tail t) (f (t_param t)) (t_blacklist t), []).
Definition blacklist_insert (key : string) : tuner unit :=
  fun t => (inr tt, mk_tuning (t_ctx t) (t_tail t) (t_param t) ({[key]} ∪ t_blacklist t), []).
Definition tuner_when (b : bool) (m : tuner unit) : tuner unit :=
  if b then m else tuner_ret tt.

(** [x265_params_append(key, val)] of [configure_x264_x265]: nothing is
    added when [key] occurs anywhere in the parameters. *)
Definition x265_params_append (key val x265_params : string) : string :=
  if contains key x265_params then x265_params
  else x265_params ++ (if String.eqb x265_params "" then "" else ":") ++ key ++ "=" ++ val.

(** [std::to_string(int)]. *)
Definition to_string (z : Z) : string := pretty z.

(** [std::map] iterates in the order of its keys. *)
Definition in_key_order (m : gmap string string) : list (string * string) :=
  merge_sort (fun a b : string * string => String.leb (a.1) (b.1)) (map_to_list m).

(** [get_h264_h265_preset(enc_name, width, height, fps)]. *)
Definition get_h264_h265_preset (enc_name : string) (w h : Z) (fps : float) : string :=
  if String.eqb enc_name "libx264" || String.eqb enc_name "libx264rgb" then
    if (w <=? 1920) && (h <=? 1080) && (fps <=? 30)%float then "veryfast" else "ultrafast"
  else if String.eqb enc_name "libx265" then "ultrafast"
  else if regex_match_any_then "_amf" enc_name then DONT_SET_PRESET
  else if regex_match_any_then_any "nvenc" enc_name then DONT_SET_PRESET
  else if regex_match_any_then "_qsv" enc_name then DEFAULT_QSV_PRESET
  else if regex_match_any_then "_vaapi" enc_name then DONT_SET_PRESET
  else "".

(** [get_av1_preset(enc_name, width, height, fps)]. *)
Definition get_av1_preset (enc_name : string) (w h : Z) (fps : float) : string :=
  if String.eqb enc_name "libsvtav1" then
    if (w <=? 1920) && (h <=? 1080) && (fps <=? 30)%float then "9" else "11"
  else "".

Section FullTuner.
Context `{Collaborators} `{Platform}.

#[local] Open Scope tuner_scope.

(** [check_av_opt_set<T>(codec_ctx->priv_data, key, val)] on the context
    being tuned; a bare [av_opt_set] has the same effect. *)
Definition opt_set (key : string) (val : opt_val) : tuner bool :=
  fun t =>
    let '(ok, ctx, evs) := check_av_opt_set (t_ctx t) key val in
    (inr ok, mk_tuning ctx (t_tail t) (t_param t) (t_blacklist t), evs).

Definition opt_set_ (key : string) (val : opt_val) : tuner unit :=
  opt_set key val ;; tuner_ret tt.

(** [stof(val)] of the parameter [lavc-rc-buffer-size-factor], when the
    parameter is given. *)
Definition rc_buffer_size_factor : tuner (option spec_float) :=
  match get_commandline_param "lavc-rc-buffer-size-factor" with
  | Some val =>
      match stof val with
      | Some f => tuner_ret (Some f)
      | None => tuner_stop (UncaughtException "stof")
      end
  | None => tuner_ret None
  end.

(** [codec_ctx->flags |= AV_CODEC_FLAG_INTERLACED_DCT]. *)
Definition set_interlaced_dct_flag : tuner unit :=
  modify_ctx (fun c => set_flags (Z.lor (flags c) AV_CODEC_FLAG_INTERLACED_DCT) c).

(** [setparam_default]. *)
Definition setparam_default : tuner unit :=
  t <- tuner_get ;;
  tuner_when (bool_decide (id (codec (t_ctx t)) = AV_CODEC_ID_JPEG2000))
             (tuner_emit (EvLog LOG_LEVEL_WARNING MSG_J2K_EXPERIMENTAL)).

(** [setparam_jpeg]. *)
Definition setparam_jpeg : tuner unit :=
  t <- tuner_get ;;
  let nm := name (codec (t_ctx t)) in
  tuner_when (strcmp_eq nm "mjpeg") (opt_set_ "huffman" (OptStr "default")) ;;
  tuner_when (strcmp_eq nm "mjpeg_qsv") (opt_set_ "async_depth" (OptInt 1)).

(** [configure_amf]. *)
Definition configure_amf : tuner unit :=
  opt_set_ "usage" (OptStr DEFAULT_AMF_USAGE) ;;
  t <- tuner_get ;;
  let nm := name (codec (t_ctx t)) in
  if String.eqb "hevc_amf" nm then opt_set_ "header_insertion_mode" (OptStr "gop")
  else if String.eqb "h264_amf" nm then opt_set_ "header_spacing" (OptInt 1)
  else tuner_ret tt.

(** [configure_x264_x265]. [AV_CODEC_ID_H265] is FFmpeg's other name of
    [AV_CODEC_ID_HEVC]. *)
Definition configure_x264_x265 (lavc_opts : gmap string string) : tuner unit :=
  t <- tuner_get ;;
  let enc := codec (t_ctx t) in
  let tune := if bool_decide (id enc = AV_CODEC_ID_H264)
              then "zerolatency,fastdecode" else "zerolatency" in
  opt_set_ "tune" (OptStr tune) ;;
  modify_ctx (fun c => set_rc_max_rate (bit_rate c) c) ;;
  val <- rc_buffer_size_factor ;;
  let lavc_rc_buffer_size_factor :=
    match val with
    | Some f => CFloat.to_double f
    | None => DEFAULT_X26X_RC_BUF_SIZE_FACTOR
    end in
  t <- tuner_get ;;
  modify_tail (set_rc_buffer_size
                 (CDouble.to_int32 (CDouble.of_Z (rc_max_rate (t_ctx t)) / fps (desc (t_param t))
                                    * lavc_rc_buffer_size_factor)%float)) ;;
  modify_tail (set_qcompress (if bool_decide (id enc = AV_CODEC_ID_HEVC)
                              then 0.5%float else 0%float)) ;;
  modify_ctx (fun c => set_qmin (IF_NOT_UNDEF_ELSE (qmin c) 0) c) ;;
  modify_ctx (fun c => set_qmax (IF_NOT_UNDEF_ELSE (qmax c) 69) c) ;;
  modify_tail (set_max_qdiff 69) ;;
  t <- tuner_get ;;
  tuner_when (bool_decide (interlacing (desc (t_param t)) = INTERLACED_MERGED)
              && negb (interlaced_dct (t_param t) =? 0))
             set_interlaced_dct_flag ;;
  x265_params <- match lavc_opts !! "x265-params" with
                 | Some v => blacklist_insert "x265-params" ;; tuner_ret v
                 | None => tuner_ret ""
                 end ;;
  t <- tuner_get ;;
  let x265_params := x265_params_append "keyint" (to_string (gop_size (t_tail t))) x265_params in
  x265_params <-
    (if negb (periodic_intra (t_param t) =? 0) then
       modify_tail (set_refs 1) ;;
       if String.eqb "libx264" (name enc) || String.eqb "libx264rgb" (name enc) then
         opt_set_ "intra-refresh" (OptStr "1") ;; tuner_ret x265_params
       else if String.eqb "libx265" (name enc) then
         tuner_ret (x265_params_append "no-open-gop" "1"
                      (x265_params_append "constrained-intra" "1"
                         (x265_params_append "intra-refresh" "1" x265_params)))
       else tuner_ret x265_params
     else tuner_ret x265_params) ;;
  tuner_when (String.eqb "libx265" (name enc))
             (opt_set_ "x265-params" (OptStr x265_params)).

(** [configure_vaapi]. *)
Definition configure_vaapi : tuner unit :=
  modify_param (set_thread_mode "no").

(** [set_forced_idr(codec_ctx, value)]: the option's value is the one
    character ['0' + value]. *)
Definition set_forced_idr (value : Z) : tuner unit :=
  if negb (value <=? 9) then tuner_stop AssertionFailure
  else
    let c := (48 + value) mod 256 in
    opt_set_ "forced-idr" (OptStr (if c =? 0 then "" else String (chr c) "")).

(** [configure_nvenc]. The multiplication of [rc_buffer_size] by the
    factor is done in [float]. *)
Definition configure_nvenc : tuner unit :=
  ok <- opt_set "tune" (OptStr DEFAULT_NVENC_TUNE) ;;
  tuner_when (negb ok) (tuner_emit (EvLog LOG_LEVEL_WARNING MSG_NVENC_OLD_HEADERS)) ;;
  let preset := if ok then DEFAULT_NVENC_PRESET else FALLBACK_NVENC_PRESET in
  t <- tuner_get ;;
  tuner_when (negb (have_preset (t_param t))) (opt_set_ "preset" (OptStr preset)) ;;
  set_forced_idr 1 ;;
  tuner_when (negb patched_ff && negb (periodic_intra (t_param t) =? 0))
             (tuner_emit (EvLog LOG_LEVEL_WARNING
                                (MSG_NVENC_NOT_PATCHED (periodic_intra (t_param t) =? 1)))) ;;
  tuner_when ((patched_ff && negb (periodic_intra (t_param t) =? 0))
              || (periodic_intra (t_param t) =? 1))
             (opt_set_ "intra-refresh" (OptInt 1)) ;;
  opt_set_ "rc" (OptStr DEFAULT_NVENC_RC) ;;
  opt_set_ "spatial_aq" (OptInt 0) ;;
  opt_set_ "gpu" (OptInt cuda_devices_0) ;;
  opt_set_ "delay" (OptInt 0) ;;
  opt_set_ "zerolatency" (OptInt 1) ;;
  opt_set_ "b_ref_mode" (OptStr "disabled") ;;
  modify_ctx (fun c => set_rc_max_rate (bit_rate c) c) ;;
  t <- tuner_get ;;
  modify_tail (set_rc_buffer_size
                 (CDouble.to_int32 (CDouble.of_Z (rc_max_rate (t_ctx t))
                                    / fps (desc (t_param t)))%float)) ;;
  val <- rc_buffer_size_factor ;;
  match val with
  | Some f =>
      modify_tail (fun c => set_rc_buffer_size
                              (CFloat.to_int32 (CFloat.mul (CFloat.of_Z (rc_buffer_size c)) f)) c)
  | None => tuner_emit (EvLog LOG_LEVEL_WARNING MSG_NVENC_PULSATION)
  end ;;
  t <- tuner_get ;;
  tuner_when (bool_decide (interlacing (desc (t_param t)) = INTERLACED_MERGED)
              && (interlaced_dct (t_param t) =? 1))
             set_interlaced_dct_flag.

(** [configure_svt]. *)
Definition configure_svt : tuner unit :=
  t <- tuner_get ;;
  let nm := name (codec (t_ctx t)) in
  set_forced_idr (if strcmp_eq nm "libsvt_hevc" then 0 else 1) ;;
  if String.eqb "libsvt_hevc" nm then
    opt_set_ "la_depth" (OptInt 0) ;;
    opt_set_ "pred_struct" (OptInt 0) ;;
    let w := width (desc (t_param t)) in
    let h := height (desc (t_param t)) in
    let tile_col_cnt := if 1024 <=? w then 4 else if 512 <=? w then 2 else 1 in
    let tile_row_cnt := if 256 <=? h then 4 else if 128 <=? h then 2 else 1 in
    tuner_when ((1 <? tile_col_cnt * tile_row_cnt) && (256 <=? w) && (64 <=? h))
               (opt_set_ "tile_row_cnt" (OptInt tile_row_cnt) ;;
                opt_set_ "tile_col_cnt" (OptInt tile_col_cnt) ;;
                opt_set_ "tile_slice_mode" (OptInt 1) ;;
                opt_set_ "umv" (OptInt 0))
  else if String.eqb "libsvtav1" nm then
    if lavc_newer_than_59_21_100 then
      opt_set_ "svtav1-params" (OptStr "pred-struct=1:tile-columns=2:tile-rows=2")
    else
      opt_set_ "tile_columns" (OptInt 2) ;;
      opt_set_ "tile_rows" (OptInt 2)
  else tuner_ret tt.

(** [configure_qsv_h264_hevc] on the state of the tuner. *)
Definition configure_qsv : gmap string string -> tuner unit :=
  fun lavc_opts t =>
    let '(c, ctx, blacklist, evs) :=
      configure_qsv_h264_hevc (t_ctx t) (t_param t) lavc_opts (t_blacklist t) in
    (match c with
     | Some c => inl c
     | None => inr tt
     end,
     mk_tuning ctx (t_tail t) (t_param t) blacklist, evs).

(** [setparam_h264_h265_av1]: the family of the encoder is read off its
    name, first match first. *)
Definition setparam_h264_h265_av1 (lavc_opts : gmap string string) : tuner unit :=
  t <- tuner_get ;;
  let nm := name (codec (t_ctx t)) in
  if regex_match_any_then "_amf" nm then configure_amf
  else if regex_match_any_then "_vaapi" nm then configure_vaapi
  else if starts_with "libx264" nm || strcmp_eq nm "libx265" then configure_x264_x265 lavc_opts
  else if regex_match_any_then_any "nvenc" nm then configure_nvenc
  else if strcmp_eq nm "h264_qsv" || strcmp_eq nm "hevc_qsv" then configure_qsv lavc_opts
  else if starts_with "libsvt" nm then configure_svt
  else tuner_emit (EvLog LOG_LEVEL_WARNING MSG_UNKNOWN_ENCODER).

(** [setparam_vp8_vp9]. *)
Definition setparam_vp8_vp9 : tuner unit :=
  t <- tuner_get ;;
  modify_tail (set_rc_buffer_size
                 (CDouble.to_int32 (CDouble.of_Z (bit_rate (t_ctx t))
                                    / fps (desc (t_param t)))%float)) ;;
  opt_set_ "deadline" (OptStr "realtime") ;;
  opt_set_ "cpu-used" (OptInt 8) ;;
  opt_set_ "rc_lookahead" (OptInt 0).

(** The function pointers [get_preset] and [set_param] of the registry
    [codec_params]; [None] is a null pointer, also for a codec without an
    entry. *)
Definition codec_params_get_preset (c : codec_t)
  : option (string -> Z -> Z -> float -> string) :=
  match c with
  | H264 | H265 => Some get_h264_h265_preset
  | AV1 => Some get_av1_preset
  | _ => None
  end.

Definition codec_params_set_param (c : codec_t)
  : option (gmap string string -> tuner unit) :=
  match c with
  | H264 | H265 | AV1 => Some setparam_h264_h265_av1
  | MJPG => Some (fun _ => setparam_jpeg)
  | J2K | HFYU | FFV1 | PRORES => Some (fun _ => setparam_default)
  | VP8 | VP9 => Some (fun _ => setparam_vp8_vp9)
  | _ => None
  end.

(** [set_codec_thread_mode] on the state of the tuner. *)
Definition thread_mode_step : tuner unit :=
  fun t =>
    let '(c, ctx, evs) := set_codec_thread_mode (t_ctx t) (t_param t) in
    (match c with
     | Some c => inl c
     | None => inr tt
     end,
     mk_tuning ctx (t_tail t) (t_param t) (t_blacklist t), evs).

(** The preset block of [set_codec_ctx_params] (lines 779-793). *)
Definition preset_step (d : video_desc) (ug_codec : codec_t) : tuner unit :=
  t <- tuner_get ;;
  tuner_when (negb (have_preset (t_param t)))
    (let get_preset := codec_params_get_preset ug_codec in
     let preset := match get_preset with
                   | Some f => f (name (codec (t_ctx t))) (wrap_int (width d))
                                 (wrap_int (height d)) (fps d)
                   | None => ""
                   end in
     tuner_when (negb (String.eqb preset "") && negb (String.eqb preset DONT_SET_PRESET))
                (opt_set_ "preset" (OptStr preset)) ;;
     tuner_when (bool_decide (is_Some get_preset) && String.eqb preset "")
                (tuner_emit (EvLog LOG_LEVEL_WARNING MSG_NO_PRESET_FOUND))).

(** The loop over the user's options at the end of [set_codec_ctx_params]:
    [false] at the first option the encoder refuses. *)
Fixpoint set_user_options (opts : list (string * string)) : tuner bool :=
  match opts with
  | [] => tuner_ret true
  | (key, val) :: rest =>
      t <- tuner_get ;;
      if bool_decide (key ∈ t_blacklist t) then set_user_options rest
      else
        ok <- opt_set key (OptStr val) ;;
        if ok then set_user_options rest
        else tuner_emit (EvLog LOG_LEVEL_WARNING MSG_UNABLE_TO_SET_OPTION) ;; tuner_ret false
  end.

(** What [set_codec_ctx_params] does after the quality policy (lines
    765-807). The context's [codec_id] is the id of the encoder it was
    allocated for. *)
Definition set_codec_ctx_params_rest (s : state) (pix_fmt : AVPixelFormat) (d : video_desc)
    (ug_codec : codec_t) : tuner bool :=
  modify_tail (set_ctx_width (wrap_int (width d))) ;;
  modify_tail (set_ctx_height (wrap_int (height d))) ;;
  modify_tail (set_time_base (1, CDouble.to_int32 (fps d))) ;;
  modify_tail (set_gop_size (requested_gop s)) ;;
  modify_tail (set_max_b_frames 0) ;;
  modify_ctx (set_pix_fmt pix_fmt) ;;
  match av_pix_fmt_desc_get pix_fmt with
  | None => tuner_stop NullDereference
  | Some pd =>
      modify_tail (set_bits_per_raw_sample
                     (Z.min (wrap_int (get_bits_per_component ug_codec)) (comp_0_depth pd)))
  end ;;
  match codec_params_set_param ug_codec with
  | None => tuner_stop NullDereference
  | Some set_param => set_param (lavc_opts s)
  end ;;
  thread_mode_step ;;
  t <- tuner_get ;;
  modify_tail (set_ctx_slices
                 (IF_NOT_UNDEF_ELSE (slices (t_param t))
                    (if bool_decide (id (codec (t_ctx t)) = AV_CODEC_ID_FFV1)
                     then 16 else DEFAULT_SLICE_COUNT))) ;;
  preset_step d ug_codec ;;
  set_user_options (in_key_order (lavc_opts s)).

(** [set_codec_ctx_params(s, pix_fmt, desc, ug_codec)], on the context
    [ctx] with [tail] that [try_open_codec] has allocated: its return value
    (or the way the process stopped), the state, the context and the
    events. *)
Definition set_codec_ctx_params (s : state) (ctx : AVCodecContext) (tail : AVCodecContextTail)
    (pix_fmt : AVPixelFormat) (d : video_desc) (ug_codec : codec_t)
  : (crash + bool) * state * tuning * list event :=
  let '(s, ctx, ev0) := set_codec_ctx_params_quality s ctx d ug_codec in
  let '(r, t, ev1) :=
    set_codec_ctx_params_rest s pix_fmt d ug_codec
      (mk_tuning ctx tail (params s) (blacklist_opts s)) in
  (r, set_blacklist_opts (t_blacklist t) (set_params (t_param t) s), t, ev0 ++ ev1).

End FullTuner.

(* ===================================================================== *)
(** *** Other functions of libavcodec.cpp *)
(* ===================================================================== *)

(** [strlen]. *)
Definition strlen (s : string) : Z := Z.of_nat (String.length s).

(** The first [n] characters of [s] (all of it when it is shorter). *)
Fixpoint take_chars (n : Z) (s : string) : string :=
  match s with
  | EmptyString => EmptyString
  | String c rest => if n <=? 0 then EmptyString else String c (take_chars (n - 1) rest)
  end.

(** [strncat(buf, src, n)]: at most [n] characters of [src] go behind
    [buf]. *)
Definition strncat (buf src : string) (n : Z) : string := buf ++ take_chars n src.

(** [libavcodec_compress_init] hands back a module, [INIT_NOERR] (nothing to
    run, no error) or NULL. *)
Inductive init_result :=
| InitModule (s : state)
| INIT_NOERR
| InitNULL
| InitCrashed (c : crash).

Section OtherFunctions.
Context `{Collaborators} `{Platform}.

(** [get_codec_encoders_decoders(id)] with an FFmpeg newer than 58.9.100,
    where it walks [av_codec_iterate]: the names of the encoders and of
    the decoders of the codec. *)
Definition get_codec_encoders_decoders (cid : AVCodecID) : list string * list string :=
  (map name (filter (fun c => av_codec_is_encoder c && bool_decide (id c = cid)) av_codec_iterate),
   map name (filter (fun c => av_codec_is_decoder c && bool_decide (id c = cid)) av_codec_iterate)).

(** [strncat(buf, src, buflen - strlen(buf) - 1)], the one way
    [get_codec_details] writes to its buffer; the length is a [size_t]. *)
Definition details_cat (buflen : Z) (buf src : string) : string :=
  strncat buf src (wrap_size_t (buflen - strlen buf - 1)).

(** The loops of [get_codec_details] over the names. *)
Definition details_cat_names (buflen : Z) (buf : string) (names : list string) : string :=
  fold_left (fun buf nm => details_cat buflen (details_cat buflen buf " ") nm) names buf.

(** [get_codec_details(id, buf, buflen)]: the text it leaves in [buf]. *)
Definition get_codec_details (cid : AVCodecID) (buflen : Z) : crash + string :=
  let '(encoders, decoders) := get_codec_encoders_decoders cid in
  if negb (0 <? buflen) then inl AssertionFailure
  else
    let buf := "" in
    match encoders, decoders with
    | [], [] => inr buf
    | _, _ =>
        let buf := details_cat buflen buf " (" in
        let buf :=
          match encoders with
          | [] => buf
          | _ => details_cat_names buflen
                   (details_cat buflen buf (TERM_BOLD ++ "encoders:" ++ TERM_RESET)) encoders
          end in
        let buf :=
          match decoders with
          | [] => buf
          | _ =>
              let buf := match encoders with
                         | [] => buf
                         | _ => details_cat buflen buf "; "
                         end in
              details_cat_names buflen
                (details_cat buflen buf (TERM_BOLD ++ "decoders:" ++ TERM_RESET)) decoders
          end in
        inr (details_cat buflen buf ")")
    end.

(** [libavcodec_compress_init(parent, opts)]; the set-up of FFmpeg's
    logging is left out. [conv_threads] is what the constructor of the
    state reads off the machine. *)
Definition libavcodec_compress_init (conv_threads : Z) (opts : string) : init_result :=
  match parse_fmt (initial_state conv_threads) (Some opts) with
  | (Returned ret, s) =>
      if negb (ret =? 0) then (if 0 <? ret then INIT_NOERR else InitNULL)
      else InitModule s
  | (Crashed c, _) => InitCrashed c
  end.

(** The byte [format] of [write_orig_format]: bit depth, subsampling and
    colour model of the original pixel format, packed. *)
Definition orig_format_byte (desc : pixfmt_desc) : Z :=
  let subs_a := wrap_uint (Z.rem (Z.quot (pd_subsampling desc) 100) 10) in
  let subs_b := wrap_uint (Z.rem (Z.quot (pd_subsampling desc) 10) 10) in
  let subs_v := wrap_uint (subs_a - 1) in
  let subs_h := if subs_b =? 0 then 0 else 1 in
  let rgb := if pd_rgb desc then 1 else 0 in
  Z.lor (Z.lor (Z.lor (wrap_uint (Z.shiftl (Z.quot (wrap_int (pd_depth desc - 8)) 2) 4))
                      (wrap_uint (Z.shiftl subs_v 2)))
               (wrap_uint (Z.shiftl subs_h 1)))
        rgb
  mod 256.

(** [write_orig_format(compressed_frame, orig_pixfmt)]: the bytes of the
    compressed frame of colour format [color_spec] after it. The error it
    logs once per process for other streams than H.264 and HEVC is left
    out. *)
Definition write_orig_format (data : list Z) (color_spec orig_pixfmt : codec_t) : list Z :=
  if negb (bool_decide (color_spec = H264)) && negb (bool_decide (color_spec = H265)) then data
  else
    let sei_nal_prefix :=
      START_CODE_3B
      ++ (if bool_decide (color_spec = H264) then H264_NAL_SEI_PREFIX else HEVC_NAL_SEI_PREFIX)
      ++ [(Z.of_nat (length UG_ORIG_FORMAT_ISO_IEC_11578_GUID) + 1) mod 256]
      ++ UG_ORIG_FORMAT_ISO_IEC_11578_GUID in
    data ++ sei_nal_prefix ++ [orig_format_byte (get_pixfmt_desc orig_pixfmt); 128].

End OtherFunctions.

(* ===================================================================== *)
(** *** A concrete platform *)
(* ===================================================================== *)

Definition sample_pix_fmt_desc (fmt : AVPixelFormat) : option AVPixFmtDescriptor :=
  if fmt =? sample_pix_fmt_yuv420p then Some (mk_AVPixFmtDescriptor 1 1 0 8)
  else if fmt =? sample_pix_fmt_yuv422p then Some (mk_AVPixFmtDescriptor 1 0 0 8)
  else if fmt =? sample_pix_fmt_yuv444p then Some (mk_AVPixFmtDescriptor 0 0 0 8)
  else if fmt =? sample_pix_fmt_nv12 then Some (mk_AVPixFmtDescriptor 1 1 0 8)
  else None.

Definition sample_libx265 : AVCodec :=
  mk_AVCodec "libx265" AV_CODEC_ID_HEVC AV_CODEC_CAP_OTHER_THREADS
             (Some [sample_pix_fmt_yuv420p; sample_pix_fmt_yuv422p; sample_pix_fmt_yuv444p]).

Definition sample_h264_vaapi : AVCodec :=
  mk_AVCodec "h264_vaapi" AV_CODEC_ID_H264 0 (Some [sample_pix_fmt_nv12]).

(** A platform with UltraGrid's log levels 0 (quiet) to 8, -1 as the
    undefined value of [IF_NOT_UNDEF_ELSE], 8-bit formats, three registered
    encoders and no decoder. *)
#[local] Instance sample_platform : Platform := {|
  log_level_quiet := 0;
  log_level_notice := 4;
  IF_NOT_UNDEF_ELSE := fun val alt => if val =? -1 then alt else val;
  get_bits_per_component := fun _ => 8;
  get_pixfmt_desc := fun _ => mk_pixfmt_desc 10 false 4220;
  av_pix_fmt_desc_get := sample_pix_fmt_desc;
  cuda_devices_0 := 0;
  stof := fun _ => None;
  patched_ff := false;
  lavc_newer_than_59_21_100 := true;
  av_codec_iterate := [sample_libx264; sample_mjpeg; sample_h264_qsv];
  av_codec_is_encoder := fun _ => true;
  av_codec_is_decoder := fun _ => false;
  TERM_BOLD := "<b>";
  TERM_RESET := "</b>";
  START_CODE_3B := [0; 0; 1];
  H264_NAL_SEI_PREFIX := [6; 5];
  HEVC_NAL_SEI_PREFIX := [78; 1; 5];
  UG_ORIG_FORMAT_ISO_IEC_11578_GUID := [1; 2; 3; 4; 5; 6; 7; 8; 9; 10; 11; 12; 13; 14; 15; 16]
|}.

(** A context tail as [avcodec_alloc_context3] hands it out. *)
Definition sample_tail : AVCodecContextTail :=
  mk_AVCodecContextTail 0 0 (0, 1) 12 0 0 0 0 0.5%float 3 (-1).

(* ===================================================================== *)
(** *** Definitions used to state the further properties *)
(* ===================================================================== *)

(** What [pixfmt_list_has_420_subsampling] asks of a format. *)
Definition is_420_or_hwaccel `{Platform} (fmt : AVPixelFormat) : bool :=
  match av_pix_fmt_desc_get fmt with
  | Some pd =>
      ((log2_chroma_w pd =? 1) && (log2_chroma_h pd =? 1))
      || negb (Z.land (pixdesc_flags pd) AV_PIX_FMT_FLAG_HWACCEL =? 0)
  | None => false
  end.

(** Is the parameter [lavc-use-codec] the word [help]? *)
Definition use_codec_help `{Collaborators} : bool :=
  match get_commandline_param "lavc-use-codec" with
  | Some v => String.eqb v "help"
  | None => false
  end.

(** The tokens of a configuration string, as the loop of [parse_fmt] sees
    them. *)
Definition config_tokens (cfg : string) : list string :=
  strtok_all ":" (escape_colons cfg).



(** An encoder that advertises no list of pixel formats ([pix_fmts] is
    NULL). *)
Definition sample_encoder_without_formats : AVCodec :=
  mk_AVCodec "libx264" AV_CODEC_ID_H264 0 None.

(** The sample environment in a build with swscale, where [libx264] is the
    encoder above. *)
Definition sample_collaborators_swscale : Collaborators := {|
  get_codec_from_name := sample_codec_from_name;
  unit_evaluate := @unit_evaluate sample_collaborators;
  unit_evaluate_dbl := @unit_evaluate_dbl sample_collaborators;
  atof := @atof sample_collaborators;
  get_commandline_param := fun _ => None;
  video_desc_eq_excl_tile_count := desc_eq_excl_tile_count;
  codec_is_a_rgb := fun _ => false;
  av_opt_accepts := fun _ _ _ => true;
  avcodec_find_encoder_by_name := fun nm =>
    if String.eqb nm "libx264" then Some sample_encoder_without_formats else None;
  avcodec_find_encoder := fun _ => None;
  av_get_pix_fmt := fun _ => AV_PIX_FMT_NONE;
  get_available_pix_fmts := @get_available_pix_fmts sample_collaborators;
  AV_PIX_FMT_X2RGB10LE := None;
  pix_fmt_is_software := fun _ => true;
  open_backend := @open_backend sample_collaborators;
  to_lavc_vid_conv_init := fun _ _ _ _ _ => true;
  have_swscale := true;
  AV_PIX_FMT_UYVY422 := 1;
  sws_getContext_ok := fun _ _ _ _ => true;
  av_frame_alloc_ok := true;
  av_image_alloc_ok := fun _ _ _ => true;
  pix_fmt_is_rgb := fun _ => false;
  hardware_concurrency := 8
|}.

(** A specification of a step of the tuner: from a state that satisfies
    [P], every event it logs satisfies [E], and when it returns [a] the
    state satisfies [Q a]. *)
Definition tuner_triple {A : Type} (P : tuning -> Prop) (m : tuner A)
    (Q : A -> tuning -> Prop) (E : event -> Prop) : Prop :=
  forall t, P t ->
    Forall E (m t).2 /\ forall a, (m t).1.1 = inr a -> Q a (m t).1.2.

(** A step that keeps the invariant [J]. *)
Definition tuner_keeps {A : Type} (J : tuning -> Prop) (E : event -> Prop) (m : tuner A) : Prop :=
  tuner_triple J m (fun _ => J) E.

(** The key of every private option an event sets satisfies [K]. *)
Definition option_keys (K : string -> Prop) (e : event) : Prop :=
  match e with
  | EvOptSet key _ _ => K key
  | _ => True
  end.

(** What every function of the tuner keeps: the encoder of the context,
    the [have_preset] flag, and the blacklist, which can only gain the keys
    [rc] and [x265-params]. *)
Definition tuner_frame (enc : AVCodec) (hp : bool) (bl0 : gset string) (t : tuning) : Prop :=
  codec (t_ctx t) = enc
  /\ have_preset (t_param t) = hp
  /\ bl0 ⊆ t_blacklist t
  /\ t_blacklist t ⊆ bl0 ∪ {["rc"; "x265-params"]}.

(** The keys of the private options the tuner sets on its own account,
    [preset] apart. *)
Definition tuner_option_keys : list string :=
  [ "qp"; "crf"; "huffman"; "async_depth"; "usage"; "header_insertion_mode";
    "header_spacing"; "tune"; "intra-refresh"; "x265-params"; "forced-idr"; "rc";
    "spatial_aq"; "gpu"; "delay"; "zerolatency"; "b_ref_mode"; "la_depth"; "pred_struct";
    "tile_row_cnt"; "tile_col_cnt"; "tile_slice_mode"; "umv"; "svtav1-params";
    "tile_columns"; "tile_rows"; "scenario"; "int_ref_type"; "int_ref_cycle_size";
    "deadline"; "cpu-used"; "rc_lookahead" ].

(** The events of the loop over the user's options [opts] with the
    blacklist [bl]: a warning, or an option of the list that is not
    blacklisted, passed with the user's value. *)
Definition user_option_event (opts : list (string * string)) (bl : gset string) (e : event)
  : Prop :=
  match e with
  | EvOptSet key val _ => exists v, val = OptStr v /\ In (key, v) opts /\ key ∉ bl
  | EvLog _ _ => True
  | _ => False
  end.

(** The only value an event passes for the option [preset] is the
    string [p]. *)
Definition preset_is (p : string) (e : event) : Prop :=
  match e with
  | EvOptSet key val _ => key = "preset" -> val = OptStr p
  | _ => True
  end.


(** What the tuner's thread step leaves when threads are switched off. *)
Definition threads_off (t : tuning) : Prop :=
  thread_type (t_ctx t) = 0 /\ thread_count (t_ctx t) = 1 /\ thread_mode (t_param t) = "no".

(** The parameter string [p] that [configure_x264_x265] hands to libx265
    for the user's string [user]: it starts with the user's string, names
    a key interval, and with periodic intra refresh the three keys of it;
    without periodic intra refresh, a user's string in which [keyint]
    occurs anywhere is passed as it is. *)
Definition x265_params_complete (user : string) (periodic_intra : Z) (p : string) : Prop :=
  starts_with user p = true
  /\ contains "keyint" p = true
  /\ (periodic_intra <> 0 ->
      contains "intra-refresh" p = true /\ contains "constrained-intra" p = true
      /\ contains "no-open-gop" p = true)
  /\ (periodic_intra = 0 -> contains "keyint" user = true -> p = user).

(** A specification of a tuner step that also speaks of the events of
    a normal return. *)
Definition tuner_run {A : Type} (P : tuning -> Prop) (m : tuner A)
    (Q : A -> tuning -> list event -> Prop) : Prop :=
  forall t, P t -> forall a, (m t).1.1 = inr a -> Q a (m t).1.2 (m t).2.

(** What [configure_x264_x265] keeps while it works: the encoder, the
    periodic-intra flag of the parameters, and a property [R] of the
    blacklist. *)
Definition x26x_frame (enc : AVCodec) (periodic : Z) (R : gset string -> Prop)
    (t : tuning) : Prop :=
  codec (t_ctx t) = enc /\ periodic_intra (t_param t) = periodic /\ R (t_blacklist t).

(** The text of [get_codec_details] for the encoders and decoders found,
    as an unbounded buffer would hold it. *)
Definition codec_details_text `{Platform} (encoders decoders : list string) : string :=
  let cat_names := fold_left (fun buf nm : string => ((buf ++ " ") ++ nm)%string) in
  match encoders, decoders with
  | [], [] => ""
  | _, _ =>
      let buf := ("" ++ " (")%string in
      let buf :=
        match encoders with
        | [] => buf
        | _ => cat_names encoders (buf ++ (TERM_BOLD ++ "encoders:" ++ TERM_RESET))%string
        end in
      let buf :=
        match decoders with
        | [] => buf
        | _ =>
            let buf := match encoders with
                       | [] => buf
                       | _ => (buf ++ "; ")%string
                       end in
            cat_names decoders (buf ++ (TERM_BOLD ++ "decoders:" ++ TERM_RESET))%string
        end in
      (buf ++ ")")%string
  end.

(** A property of the context that the tuner's steps keep, [configure_qsv]
    apart: it survives every write to the private options, to
    [rc_max_rate], [qmin], [qmax], the pixel format and the thread fields,
    and the setting of the interlaced-DCT flag. *)
Definition context_stable (Inv : AVCodecContext -> Prop) : Prop :=
  (forall c pd, Inv c -> Inv (set_priv_data pd c))
  /\ (forall c v, Inv c -> Inv (set_rc_max_rate v c))
  /\ (forall c v, Inv c -> Inv (set_qmin v c))
  /\ (forall c v, Inv c -> Inv (set_qmax v c))
  /\ (forall c v, Inv c -> Inv (set_pix_fmt v c))
  /\ (forall c v, Inv c -> Inv (set_thread_type v c))
  /\ (forall c v, Inv c -> Inv (set_thread_count v c))
  /\ (forall c, Inv c -> Inv (set_flags (Z.lor (flags c) AV_CODEC_FLAG_INTERLACED_DCT) c)).

(** The quality settings of a context: its encoder, bitrate, bitrate
    tolerance and global quality, and whether the QSCALE flag is set. *)
Definition quality_is (enc : AVCodec) (br bt gq : Z) (qscale : bool)
    (c : AVCodecContext) : Prop :=
  codec c = enc /\ bit_rate c = br /\ bit_rate_tolerance c = bt
  /\ global_quality c = gq /\ Z.testbit (flags c) 1 = qscale.

(** The one place after the quality policy where the tuner takes the
    QSCALE flag back: the family tuning of H.264, HEVC and AV1 calls
    [configure_qsv_h264_hevc] for the encoders [h264_qsv] and [hevc_qsv],
    and that clears the flag for a user's [rc] of [icq] or [qvbr]. *)
Definition qsv_rc_clears_qscale (lavc_opts : gmap string string) (enc_name : string)
    (ug_codec : codec_t) : bool :=
  (bool_decide (ug_codec = H264) || bool_decide (ug_codec = H265) || bool_decide (ug_codec = AV1))
  && (strcmp_eq enc_name "h264_qsv" || strcmp_eq enc_name "hevc_qsv")
  && match lavc_opts !! "rc" with
     | Some rc => strcasecmp_eq rc "icq" || strcasecmp_eq rc "qvbr"
     | None => false
     end.

(* ===================================================================== *)
(** ** Properties *)
(* ===================================================================== *)

Lemma codec_array_has_spec (arr : list AVPixelFormat) (f : AVPixelFormat) :
  codec_array_has arr f = true <-> In f (array_entries arr).
Proof.
  induction arr as [|x arr IH]; simpl.
  - split; [discriminate | tauto].
  - destruct (x =? AV_PIX_FMT_NONE) eqn:Hn; simpl.
    + split; [discriminate | tauto].
    + destruct (x =? f) eqn:Hf.
      * apply Z.eqb_eq in Hf. split; auto.
      * apply Z.eqb_neq in Hf. rewrite IH. split; [auto | intros [?|?]; [congruence | auto]].
Qed.

Lemma first_matching_from_spec (arr C : list AVPixelFormat) :
  (exists pre c post,
      C = pre ++ c :: post
      /\ Forall (fun x => ~ In x (array_entries arr)) pre
      /\ In c (array_entries arr)
      /\ first_matching_from arr C = (c, post))
  \/ (Forall (fun x => ~ In x (array_entries arr)) C
      /\ first_matching_from arr C = (AV_PIX_FMT_NONE, [])).
Proof.
  induction C as [|c C IH]; simpl.
  - right. split; [constructor | reflexivity].
  - destruct (codec_array_has arr c) eqn:Hc.
    + left. exists [], c, C. repeat split; auto.
      now apply codec_array_has_spec.
    + assert (Hn : ~ In c (array_entries arr)).
      { intros Hin. apply codec_array_has_spec in Hin. congruence. }
      destruct IH as [(pre & c' & post & -> & Hpre & Hin & Heq) | [Hall Heq]].
      * left. exists (c :: pre), c', post. repeat split; auto.
      * right. split; auto.
Qed.

(** C2 (as the spec words it, refuted): the format returned is not in
    general the first element of the backend's list that occurs among the
    candidates. With candidates [1; 2] and a backend advertising [2; 1] the
    code returns 1, the candidates' first choice. *)
Lemma backend_order_does_not_decide :
  ~ (forall C B : list AVPixelFormat,
        fst (get_first_matching_pix_fmt C (Some B)) = first_backend_format_in_candidates B C).
Proof.
  intros Hclaim. specialize (Hclaim [1; 2] [2; 1]).
  vm_compute in Hclaim. discriminate.
Qed.

(** C2 (amended): [get_first_matching_pix_fmt] scans the candidate list in
    its own order and returns the first candidate that the backend's array
    holds, leaving the iterator just past it; candidates before it are not
    in the backend's array. When no candidate is in the array it returns
    [AV_PIX_FMT_NONE] with the iterator at the end. The order of the
    backend's array plays no part. *)
Theorem get_first_matching_pix_fmt_candidate_order (C B : list AVPixelFormat) :
  (exists pre c post,
      C = pre ++ c :: post
      /\ Forall (fun x => ~ In x (array_entries B)) pre
      /\ In c (array_entries B)
      /\ get_first_matching_pix_fmt C (Some B) = (c, post))
  \/ (Forall (fun x => ~ In x (array_entries B)) C
      /\ get_first_matching_pix_fmt C (Some B) = (AV_PIX_FMT_NONE, [])).
Proof. apply first_matching_from_spec. Qed.

Section PipelineProperties.
Context `{Collaborators}.

Lemma first_matching_suffix (arr it : list AVPixelFormat) :
  exists pre, it = pre ++ snd (first_matching_from arr it)
              /\ (fst (first_matching_from arr it) <> AV_PIX_FMT_NONE ->
                  exists pre', pre = pre' ++ [fst (first_matching_from arr it)]).
Proof.
  induction it as [|c it IH]; simpl.
  - exists []. split; [reflexivity | congruence].
  - destruct (codec_array_has arr c) eqn:Hc; simpl.
    + exists [c]. split; [reflexivity | intros _; exists []; reflexivity].
    + destruct IH as (pre & Hpre & Hlast).
      exists (c :: pre). split.
      * simpl. congruence.
      * intros Hne. destruct (Hlast Hne) as [pre' ->]. exists (c :: pre'). reflexivity.
Qed.

Lemma negotiate_step d ug enc s it :
  negotiate d ug enc s it =
    let '(fmt, it') := get_first_matching_pix_fmt it (pix_fmts enc) in
    if fmt =? AV_PIX_FMT_NONE then (AV_PIX_FMT_NONE, it', s, [])
    else match try_open_codec s fmt d ug enc with
         | (true, pix_fmt, s') => (pix_fmt, it', s', [EvTrialOpen fmt true])
         | (false, _, s') =>
             let '(r, it'', s'', evs) := negotiate d ug enc s' it' in
             (r, it'', s'', EvTrialOpen fmt false :: evs)
         end.
Proof.
  rewrite negotiate_unfold_eq. unfold negotiate_unfold.
  generalize (inspect (get_first_matching_pix_fmt it (pix_fmts enc))).
  intros [[fmt it'] Hm]. simpl. rewrite Hm.
  generalize (inspect (fmt =? AV_PIX_FMT_NONE)).
  intros [[] Hne]; simpl; rewrite Hne; [reflexivity|].
  unfold try_open_codec. destruct (bool_decide _); reflexivity.
Qed.

Lemma get_first_matching_suffix (it : list AVPixelFormat) (arr : option (list AVPixelFormat)) :
  exists pre, it = pre ++ snd (get_first_matching_pix_fmt it arr)
              /\ (fst (get_first_matching_pix_fmt it arr) <> AV_PIX_FMT_NONE ->
                  exists pre', pre = pre' ++ [fst (get_first_matching_pix_fmt it arr)]).
Proof.
  destruct arr as [arr|]; simpl.
  - apply first_matching_suffix.
  - exists []. split; [reflexivity | congruence].
Qed.

Lemma negotiate_trials_aux d ug enc (n : nat) :
  forall it s, (length it <= n)%nat ->
    let '(fmt, it', s', evs) := negotiate d ug enc s it in
    exists pre, it = pre ++ it'
                /\ sublist (trial_fmts evs) pre
                /\ length (trial_fmts evs) = length evs.
Proof.
  induction n as [|n IH]; intros it s Hlen; rewrite negotiate_step;
    destruct (get_first_matching_suffix it (pix_fmts enc)) as (pre0 & Hit & Hlast);
    destruct (get_first_matching_pix_fmt it (pix_fmts enc)) as [fmt it'] eqn:Hm;
    simpl in Hit, Hlast;
    destruct (fmt =? AV_PIX_FMT_NONE) eqn:Hne.
  all: try (exists pre0; repeat split; [assumption | apply sublist_nil_l]).
  all: apply Z.eqb_neq in Hne; destruct (Hlast Hne) as [pre' ->].
  - subst it. rewrite !length_app in Hlen. simpl in Hlen. lia.
  - destruct (try_open_codec s fmt d ug enc) as [[[] pf] s'].
    + exists (pre' ++ [fmt]). repeat split; [assumption|].
      simpl. apply sublist_inserts_l. apply sublist_skip, sublist_nil_l.
    + assert (Hlen' : (length it' <= n)%nat).
      { subst it. rewrite !length_app in Hlen. simpl in Hlen. lia. }
      specialize (IH it' s' Hlen').
      destruct (negotiate d ug enc s' it') as [[[r it''] s''] evs].
      destruct IH as (pre1 & -> & Hsub & Hl).
      exists ((pre' ++ [fmt]) ++ pre1). repeat split.
      * rewrite Hit. rewrite <- !app_assoc. reflexivity.
      * simpl. rewrite <- app_assoc. apply sublist_inserts_l. simpl.
        apply sublist_skip. exact Hsub.
      * simpl. now rewrite Hl.
Qed.

(** C9: the trial-open loop of [configure_with] is a total function of the
    candidate list (it terminates), and it walks the shared iterator
    forwards only: the iterator it leaves is a suffix of the candidates, the
    formats it tried to open form a subsequence of the part it walked past,
    so there are at most as many trial opens as candidates, and when the
    candidates are pairwise distinct no format is tried twice and no tried
    format is still ahead of the iterator. *)
Theorem negotiate_tries_each_candidate_at_most_once d ug enc s it :
  let '(fmt, it', s', evs) := negotiate d ug enc s it in
  exists pre,
    it = pre ++ it'
    /\ sublist (trial_fmts evs) pre
    /\ length (trial_fmts evs) = length evs
    /\ (length evs <= length it)%nat
    /\ (List.NoDup it ->
        List.NoDup (trial_fmts evs) /\ forall f, In f (trial_fmts evs) -> ~ In f it').
Proof.
  pose proof (negotiate_trials_aux d ug enc (length it) it s (le_n _)) as Haux.
  destruct (negotiate d ug enc s it) as [[[fmt it'] s'] evs].
  destruct Haux as (pre & Hit & Hsub & Hlen).
  exists pre. split; [exact Hit|]. split; [exact Hsub|]. split; [exact Hlen|]. split.
  - rewrite <- Hlen, Hit, length_app.
    pose proof (sublist_length _ _ Hsub). lia.
  - intros Hnd. apply NoDup_ListNoDup in Hnd. rewrite Hit in Hnd.
    apply NoDup_app in Hnd as (Hpre & Hdis & _). split.
    + apply NoDup_ListNoDup. now apply (sublist_NoDup _ pre).
    + intros f Hf Hin. apply (Hdis f).
      * apply (elem_of_sublist (trial_fmts evs)); [|exact Hsub]. now apply list_elem_of_In.
      * now apply list_elem_of_In.
Qed.

End PipelineProperties.

Section ReconfigurationProperties.
Context `{Collaborators}.

Lemma parse_items_inv (items : list string) :
  forall s h st s1,
    parse_items s h items = (st, s1) ->
    exists pre s0 h0,
      apply_items s h pre = Some (s0, h0)
      /\ ((items = pre /\ parse_fmt_finish s0 h0 = (st, s1))
          \/ exists bad rest, items = pre ++ bad :: rest /\ parse_item s0 h0 bad = Stop st s1).
Proof.
  induction items as [|item items IH]; intros s h st s1 Hp; simpl in Hp.
  - exists [], s, h. split; [reflexivity | left; auto].
  - destruct (parse_item s h item) as [s' h'|st' s'] eqn:Hitem.
    + destruct (IH _ _ _ _ Hp) as (pre & s0 & h0 & Hpre & Hcase).
      exists (item :: pre), s0, h0. split.
      * simpl. now rewrite Hitem.
      * destruct Hcase as [[-> Hfin] | (bad & rest & -> & Hbad)].
        -- left. auto.
        -- right. exists bad, rest. auto.
    + inversion Hp; subst. exists [], s, h. split; [reflexivity|].
      right. exists item, items. auto.
Qed.

Lemma check_messages_zeroes (pending : list string) :
  forall s s1 ev0,
    pending <> [] ->
    libavcodec_check_messages s pending = (None, s1, ev0) ->
    saved_desc s1 = zero_desc.
Proof.
  induction pending as [|m rest IH]; intros s s1 ev0 Hne Hrun; [congruence|].
  cbn [libavcodec_check_messages] in Hrun.
  destruct (parse_fmt s (Some m)) as [[ret|c] sp]; [|discriminate].
  destruct (libavcodec_check_messages (set_saved_desc zero_desc sp) rest)
    as [[c' s3] evs] eqn:Hrest.
  inversion Hrun; subst.
  destruct rest as [|m' rest'].
  - simpl in Hrest. inversion Hrest; subst. reflexivity.
  - eapply IH; [discriminate | exact Hrest].
Qed.

(** C1 (amended): when the configuration string of a reconfiguration
    message fails to parse ([parse_fmt] returns non-zero), the handler
    answers with an error response, and the request it leaves is the one
    [parse_fmt] left in the live state: every option before the failing one
    has been applied to it, followed by whatever the failing option itself
    assigned before it was rejected (after a help request, all options). *)
Theorem reconfiguration_parse_failure (s : state) (cfg : string) (ret : Z) (s1 : state) :
  parse_fmt s (Some cfg) = (Returned ret, s1) ->
  ret <> 0 ->
  libavcodec_check_messages s [cfg]
    = (None, set_saved_desc zero_desc s1, [EvResponse RESPONSE_INT_SERV_ERR])
  /\ request_of (set_saved_desc zero_desc s1) = request_of s1
  /\ exists pre s0 h0,
       apply_items s false pre = Some (s0, h0)
       /\ ((strtok_all ":" (escape_colons cfg) = pre
            /\ parse_fmt_finish s0 h0 = (Returned ret, s1))
           \/ exists bad rest,
               strtok_all ":" (escape_colons cfg) = pre ++ bad :: rest
               /\ parse_item s0 h0 bad = Stop (Returned ret) s1).
Proof.
  intros Hp Hret. split; [|split].
  - simpl. simpl in Hp. rewrite Hp.
    destruct (ret =? 0) eqn:E; [apply Z.eqb_eq in E; contradiction | reflexivity].
  - reflexivity.
  - simpl in Hp. now apply parse_items_inv.
Qed.

(** *** What the configuration chain does to the saved description *)

Lemma try_open_codec_saved_desc s fmt d ug enc :
  saved_desc (snd (try_open_codec s fmt d ug enc)) = saved_desc s.
Proof. reflexivity. Qed.

Lemma negotiate_saved_desc_aux d ug enc (n : nat) :
  forall it s, (length it <= n)%nat ->
    saved_desc (snd (fst (negotiate d ug enc s it))) = saved_desc s.
Proof.
  induction n as [|n IH]; intros it s Hlen; rewrite negotiate_step;
    destruct (get_first_matching_suffix it (pix_fmts enc)) as (pre0 & Hit & Hlast);
    destruct (get_first_matching_pix_fmt it (pix_fmts enc)) as [fmt it'] eqn:Hm;
    simpl in Hit, Hlast;
    destruct (fmt =? AV_PIX_FMT_NONE) eqn:Hne; try reflexivity.
  all: apply Z.eqb_neq in Hne; destruct (Hlast Hne) as [pre' ->].
  - subst it. rewrite !length_app in Hlen. simpl in Hlen. lia.
  - pose proof (try_open_codec_saved_desc s fmt d ug enc) as Hto.
    destruct (try_open_codec s fmt d ug enc) as [[[] pf] s']; simpl in Hto.
    + exact Hto.
    + assert (Hlen' : (length it' <= n)%nat).
      { subst it. rewrite !length_app in Hlen. simpl in Hlen. lia. }
      specialize (IH it' s' Hlen').
      destruct (negotiate d ug enc s' it') as [[[r it''] s''] evs].
      simpl in *. congruence.
Qed.

Lemma negotiate_saved_desc d ug enc s it :
  saved_desc (snd (fst (negotiate d ug enc s it))) = saved_desc s.
Proof. now apply (negotiate_saved_desc_aux d ug enc (length it)). Qed.

Lemma swscale_fallback_saved_desc d ug enc (pix : list AVPixelFormat) :
  forall s, saved_desc (snd (fst (swscale_fallback d ug enc s pix))) = saved_desc s.
Proof.
  induction pix as [|p rest IH]; intros s; cbn [swscale_fallback]; [reflexivity|].
  destruct (p =? AV_PIX_FMT_NONE); [reflexivity|].
  destruct (pix_fmt_is_software p); [|apply IH].
  pose proof (try_open_codec_saved_desc s p d ug enc) as Hto.
  destruct (try_open_codec s p d ug enc) as [[[] pf] s']; simpl in Hto; [exact Hto|].
  specialize (IH s').
  destruct (swscale_fallback d ug enc s' rest) as [[r s''] evs]. simpl in *. congruence.
Qed.

Lemma configure_swscale_saved_desc s d fmt :
  saved_desc (snd (configure_swscale s d fmt)) = saved_desc s.
Proof.
  unfold configure_swscale.
  repeat match goal with
         | |- context [if ?b then _ else _] => destruct b; try reflexivity
         end.
Qed.

Lemma configure_swscale_counters s d fmt :
  mov_avg_frames (snd (configure_swscale s d fmt)) = mov_avg_frames s
  /\ mov_avg_comp_duration (snd (configure_swscale s d fmt)) = mov_avg_comp_duration s
  /\ compressed_desc (snd (configure_swscale s d fmt)) = compressed_desc s.
Proof.
  unfold configure_swscale.
  repeat match goal with
         | |- context [if ?b then _ else _] => destruct b; try (repeat split; reflexivity)
         end.
Qed.

Lemma configure_with_result s d r s' evs :
  configure_with s d = (r, s', evs) ->
  (r = Configured ->
     saved_desc s' = d
     /\ mov_avg_frames s' = 0
     /\ mov_avg_comp_duration s' = 0%float
     /\ fps (compressed_desc s') = fps d)
  /\ (r <> Configured -> saved_desc s' = saved_desc s).
Proof.
  unfold configure_with.
  destruct (get_av_codec _ _ _) as [[enc|] ug].
  2:{ intros Heq; inversion Heq; subst. split; [discriminate | reflexivity]. }
  destruct (get_requested_pix_fmts _ _) as [requested ev0].
  match goal with
  | |- context [negotiate ?d ?u ?e ?s0 ?it] =>
      pose proof (negotiate_saved_desc d u e s0 it) as Hneg;
      destruct (negotiate d u e s0 it) as [[[pix it'] sn] ev1]
  end.
  simpl in Hneg.
  assert (Hlast : forall (sc : state) (pix : AVPixelFormat) (ev : list event),
             saved_desc sc = saved_desc s ->
             (if pix =? AV_PIX_FMT_NONE then (NotConfigured, sc, ev)
              else
                let sc := set_compressed_desc (set_tile_count 1 (set_color_spec ug d)) sc in
                let sc := set_mov_avg_comp_duration 0%float sc in
                let sc := set_mov_avg_frames 0 sc in
                let sc := set_pixfmt_conversion
                            (to_lavc_vid_conv_init (color_spec d) (width d) (height d)
                                                   pix (conv_thread_count sc)) sc in
                let '(ok, sc) := if pixfmt_conversion sc then (true, sc)
                                 else configure_swscale sc d pix in
                if ok then (Configured, set_saved_desc d sc, ev)
                else (NotConfigured, sc, ev)) = (r, s', evs) ->
             (r = Configured ->
                saved_desc s' = d /\ mov_avg_frames s' = 0
                /\ mov_avg_comp_duration s' = 0%float /\ fps (compressed_desc s') = fps d)
             /\ (r <> Configured -> saved_desc s' = saved_desc s)).
  { intros sc p ev Hsc. destruct (p =? AV_PIX_FMT_NONE).
    { intros Heq; inversion Heq; subst. split; [discriminate | intros _; exact Hsc]. }
    cbv zeta.
    match goal with
    | |- context [if pixfmt_conversion ?sx then _ else _] =>
        destruct (pixfmt_conversion sx) eqn:Hconv
    end.
    - intros Heq; inversion Heq; subst. split; [intros _; repeat split | congruence].
    - match goal with
      | |- context [configure_swscale ?sx ?dd ?pp] =>
          pose proof (configure_swscale_saved_desc sx dd pp) as Hsw;
          pose proof (configure_swscale_counters sx dd pp) as (Hc1 & Hc2 & Hc3);
          destruct (configure_swscale sx dd pp) as [[] ssw]
      end; simpl in Hsw, Hc1, Hc2, Hc3; intros Heq; inversion Heq; subst.
      + split; [intros _ | congruence].
        split; [reflexivity|]. split; [exact Hc1|]. split; [exact Hc2|].
        change (fps (compressed_desc ssw) = fps d). rewrite Hc3. reflexivity.
      + split; [discriminate | intros _]. rewrite Hsw. exact Hsc. }
  destruct (have_swscale && (pix =? AV_PIX_FMT_NONE)
            && negb (bool_decide (is_Some (get_commandline_param "lavc-use-codec")))).
  - destruct (pix_fmts enc) as [arr|].
    2:{ intros Heq; inversion Heq; subst. split; [discriminate | intros _; exact Hneg]. }
    pose proof (swscale_fallback_saved_desc d ug enc arr sn) as Hfb.
    destruct (swscale_fallback d ug enc sn arr) as [[pix2 sf] ev2]. simpl in Hfb.
    apply Hlast. congruence.
  - apply Hlast. exact Hneg.
Qed.

Lemma check_duration_frame s a b :
  saved_desc (snd (fst (check_duration s a b))) = saved_desc s
  /\ Forall is_perf_event (snd (check_duration s a b)).
Proof.
  unfold check_duration.
  destruct (10 * mov_window <=? mov_avg_frames s); [split; [reflexivity | constructor]|].
  cbv zeta.
  match goal with
  | |- context [if ?b then _ else _] => destruct b; [split; [reflexivity | constructor]|]
  end.
  match goal with
  | |- context [match codec_ctx ?sx with _ => _ end] => destruct (codec_ctx sx) as [ctx|]
  end.
  - split; [reflexivity|]. constructor; [exact I|].
    apply Forall_app. split.
    + destruct (pick_hint _ ctx); repeat constructor.
    + match goal with
      | |- context [if ?b then _ else _] => destruct b; repeat constructor
      end.
  - split; [reflexivity | repeat constructor].
Qed.

Lemma encode_frame_frame s tx :
  saved_desc (snd (fst (encode_frame s tx))) = saved_desc s
  /\ Forall is_perf_event (snd (encode_frame s tx)).
Proof.
  unfold encode_frame. cbv zeta.
  destruct (bool_decide (color_spec (compressed_desc s) = PRORES) && (codec_tag tx =? 0));
    [split; [reflexivity | constructor]|].
  destruct (negb (conv_ok tx)); [split; [reflexivity | constructor]|].
  destruct (negb (send_ret tx =? 0)); [split; [reflexivity | constructor]|].
  destruct (receive_packets _ _ _) as [c|data_len]; [split; [reflexivity | constructor]|].
  pose proof (check_duration_frame s (dur_pixfmt_change_ns tx) (dur_total_ns tx)) as [Hs Hev].
  destruct (check_duration s (dur_pixfmt_change_ns tx) (dur_total_ns tx)) as [[[c|] s'] evs];
    simpl in Hs, Hev.
  - split; assumption.
  - match goal with
    | |- context [if ?b then _ else _] => destruct b
    end; split; assumption.
Qed.

(** C10: once [libavcodec_check_messages] has processed at least one
    reconfiguration message, the cached stream description is all zeroes,
    whatever [parse_fmt] made of the configuration strings; and the frame
    submitted next, whose description is not the all-zero one, goes
    through [cleanup] and [configure_with] before anything else. *)
Theorem reconfiguration_message_forces_reconfiguration
    (s : state) (pending : list string) (tx : frame_io) (s1 : state) (ev0 : list event) :
  pending <> [] ->
  libavcodec_check_messages s pending = (None, s1, ev0) ->
  saved_desc s1 = zero_desc
  /\ (video_desc_eq_excl_tile_count (tx_desc tx) zero_desc = false ->
      exists r s2 ev_enc,
        libavcodec_compress_tile s pending tx
        = (r, s2,
           ev0 ++ EvCleanup :: EvConfigure (tx_desc tx)
               :: snd (configure_with (cleanup s1) (tx_desc tx)) ++ ev_enc)).
Proof.
  intros Hne Hrun.
  pose proof (check_messages_zeroes pending s s1 ev0 Hne Hrun) as Hzero.
  split; [exact Hzero|]. intros Hdiff.
  unfold libavcodec_compress_tile. rewrite Hrun.
  unfold reconfigure_if_needed. rewrite Hzero, Hdiff. cbn [negb].
  destruct (configure_with (cleanup s1) (tx_desc tx)) as [[r s2] ev1]. cbn [snd].
  destruct r.
  - destruct (encode_frame s2 tx) as [[r' s3] ev2].
    exists r', s3, ev2. reflexivity.
  - exists NoOutput, s2, []. now rewrite app_nil_r.
  - exists (TileCrashed c), s2, []. now rewrite app_nil_r.
Qed.

(** C6 (amended): reconfiguration runs exactly when the incoming
    description differs from the saved one, the tile count apart. So when
    the first frame's reconfiguration succeeded, and no reconfiguration
    message is pending when the second frame is submitted, a second frame
    whose description equals the first's (tile count apart) triggers no
    reconfiguration: no cleanup, no selection, negotiation or tuning; the
    only events it can produce are those of the performance monitor. *)
Theorem unchanged_description_does_not_reconfigure
    (s : state) (p1 : list string) (tx1 tx2 : frame_io)
    (s0 sa s1 : state) (ev0 eva ev1 : list event) (r1 : tile_result) :
  libavcodec_check_messages s p1 = (None, s0, ev0) ->
  reconfigure_if_needed s0 (tx_desc tx1) = (Some Configured, sa, eva) ->
  libavcodec_compress_tile s p1 tx1 = (r1, s1, ev1) ->
  video_desc_eq_excl_tile_count (tx_desc tx2) (tx_desc tx1) = true ->
  reconfigure_if_needed s1 (tx_desc tx2) = (None, s1, [])
  /\ Forall is_perf_event (snd (libavcodec_compress_tile s1 [] tx2))
  /\ (forall (s' : state) (d : video_desc),
        (video_desc_eq_excl_tile_count d (saved_desc s') = false ->
         exists r s'' evs,
           reconfigure_if_needed s' d = (Some r, s'', EvCleanup :: EvConfigure d :: evs))
        /\ (video_desc_eq_excl_tile_count d (saved_desc s') = true ->
            reconfigure_if_needed s' d = (None, s', []))).
Proof.
  intros Hmsg Hrec Hrun Heq.
  assert (Hiff : forall (s' : state) (d : video_desc),
             (video_desc_eq_excl_tile_count d (saved_desc s') = false ->
              exists r s'' evs,
                reconfigure_if_needed s' d = (Some r, s'', EvCleanup :: EvConfigure d :: evs))
             /\ (video_desc_eq_excl_tile_count d (saved_desc s') = true ->
                 reconfigure_if_needed s' d = (None, s', []))).
  { intros s' d. unfold reconfigure_if_needed. split; intros ->; cbn [negb]; [|reflexivity].
    destruct (configure_with (cleanup s') d) as [[r s''] evs]. eauto. }
  assert (Hsaved : saved_desc s1 = tx_desc tx1).
  { unfold libavcodec_compress_tile in Hrun. rewrite Hmsg, Hrec in Hrun.
    pose proof (encode_frame_frame sa tx1) as [Hs _].
    destruct (encode_frame sa tx1) as [[r' s3] ev2]. inversion Hrun; subst.
    simpl in Hs. rewrite Hs.
    unfold reconfigure_if_needed in Hrec.
    destruct (negb (video_desc_eq_excl_tile_count (tx_desc tx1) (saved_desc s0)));
      [|discriminate].
    destruct (configure_with (cleanup s0) (tx_desc tx1)) as [[r s''] evs] eqn:Hcfg.
    inversion Hrec; subst.
    now apply (configure_with_result _ _ _ _ _ Hcfg). }
  assert (Hnone : reconfigure_if_needed s1 (tx_desc tx2) = (None, s1, [])).
  { apply Hiff. now rewrite Hsaved. }
  split; [exact Hnone|]. split; [|exact Hiff].
  unfold libavcodec_compress_tile. cbn [libavcodec_check_messages]. rewrite Hnone.
  pose proof (encode_frame_frame s1 tx2) as [_ Hev].
  destruct (encode_frame s1 tx2) as [[r' s3] ev2]. exact Hev.
Qed.

(** *** The performance monitor *)

Lemma count_too_slow_app (a b : list event) :
  count_too_slow (a ++ b) = (count_too_slow a + count_too_slow b)%nat.
Proof.
  induction a as [|e a IH]; simpl; [reflexivity|].
  destruct e as [| | | | | | |[]]; simpl; rewrite IH; reflexivity.
Qed.

Lemma count_too_slow_In (evs : list event) :
  In (EvPerf TooSlow) evs <-> (0 < count_too_slow evs)%nat.
Proof.
  induction evs as [|e evs IH]; simpl; [split; [tauto | lia]|].
  destruct e as [| | | | | | |[]]; simpl; rewrite <- ?IH;
    try (split; [intros [Hd|?]; [discriminate | assumption] | auto]).
  split; [intros _; lia | intros _; left; reflexivity].
Qed.

Lemma check_duration_disabled s pc tot :
  10 * mov_window <= mov_avg_frames s ->
  check_duration s pc tot = (None, s, []).
Proof.
  intros Hd. unfold check_duration.
  destruct (10 * mov_window <=? mov_avg_frames s) eqn:E; [reflexivity|].
  apply Z.leb_gt in E. lia.
Qed.

Lemma run_check_duration_disabled (frames : list (Z * Z)) s :
  10 * mov_window <= mov_avg_frames s ->
  run_check_duration s frames = (None, s, []).
Proof.
  intros Hd. induction frames as [|[pc tot] rest IH]; simpl; [reflexivity|].
  rewrite (check_duration_disabled s pc tot Hd), IH. reflexivity.
Qed.

(** The three ways one call can go. *)
Lemma check_duration_cases s pc tot :
  let avg' := mov_avg_step (mov_avg_comp_duration s) tot in
  (* does not fire, monitoring off or not yet due *)
  (snd (check_duration s pc tot) = []
   /\ fst (fst (check_duration s pc tot)) = None
   /\ ((10 * mov_window <= mov_avg_frames s /\ snd (fst (check_duration s pc tot)) = s)
       \/ (mov_avg_frames s < 10 * mov_window
           /\ (mov_avg_frames s + 1 < 2 * mov_window
               \/ (avg' <? 1 / fps (compressed_desc s))%float = true)
           /\ snd (fst (check_duration s pc tot))
              = set_mov_avg_frames (mov_avg_frames s + 1)
                  (set_mov_avg_comp_duration avg' s))))
  \/
  (* fires *)
  (count_too_slow (snd (check_duration s pc tot)) = 1%nat
   /\ mov_avg_frames s < 10 * mov_window
   /\ 2 * mov_window <= mov_avg_frames s + 1
   /\ (avg' <? 1 / fps (compressed_desc s))%float = false
   /\ ((fst (fst (check_duration s pc tot)) = None
        /\ codec_ctx s <> None
        /\ snd (fst (check_duration s pc tot))
           = set_mov_avg_frames LONG_MAX (set_mov_avg_comp_duration avg' s))
       \/ (fst (fst (check_duration s pc tot)) = Some NullDereference
           /\ codec_ctx s = None))).
Proof.
  unfold check_duration, mov_avg_step.
  destruct (10 * mov_window <=? mov_avg_frames s) eqn:Eoff.
  { left. apply Z.leb_le in Eoff. split; [reflexivity|]. split; [reflexivity|].
    left. split; [exact Eoff | reflexivity]. }
  apply Z.leb_gt in Eoff. cbv zeta.
  cbn [mov_avg_frames mov_avg_comp_duration compressed_desc codec_ctx
       set_mov_avg_frames set_mov_avg_comp_duration].
  match goal with
  | |- context [if (?b || _) then _ else _] => destruct b eqn:Ewarm
  end.
  { left. apply Z.ltb_lt in Ewarm. split; [reflexivity|]. split; [reflexivity|].
    right. split; [lia|]. split; [left; exact Ewarm | reflexivity]. }
  apply Z.ltb_ge in Ewarm. cbn [orb].
  match goal with
  | |- context [if ?b then _ else _] => destruct b eqn:Ebudget
  end.
  { left. split; [reflexivity|]. split; [reflexivity|].
    right. split; [lia|]. split; [right; reflexivity | reflexivity]. }
  right.
  match goal with
  | |- context [match ?x with Some _ => _ | None => _ end] =>
      change x with (codec_ctx s); destruct (codec_ctx s) as [ctx|] eqn:Ectx
  end.
  - cbn [fst snd]. split.
    + match goal with
      | |- context [pick_hint ?sx ctx] => destruct (pick_hint sx ctx) as [[]|]
      end;
        match goal with
        | |- context [if ?b then _ else _] => destruct b
        end; reflexivity.
    + split; [lia|]. split; [exact Ewarm|]. split; [reflexivity|].
      left. split; [reflexivity|]. split; [discriminate | reflexivity].
  - cbn [fst snd]. split; [reflexivity|].
    split; [lia|]. split; [exact Ewarm|]. split; [reflexivity|].
    right. split; reflexivity.
Qed.

Lemma run_check_duration_at_most_once (frames : list (Z * Z)) :
  forall s, (count_too_slow (snd (run_check_duration s frames)) <= 1)%nat.
Proof.
  induction frames as [|[pc tot] rest IH]; intros s; simpl; [lia|].
  pose proof (check_duration_cases s pc tot) as Hc. cbv zeta in Hc.
  destruct (check_duration s pc tot) as [[[c|] s'] evs]; simpl in Hc.
  - simpl. destruct Hc as [(-> & _) | (-> & _)]; simpl; lia.
  - specialize (IH s').
    destruct Hc as [(-> & _) | (Hone & _ & _ & _ & [(_ & _ & ->) | (Hd & _)])];
      [| |discriminate].
    + destruct (run_check_duration s' rest) as [[c'' s''] evs']. simpl in *. exact IH.
    + rewrite run_check_duration_disabled by (simpl; unfold mov_window, LONG_MAX; lia).
      simpl. rewrite app_nil_r. lia.
Qed.

Lemma run_check_duration_app (a b : list (Z * Z)) :
  forall s s' evs,
    run_check_duration s a = (None, s', evs) ->
    run_check_duration s (a ++ b)
    = (fst (fst (run_check_duration s' b)), snd (fst (run_check_duration s' b)),
       evs ++ snd (run_check_duration s' b)).
Proof.
  induction a as [|[pc tot] a IH]; intros s s' evs Hrun; simpl in *.
  - inversion Hrun; subst. now destruct (run_check_duration s' b) as [[c s''] evs'].
  - destruct (check_duration s pc tot) as [[[c|] s1] ev1]; [discriminate|].
    destruct (run_check_duration s1 a) as [[c2 s2] ev2] eqn:Ha.
    inversion Hrun; subst.
    rewrite (IH _ _ _ Ha). now rewrite app_assoc.
Qed.

(** While the counter stays below twice the window nothing is emitted and
    the average just follows the frames. *)
Lemma run_check_duration_warmup (tot : Z) (pcs : list Z) :
  forall s,
    mov_avg_frames s + Z.of_nat (length pcs) < 2 * mov_window ->
    run_check_duration s (map (fun pc => (pc, tot)) pcs)
    = (None,
       set_mov_avg_frames (mov_avg_frames s + Z.of_nat (length pcs))
         (set_mov_avg_comp_duration
            (Nat.iter (length pcs) (fun a => mov_avg_step a tot) (mov_avg_comp_duration s)) s),
       []).
Proof.
  induction pcs as [|pc pcs IH]; intros s Hlen.
  - simpl. rewrite Z.add_0_r. destruct s; reflexivity.
  - cbn [map run_check_duration].
    pose proof (check_duration_cases s pc tot) as Hc. cbv zeta in Hc.
    cbn [length] in Hlen. rewrite Nat2Z.inj_succ in Hlen.
    destruct Hc as [(Hev & Hcr & [[Hoff _] | (_ & _ & Hst)]) | (_ & _ & Hdue & _)];
      [unfold mov_window in *; lia | | unfold mov_window in *; lia].
    destruct (check_duration s pc tot) as [[c s1] ev1]. simpl in Hev, Hcr, Hst. subst.
    rewrite IH by (simpl; lia).
    cbn [mov_avg_frames mov_avg_comp_duration set_mov_avg_frames set_mov_avg_comp_duration
         length app].
    rewrite Nat2Z.inj_succ, Nat.iter_succ_r.
    replace (mov_avg_frames s + 1 + Z.of_nat (length pcs))
      with (mov_avg_frames s + Z.succ (Z.of_nat (length pcs))) by lia.
    reflexivity.
Qed.

Lemma twice_budget_is_too_slow (f : float) (tot : Z) :
  In (f, tot) twice_budget_scenarios ->
  (Nat.iter 200 (fun a => mov_avg_step a tot) 0 <? 1 / f)%float = false.
Proof.
  intros Hin. simpl in Hin.
  repeat (destruct Hin as [Heq | Hin]; [inversion Heq; subst; vm_compute; reflexivity|]).
  contradiction.
Qed.

Lemma iter_succ_200 (A : Type) (g : A -> A) (x : A) :
  Nat.iter 200 g x = g (Nat.iter 199 g x).
Proof. reflexivity. Qed.

Lemma scenario_fires_exactly_once s ctx (f : float) (tot : Z) (pcs : list Z) (rest : list (Z * Z)) :
  In (f, tot) twice_budget_scenarios ->
  codec_ctx s = Some ctx ->
  mov_avg_frames s = 0 ->
  mov_avg_comp_duration s = 0%float ->
  fps (compressed_desc s) = f ->
  length pcs = 200%nat ->
  count_too_slow (snd (run_check_duration s (map (fun pc => (pc, tot)) pcs ++ rest))) = 1%nat
  /\ snd (run_check_duration s (map (fun pc => (pc, tot)) (firstn 199 pcs))) = [].
Proof.
  intros Hin Hctx Hfr Havg Hfps Hlen.
  assert (Hl199 : length (firstn 199 pcs) = 199%nat) by (rewrite length_firstn; lia).
  pose proof (run_check_duration_warmup tot (firstn 199 pcs) s) as Hwarm.
  pose proof (twice_budget_is_too_slow f tot Hin) as Hslow.
  rewrite iter_succ_200 in Hslow.
  rewrite Hl199, Hfr, Havg in Hwarm.
  remember (Nat.iter 199 (fun a => mov_avg_step a tot) 0%float) as a199 eqn:Ha199.
  clear Ha199.
  specialize (Hwarm ltac:(unfold mov_window; lia)).
  split; [|now rewrite Hwarm].
  rewrite <- (firstn_skipn 199 pcs) at 1.
  destruct (skipn 199 pcs) as [|pc tl] eqn:Hskip.
  { pose proof (length_skipn 199 pcs) as Hs. rewrite Hskip, Hlen in Hs. discriminate. }
  assert (Htl : tl = []).
  { pose proof (length_skipn 199 pcs) as Hs. rewrite Hskip, Hlen in Hs. simpl in Hs.
    destruct tl; [reflexivity | discriminate]. }
  subst tl. rewrite map_app, <- app_assoc.
  rewrite (run_check_duration_app _ _ _ _ _ Hwarm). cbn [snd app].
  cbn [map app run_check_duration].
  set (s199 := set_mov_avg_frames (0 + Z.of_nat 199) (set_mov_avg_comp_duration a199 s)).
  assert (Hv : mov_avg_frames s199 = 199 /\ mov_avg_comp_duration s199 = a199
               /\ compressed_desc s199 = compressed_desc s /\ codec_ctx s199 = codec_ctx s)
    by (repeat split; reflexivity).
  destruct Hv as (Hv1 & Hv2 & Hv3 & Hv4). clearbody s199.
  pose proof (check_duration_cases s199 pc tot) as Hc. cbv zeta in Hc.
  rewrite Hv1, Hv2, Hv3, Hv4, Hfps, Hslow, Hctx in Hc.
  destruct (check_duration s199 pc tot) as [[c s2] ev2]. cbn [fst snd] in Hc.
  destruct Hc as [(_ & _ & [[Hoff _] | (_ & [Hw | Hb] & _)])
                 | (Hone & _ & _ & _ & [(-> & _ & ->) | (_ & Hnone)])].
  - unfold mov_window in Hoff. lia.
  - unfold mov_window in Hw. lia.
  - discriminate.
  - rewrite run_check_duration_disabled
      by (cbn [mov_avg_frames set_mov_avg_frames]; unfold mov_window, LONG_MAX; lia).
    cbn [snd]. rewrite app_nil_r. exact Hone.
  - discriminate.
Qed.

(** C5: the performance monitor fires at most once over any run of frames;
    it fires only when the frame counter has reached twice the window of 100
    frames and the moving average is not below the per-frame budget 1/fps;
    once it has fired it never emits anything again; after a successful
    reconfiguration both counters are zero again. In particular, at 24, 25,
    30, 50 or 60 frames per second, 200 frames that each take twice the
    budget produce nothing for the first 199 frames and exactly one warning
    in total, however many frames follow. *)
Theorem performance_monitor_fires_at_most_once :
  (forall s frames, (count_too_slow (snd (run_check_duration s frames)) <= 1)%nat)
  /\ (forall s pc tot,
        In (EvPerf TooSlow) (snd (check_duration s pc tot)) ->
        2 * mov_window <= mov_avg_frames s + 1
        /\ (mov_avg_step (mov_avg_comp_duration s) tot <? 1 / fps (compressed_desc s))%float
           = false)
  /\ (forall s pc tot s' evs frames,
        check_duration s pc tot = (None, s', evs) ->
        In (EvPerf TooSlow) evs ->
        run_check_duration s' frames = (None, s', []))
  /\ (forall s ctx f tot pcs rest,
        In (f, tot) twice_budget_scenarios ->
        codec_ctx s = Some ctx ->
        mov_avg_frames s = 0 ->
        mov_avg_comp_duration s = 0%float ->
        fps (compressed_desc s) = f ->
        length pcs = 200%nat ->
        count_too_slow (snd (run_check_duration s (map (fun pc => (pc, tot)) pcs ++ rest)))
        = 1%nat
        /\ snd (run_check_duration s (map (fun pc => (pc, tot)) (firstn 199 pcs))) = [])
  /\ (forall s d s' evs,
        configure_with s d = (Configured, s', evs) ->
        mov_avg_frames s' = 0 /\ mov_avg_comp_duration s' = 0%float).
Proof.
  split; [intros s frames; apply run_check_duration_at_most_once|].
  split.
  { intros s pc tot Hin. apply count_too_slow_In in Hin.
    pose proof (check_duration_cases s pc tot) as Hc. cbv zeta in Hc.
    destruct Hc as [(Hev & _) | (_ & _ & Hdue & Hb & _)]; [|auto].
    rewrite Hev in Hin. simpl in Hin. lia. }
  split.
  { intros s pc tot s' evs frames Hrun Hin. apply count_too_slow_In in Hin.
    pose proof (check_duration_cases s pc tot) as Hc. cbv zeta in Hc.
    rewrite Hrun in Hc. cbn [fst snd] in Hc.
    destruct Hc as [(-> & _) | (_ & _ & _ & _ & [(_ & _ & ->) | (Hd & _)])].
    - simpl in Hin. lia.
    - apply run_check_duration_disabled.
      cbn [mov_avg_frames set_mov_avg_frames]. unfold mov_window, LONG_MAX. lia.
    - discriminate. }
  split; [apply scenario_fires_exactly_once|].
  intros s d s' evs Hcfg.
  destruct (configure_with_result _ _ _ _ _ Hcfg) as [Hok _].
  destruct (Hok eq_refl) as (_ & Hf & Ha & _). auto.
Qed.

End ReconfigurationProperties.

(** C1 (as stated, refuted): a configuration string that fails to parse
    does change the live request. From the initial request, the message
    [gop=50:nonsense] is answered with an error and leaves the GOP size at
    50 instead of 20: [parse_fmt] is handed the live state, not a copy. *)
Lemma parse_failure_changes_live_request :
  ~ (forall (E : Collaborators) (s : state) (cfg : string) ret s1 c s' evs,
        parse_fmt s (Some cfg) = (Returned ret, s1) -> ret <> 0 ->
        libavcodec_check_messages s [cfg] = (c, s', evs) ->
        evs = [EvResponse RESPONSE_INT_SERV_ERR] /\ request_of s' = request_of s).
Proof.
  intros Hclaim.
  destruct (Hclaim sample_collaborators sample_state "gop=50:nonsense"
                   (-1) (snd (parse_fmt sample_state (Some "gop=50:nonsense")))
                   None
                   (snd (fst (libavcodec_check_messages sample_state ["gop=50:nonsense"])))
                   [EvResponse RESPONSE_INT_SERV_ERR])
    as [_ Hreq].
  - vm_compute. reflexivity.
  - discriminate.
  - vm_compute. reflexivity.
  - apply (f_equal rq_gop) in Hreq. vm_compute in Hreq. discriminate.
Qed.

Lemma reconfiguration_parse_failure_witness :
  exists s1,
    libavcodec_check_messages sample_state ["gop=50:nonsense"]
      = (None, set_saved_desc zero_desc s1, [EvResponse RESPONSE_INT_SERV_ERR])
    /\ rq_gop (request_of s1) = 50.
Proof.
  exists (snd (parse_fmt sample_state (Some "gop=50:nonsense"))).
  split.
  - apply (reconfiguration_parse_failure sample_state "gop=50:nonsense" (-1)).
    + vm_compute. reflexivity.
    + discriminate.
  - vm_compute. reflexivity.
Defined.

Lemma reconfiguration_message_forces_reconfiguration_witness :
  exists s1,
    libavcodec_check_messages sample_state ["nonsense"]
      = (None, s1, [EvResponse RESPONSE_INT_SERV_ERR])
    /\ saved_desc s1 = zero_desc
    /\ exists r s2 ev,
         libavcodec_compress_tile sample_state ["nonsense"] (sample_frame sample_desc 1000)
         = (r, s2, EvResponse RESPONSE_INT_SERV_ERR :: EvCleanup :: EvConfigure sample_desc :: ev).
Proof.
  exists (snd (fst (libavcodec_check_messages sample_state ["nonsense"]))).
  assert (Hrun : libavcodec_check_messages sample_state ["nonsense"]
                 = (None, snd (fst (libavcodec_check_messages sample_state ["nonsense"])),
                    [EvResponse RESPONSE_INT_SERV_ERR])).
  { vm_compute. reflexivity. }
  destruct (reconfiguration_message_forces_reconfiguration
              sample_state ["nonsense"] (sample_frame sample_desc 1000) _ _
              ltac:(discriminate) Hrun) as [Hz Hnext].
  split; [exact Hrun|]. split; [exact Hz|].
  destruct Hnext as (r & s2 & ev_enc & Heq); [vm_compute; reflexivity|].
  exists r, s2. eexists. exact Heq.
Defined.

(** C6 (as stated, refuted): two consecutive frames with the same
    description can both trigger a reconfiguration. When no encoder is
    found for the first frame, [configure_with] fails before it saves the
    description, so the second frame finds the saved description still
    different from its own and cleans up and configures again. *)
Lemma failed_configuration_is_retried :
  ~ (forall (E : Collaborators) (s : state) (tx1 tx2 : frame_io),
        video_desc_eq_excl_tile_count (tx_desc tx2) (tx_desc tx1) = true ->
        let s1 := snd (fst (libavcodec_compress_tile s [] tx1)) in
        ~ In EvCleanup (snd (libavcodec_compress_tile s1 [] tx2))).
Proof.
  intros Hclaim.
  apply (Hclaim sample_collaborators sample_state
                (sample_frame sample_desc 1000) (sample_frame sample_desc 1000)).
  - vm_compute. reflexivity.
  - vm_compute. left. reflexivity.
Qed.

(** A request for [libx264], for which the sample environment has an
    encoder. *)
Lemma unchanged_description_does_not_reconfigure_witness :
  reconfigure_if_needed
    (snd (fst (libavcodec_compress_tile
                 (set_backend "libx264" sample_state) [] (sample_frame sample_desc 1000))))
    sample_desc
  = (None,
     snd (fst (libavcodec_compress_tile
                 (set_backend "libx264" sample_state) [] (sample_frame sample_desc 1000))),
     []).
Proof.
  refine (proj1 (unchanged_description_does_not_reconfigure
                   (set_backend "libx264" sample_state) []
                   (sample_frame sample_desc 1000) (sample_frame sample_desc 1000)
                   (set_backend "libx264" sample_state)
                   (snd (fst (reconfigure_if_needed (set_backend "libx264" sample_state) sample_desc)))
                   _
                   []
                   (snd (reconfigure_if_needed (set_backend "libx264" sample_state) sample_desc))
                   (snd (libavcodec_compress_tile
                           (set_backend "libx264" sample_state) [] (sample_frame sample_desc 1000)))
                   (fst (fst (libavcodec_compress_tile
                                (set_backend "libx264" sample_state) [] (sample_frame sample_desc 1000))))
                   _ _ _ _)).
  - reflexivity.
  - vm_compute. reflexivity.
  - vm_compute. reflexivity.
  - vm_compute. reflexivity.
Defined.

(** *** Integers in [double] *)

Lemma iter_xO_val (p k : positive) : Zpos (Pos.iter xO p k) = Zpos p * 2 ^ Zpos k.
Proof.
  induction k using Pos.peano_ind.
  - cbn [Pos.iter]. lia.
  - rewrite Pos.iter_succ, Pos2Z.inj_succ, Z.pow_succ_r by lia.
    change (Zpos (Pos.iter xO p k)~0) with (2 * Zpos (Pos.iter xO p k)). lia.
Qed.

Lemma digits2_pos_log2 (p : positive) : Zpos (digits2_pos p) = Z.log2 (Zpos p) + 1.
Proof.
  induction p; cbn [digits2_pos].
  - rewrite Pos2Z.inj_succ, IHp.
    change (Zpos p~1) with (2 * Zpos p + 1). rewrite Z.log2_succ_double by lia. lia.
  - rewrite Pos2Z.inj_succ, IHp.
    change (Zpos p~0) with (2 * Zpos p). rewrite Z.log2_double by lia. lia.
  - reflexivity.
Qed.

Lemma digits2_pos_iter_xO (p k : positive) :
  Zpos (digits2_pos (Pos.iter xO p k)) = Zpos (digits2_pos p) + Zpos k.
Proof.
  rewrite !digits2_pos_log2, iter_xO_val, Z.log2_mul_pow2 by lia. lia.
Qed.

Lemma fexp_53 (e : Z) : -1074 <= e -> fexp prec emax (53 + e) = e.
Proof.
  intros He. unfold fexp, emin. change (3 - emax - prec) with (-1074).
  change prec with 53. lia.
Qed.

(** A 53-bit mantissa is already in canonical form: rounding keeps it. *)
Lemma binary_round_aux_exact (m : positive) (e : Z) :
  Zpos (digits2_pos m) = 53 -> -1074 <= e <= 971 ->
  binary_round_aux prec emax false (Zpos m) e loc_Exact = S754_finite false m e
  /\ valid_binary (S754_finite false m e) = true.
Proof.
  intros Hd He. split.
  - unfold binary_round_aux, shr_fexp.
    cbn [Zdigits2 shr_record_of_loc]. rewrite Hd, fexp_53, Z.sub_diag by lia.
    cbn [shr shr_m loc_of_shr_record round_nearest_even Zdigits2 shr_record_of_loc].
    rewrite Hd, fexp_53, Z.sub_diag by lia.
    cbn [shr shr_m].
    change (emax - prec) with 971.
    destruct (Z.leb_spec e 971); [reflexivity | lia].
  - unfold valid_binary, bounded, canonical_mantissa.
    rewrite Hd, fexp_53 by lia. rewrite Z.eqb_refl.
    change (emax - prec) with 971.
    destruct (Z.leb_spec e 971); [reflexivity | lia].
Qed.

Lemma binary_normalize_small (p : positive) :
  Zpos p < 2 ^ 53 ->
  exists m e, binary_normalize prec emax (Zpos p) 0 false = S754_finite false m e
              /\ -52 <= e <= 0 /\ Zpos m = Zpos p * 2 ^ (- e)
              /\ valid_binary (S754_finite false m e) = true.
Proof.
  intros Hlt.
  assert (Hd : Zpos (digits2_pos p) <= 53).
  { rewrite digits2_pos_log2.
    assert (Z.log2 (Zpos p) < 53) by (apply Z.log2_lt_pow2; lia). lia. }
  unfold binary_normalize, binary_round, shl_align.
  rewrite Z.add_0_r, Z.sub_0_r.
  unfold fexp at 1 2, emin. change (3 - emax - prec) with (-1074).
  change prec with 53 at 1 2.
  rewrite !Z.max_l by lia.
  destruct (Zpos (digits2_pos p) - 53) as [|q|q] eqn:Eq; try lia.
  - exists p, 0.
    destruct (binary_round_aux_exact p 0) as [Hr Hv]; try lia.
    rewrite Hr. repeat split; try lia. exact Hv.
  - exists (Pos.iter xO p q), (Zneg q).
    destruct (binary_round_aux_exact (Pos.iter xO p q) (Zneg q)) as [Hr Hv].
    + rewrite digits2_pos_iter_xO. lia.
    + lia.
    + split; [exact Hr|]. split; [lia|]. split; [|exact Hv].
      rewrite iter_xO_val. reflexivity.
Qed.

(** Every integer from 0 up to 2^53 (excluded) is a [double]: converting it
    to [double] and back yields it again. *)
Lemma double_trunc_of_Z (z : Z) : 0 <= z < 2 ^ 53 -> CDouble.trunc (CDouble.of_Z z) = Some z.
Proof.
  intros [H0 Hlt]. unfold CDouble.trunc, CDouble.of_Z.
  destruct z as [|p|p]; [reflexivity| |lia].
  destruct (binary_normalize_small p Hlt) as (m & e & Hn & He & Hm & Hv).
  rewrite Hn, Prim2SF_SF2Prim by exact Hv.
  destruct e as [|q|q]; try lia.
  - f_equal. rewrite Hm. cbn. lia.
  - f_equal. rewrite Hm. change (- Zneg q) with (Zpos q).
    apply Z.div_mul. lia.
Qed.

Lemma double_to_int64_of_Z (z : Z) :
  0 <= z < 2 ^ 53 -> CDouble.to_int64 (CDouble.of_Z z) = z.
Proof.
  intros Hz. unfold CDouble.to_int64, CDouble.to_int.
  rewrite double_trunc_of_Z by exact Hz.
  destruct (Z.leb_spec (- 2 ^ (64 - 1)) z); [|lia].
  destruct (Z.ltb_spec z (2 ^ (64 - 1))); [reflexivity|lia].
Qed.

(** *** The parameter tuner *)

Section TunerProperties.
Context `{Collaborators}.

Lemma check_av_opt_set_frame ctx key val :
  let ctx' := snd (fst (check_av_opt_set ctx key val)) in
  flags ctx' = flags ctx /\ bit_rate ctx' = bit_rate ctx
  /\ bit_rate_tolerance ctx' = bit_rate_tolerance ctx
  /\ rc_max_rate ctx' = rc_max_rate ctx /\ global_quality ctx' = global_quality ctx
  /\ codec ctx' = codec ctx.
Proof.
  unfold check_av_opt_set. cbn [fst snd].
  destruct (av_opt_accepts (codec ctx) key val); repeat split; reflexivity.
Qed.

Lemma set_cqp_frame ctx cqp :
  flags (fst (set_cqp ctx cqp)) = Z.lor (flags ctx) AV_CODEC_FLAG_QSCALE
  /\ bit_rate (fst (set_cqp ctx cqp)) = bit_rate ctx
  /\ bit_rate_tolerance (fst (set_cqp ctx cqp)) = bit_rate_tolerance ctx.
Proof.
  unfold set_cqp. cbv zeta.
  destruct (strcmp_eq (name (codec ctx)) "mjpeg"); [repeat split; reflexivity|].
  destruct (contains "_qsv" (name (codec ctx))); [repeat split; reflexivity|].
  match goal with
  | |- context [check_av_opt_set ?c ?k ?v] =>
      pose proof (check_av_opt_set_frame c k v) as Hf; cbv zeta in Hf;
      destruct (check_av_opt_set c k v) as [[ok ctx'] ev]
  end.
  cbn [fst snd] in *. destruct Hf as (Hfl & Hbr & Hbt & _).
  repeat split; assumption.
Qed.

Lemma qscale_bit_set (x : Z) : Z.testbit (Z.lor x AV_CODEC_FLAG_QSCALE) 1 = true.
Proof. rewrite Z.lor_spec. apply orb_true_r. Qed.

(** C7: when neither constant QP nor constant rate factor is selected, the
    bitrate applied to the context is the request's explicit bitrate if one
    was set (> 0); otherwise it is [width * height * bits_per_pixel * fps],
    with the request's bpp if set (> 0) and the codec's registered average
    bpp otherwise. The arithmetic is the C expression's: [width * height]
    in [unsigned int], the rest in [double], the result converted to a
    64-bit integer; an explicit bitrate takes the same way through
    [double], which returns it unchanged when it is below 2^53. *)
Theorem target_bitrate_mode_applies_bitrate
    (s : state) (ctx : AVCodecContext) (d : video_desc) (ug_codec : codec_t) :
  cqp_selected s (name (codec ctx)) = false ->
  crf_selected s (name (codec ctx)) = false ->
  let applied := bit_rate (snd (fst (set_codec_ctx_params_quality s ctx d ug_codec))) in
  let avg_bpp := if (0 <? requested_bpp s)%float then requested_bpp s
                 else codec_params_avg_bpp ug_codec in
  (0 < requested_bitrate s < 2 ^ 53 -> applied = requested_bitrate s)
  /\ (requested_bitrate s <= 0 ->
      applied = CDouble.to_int64
                  (CDouble.of_Z (wrap_uint (width d * height d)) * avg_bpp * fps d)%float)
  /\ applied = CDouble.to_int64
                 (if 0 <? requested_bitrate s then CDouble.of_Z (requested_bitrate s)
                  else (CDouble.of_Z (wrap_uint (width d * height d)) * avg_bpp * fps d)%float).
Proof.
  intros Hcqp Hcrf. cbv zeta.
  assert (Happlied :
            bit_rate (snd (fst (set_codec_ctx_params_quality s ctx d ug_codec)))
            = target_bitrate s d ug_codec).
  { unfold set_codec_ctx_params_quality. cbv zeta.
    change (cqp_selected (set_params _ s) (name (codec ctx)))
      with (cqp_selected s (name (codec ctx))).
    change (crf_selected (set_params _ s) (name (codec ctx)))
      with (crf_selected s (name (codec ctx))).
    rewrite Hcqp, Hcrf. cbn [orb bit_rate set_bit_rate_tolerance set_bit_rate].
    reflexivity. }
  rewrite Happlied. unfold target_bitrate. cbv zeta.
  split; [|split].
  - intros [Hpos Hlt]. apply Z.ltb_lt in Hpos. rewrite Hpos.
    apply double_to_int64_of_Z. apply Z.ltb_lt in Hpos. lia.
  - intros Hle. apply Z.ltb_ge in Hle. rewrite Hle. reflexivity.
  - reflexivity.
Qed.

Lemma toupper_idempotent (c : ascii) : toupper (toupper c) = toupper c.
Proof.
  destruct c as [[] [] [] [] [] [] [] []]; reflexivity.
Qed.

(** The letters of a thread-mode specification are read through [toupper]:
    their case does not matter. *)
Lemma thread_mode_letters_case (rest : string) :
  forall t, thread_mode_letters (string_toupper rest) t = thread_mode_letters rest t.
Proof.
  induction rest as [|c rest IH]; intros t; simpl; [reflexivity|].
  rewrite toupper_idempotent.
  destruct (Ascii.eqb (toupper c) "n"); [apply IH|].
  destruct (Ascii.eqb (toupper c) "F"); [apply IH|].
  destruct (Ascii.eqb (toupper c) "S"); [apply IH|].
  now rewrite IH.
Qed.

(** [toupper] never yields the lower-case letter the first [case] label of
    the [switch] asks for. *)
Lemma toupper_never_n (c : ascii) : Ascii.eqb (toupper c) "n" = false.
Proof.
  destruct c as [[] [] [] [] [] [] [] []]; reflexivity.
Qed.

Lemma thread_mode_letters_nonneg (rest : string) :
  forall t, 0 <= t -> 0 <= fst (thread_mode_letters rest t).
Proof.
  induction rest as [|c rest IH]; intros t Ht; simpl; [exact Ht|].
  rewrite toupper_never_n.
  destruct (Ascii.eqb (toupper c) "F").
  { apply IH. apply Z.lor_nonneg. unfold FF_THREAD_FRAME. lia. }
  destruct (Ascii.eqb (toupper c) "S").
  { apply IH. apply Z.lor_nonneg. unfold FF_THREAD_SLICE. lia. }
  specialize (IH t Ht). destruct (thread_mode_letters rest t). exact IH.
Qed.

Lemma thread_mode_letters_n (spec : string) :
  spec = "n" \/ spec = "N" ->
  String.eqb spec "no" = false
  /\ stoi spec = StoiInvalidArgument
  /\ thread_mode_letters spec 0 = (0, [EvLog LOG_LEVEL_ERROR MSG_UNKNOWN_THREAD_MODE]).
Proof. intros [-> | ->]; vm_compute; auto. Qed.

(** C4 (the code at the failing input): [n], in either case, is not read as
    "force none". The specification [n] (or [N]) is treated like the empty
    specification, with an "unknown thread mode" error logged on top, so an
    encoder with slice threads gets slice threading instead of none; and
    whatever the specification, the thread type the letters yield is never
    the force-none value -1. *)
Theorem thread_mode_n_is_not_force_none :
  (forall (ctx : AVCodecContext) (p : setparam_param) (spec : string),
      spec = "n" \/ spec = "N" ->
      set_codec_thread_mode ctx (set_thread_mode spec p)
      = (fst (fst (set_codec_thread_mode ctx (set_thread_mode "" p))),
         snd (fst (set_codec_thread_mode ctx (set_thread_mode "" p))),
         EvLog LOG_LEVEL_ERROR MSG_UNKNOWN_THREAD_MODE
           :: snd (set_codec_thread_mode ctx (set_thread_mode "" p))))
  /\ (forall (rest : string), fst (thread_mode_letters rest 0) <> -1)
  /\ thread_type (snd (fst (set_codec_thread_mode
                              (sample_context sample_libx264)
                              (set_thread_mode "n" (params sample_state)))))
     = FF_THREAD_SLICE.
Proof.
  split; [|split].
  - intros ctx p spec Hspec.
    destruct (thread_mode_letters_n spec Hspec) as (Hno & Hstoi & Hletters).
    unfold set_codec_thread_mode. cbn [thread_mode set_thread_mode].
    rewrite Hno, Hstoi. change (stoi "") with StoiInvalidArgument.
    change (String.eqb "" "no") with false. cbn [drop].
    rewrite Hletters. change (thread_mode_letters "" 0) with (0, @nil event).
    cbv iota beta. change (0 =? 0) with true. cbv iota beta.
    repeat match goal with
           | |- context [if ?b then _ else _] => destruct b
           end; reflexivity.
  - intros rest. pose proof (thread_mode_letters_nonneg rest 0 ltac:(lia)). lia.
  - reflexivity.
Qed.

Lemma check_av_opt_set_inv ctx key val :
  exists ok ctx',
    check_av_opt_set ctx key val = (ok, ctx', [EvOptSet key val ok])
    /\ flags ctx' = flags ctx /\ bit_rate ctx' = bit_rate ctx
    /\ rc_max_rate ctx' = rc_max_rate ctx /\ global_quality ctx' = global_quality ctx.
Proof.
  unfold check_av_opt_set.
  destruct (av_opt_accepts (codec ctx) key val); eexists _, _; repeat split; reflexivity.
Qed.

Lemma configure_qsv_rc_unknown ctx rc :
  qsv_rc_recognised rc = false ->
  configure_qsv_rc ctx rc = (None, ctx, [EvLog LOG_LEVEL_ERROR MSG_UNKNOWN_RC; EvExit 1]).
Proof.
  unfold qsv_rc_recognised, configure_qsv_rc. cbn [existsb].
  destruct (strcmp_eq rc "help"); [discriminate|].
  destruct (strcasecmp_eq rc "cbr"); [discriminate|].
  destruct (strcasecmp_eq rc "cqp"); [discriminate|].
  destruct (strcasecmp_eq rc "icq"); [discriminate|].
  destruct (strcasecmp_eq rc "qvbr"); [discriminate|].
  destruct (strcasecmp_eq rc "vbr"); [discriminate|].
  reflexivity.
Qed.

Lemma configure_qsv_rc_known ctx rc :
  qsv_rc_recognised rc = true ->
  ~ In (EvExit 1) (snd (configure_qsv_rc ctx rc)).
Proof.
  unfold qsv_rc_recognised, configure_qsv_rc. cbn [existsb].
  destruct (strcmp_eq rc "help").
  { intros _ [Hd | [Hd | []]]; discriminate. }
  destruct (strcasecmp_eq rc "cbr"); [intros _ []|].
  destruct (strcasecmp_eq rc "cqp"); [intros _ []|].
  destruct (strcasecmp_eq rc "icq").
  { cbn [orb]. destruct (strcasecmp_eq rc "qvbr"); [|intros _ []].
    destruct (0 <? _); intros _ []. }
  destruct (strcasecmp_eq rc "qvbr").
  { cbn [orb]. destruct (0 <? _); intros _ []. }
  destruct (strcasecmp_eq rc "vbr"); [intros _ [] | discriminate].
Qed.

Lemma interlaced_dct_keeps_qscale (x : Z) :
  Z.testbit (Z.lor x AV_CODEC_FLAG_INTERLACED_DCT) 1 = Z.testbit x 1.
Proof. rewrite Z.lor_spec. apply orb_false_r. Qed.

(** C8: the QSV H.264/HEVC tuning consumes the user's [rc] option (it goes
    on the blacklist of options not to be passed on), and asks the process
    to exit with status 1, after an error message asking to report the
    missing mode, exactly when the mode in force (the user's, or [vbr] when
    none was given) is neither [help] nor, in any letter case, one of
    [cbr], [cqp], [icq], [qvbr], [vbr]. In that case nothing is configured
    in its place: maximum rate, global quality, bitrate and the QSCALE flag
    are as family tuning found them. *)
Theorem qsv_unknown_rate_control_is_fatal
    (ctx : AVCodecContext) (param : setparam_param)
    (opts : gmap string string) (blacklist : gset string) :
  let rc := match opts !! "rc" with
            | Some v => v
            | None => DEFAULT_QSV_RC
            end in
  let r := configure_qsv_h264_hevc ctx param opts blacklist in
  let ctx' := snd (fst (fst r)) in
  (is_Some (opts !! "rc") -> "rc" ∈ snd (fst r))
  /\ (In (EvExit 1) (snd r) <-> qsv_rc_recognised rc = false)
  /\ (qsv_rc_recognised rc = false ->
      fst (fst (fst r)) = None
      /\ (exists evs0, snd r = evs0 ++ [EvLog LOG_LEVEL_ERROR MSG_UNKNOWN_RC; EvExit 1])
      /\ rc_max_rate ctx' = rc_max_rate ctx
      /\ global_quality ctx' = global_quality ctx
      /\ bit_rate ctx' = bit_rate ctx
      /\ Z.testbit (flags ctx') 1 = Z.testbit (flags ctx) 1).
Proof.
  cbv zeta. unfold configure_qsv_h264_hevc.
  destruct (check_av_opt_set_inv ctx "scenario" (OptStr "livestreaming"))
    as (ok1 & c1 & -> & Hf1 & Hb1 & Hm1 & Hg1).
  destruct (check_av_opt_set_inv c1 "async_depth" (OptInt 1))
    as (ok2 & c2 & -> & Hf2 & Hb2 & Hm2 & Hg2).
  assert (Hintra : exists c3 e3,
             (if negb (periodic_intra param =? 0)
              then
                let '(_, ctx0, a) := check_av_opt_set c2 "int_ref_type" (OptStr "vertical") in
                let '(_, ctx1, b) := check_av_opt_set ctx0 "int_ref_cycle_size" (OptInt 20) in
                (ctx1, a ++ b)
              else (c2, [])) = (c3, e3)
             /\ ~ In (EvExit 1) e3
             /\ flags c3 = flags c2 /\ bit_rate c3 = bit_rate c2
             /\ rc_max_rate c3 = rc_max_rate c2 /\ global_quality c3 = global_quality c2).
  { destruct (negb (periodic_intra param =? 0)).
    - destruct (check_av_opt_set_inv c2 "int_ref_type" (OptStr "vertical"))
        as (ok3 & c3 & -> & Hf3 & Hb3 & Hm3 & Hg3).
      destruct (check_av_opt_set_inv c3 "int_ref_cycle_size" (OptInt 20))
        as (ok4 & c4 & -> & Hf4 & Hb4 & Hm4 & Hg4).
      eexists _, _. split; [reflexivity|].
      split; [intros [Hd | [Hd | []]]; discriminate|].
      repeat split; congruence.
    - eexists _, _. split; [reflexivity|]. split; [intros []|]. repeat split. }
  destruct Hintra as (c3 & e3 & -> & He3 & Hf3 & Hb3 & Hm3 & Hg3).
  set (c4 := if bool_decide (interlacing (desc param) = INTERLACED_MERGED)
                && negb (interlaced_dct param =? 0)
             then set_flags (Z.lor (flags c3) AV_CODEC_FLAG_INTERLACED_DCT) c3
             else c3).
  assert (Hc4 : Z.testbit (flags c4) 1 = Z.testbit (flags c3) 1
                /\ bit_rate c4 = bit_rate c3 /\ rc_max_rate c4 = rc_max_rate c3
                /\ global_quality c4 = global_quality c3).
  { unfold c4. destruct (_ && _); [|repeat split].
    cbn [flags set_flags]. split; [apply interlaced_dct_keeps_qscale | repeat split]. }
  destruct Hc4 as (Hf4 & Hb4 & Hm4 & Hg4). clearbody c4.
  assert (Hev : forall e4,
             In (EvExit 1)
                ([EvOptSet "scenario" (OptStr "livestreaming") ok1]
                   ++ [EvOptSet "async_depth" (OptInt 1) ok2] ++ e3 ++ e4)
             <-> In (EvExit 1) e4).
  { intros e4. cbn [app]. split.
    - intros [Hd | [Hd | Hin]]; try discriminate.
      apply in_app_or in Hin as [Hin | Hin]; [contradiction | exact Hin].
    - intros Hin. right. right. apply in_or_app. now right. }
  destruct (opts !! "rc") as [v|] eqn:Hrc.
  - destruct (qsv_rc_recognised v) eqn:Hk.
    + pose proof (configure_qsv_rc_known c4 v Hk) as Hno.
      destruct (configure_qsv_rc c4 v) as [[c c5] e4]. cbn [fst snd] in *.
      split; [intros _; apply elem_of_union; left; now apply elem_of_singleton|].
      split; [rewrite Hev; split; [contradiction | discriminate] | discriminate].
    + rewrite (configure_qsv_rc_unknown c4 v Hk). cbn [fst snd].
      split; [intros _; apply elem_of_union; left; now apply elem_of_singleton|].
      split; [rewrite Hev; split; [reflexivity | intros _; right; left; reflexivity]|].
      intros _. split; [reflexivity|].
      split; [eexists; rewrite !app_assoc; reflexivity|].
      repeat split; congruence.
  - change (qsv_rc_recognised DEFAULT_QSV_RC) with true.
    pose proof (configure_qsv_rc_known c4 DEFAULT_QSV_RC eq_refl) as Hno.
    destruct (configure_qsv_rc c4 DEFAULT_QSV_RC) as [[c c5] e4]. cbn [fst snd] in *.
    split; [intros [x Hx]; discriminate|].
    split; [rewrite Hev; split; [contradiction | discriminate] | discriminate].
Qed.

End TunerProperties.

Lemma target_bitrate_mode_applies_bitrate_witness :
  bit_rate (snd (fst (set_codec_ctx_params_quality
                        (set_requested_bitrate 2000000 sample_state)
                        (sample_context sample_libx264) sample_desc H264)))
  = 2000000
  /\ bit_rate (snd (fst (set_codec_ctx_params_quality
                           sample_state (sample_context sample_h264_qsv) sample_desc H264)))
     = 14515200.
Proof.
  split.
  - refine (proj1 (target_bitrate_mode_applies_bitrate
                     (set_requested_bitrate 2000000 sample_state)
                     (sample_context sample_libx264) sample_desc H264 _ _) _).
    + vm_compute. reflexivity.
    + vm_compute. reflexivity.
    + cbn [requested_bitrate set_requested_bitrate]. lia.
  - etransitivity.
    + refine (proj1 (proj2 (target_bitrate_mode_applies_bitrate
                       sample_state (sample_context sample_h264_qsv) sample_desc H264 _ _)) _).
      * vm_compute. reflexivity.
      * vm_compute. reflexivity.
      * vm_compute. discriminate.
    + vm_compute. reflexivity.
Defined.

(* ===================================================================== *)
(** ** Further properties *)
(* ===================================================================== *)

(** *** Translations of lavc_common.c *)

Lemma get_av_to_ug_codec_table (av : AVCodecID) :
  get_av_to_ug_codec av
  = match find (fun r : AVCodecID * codec_t => bool_decide (r.1 = av)) av_to_uv_map with
    | Some r => r.2
    | None => VIDEO_CODEC_NONE
    end.
Proof. destruct av; reflexivity. Qed.

Lemma get_ug_to_av_codec_table (ug : codec_t) :
  get_ug_to_av_codec ug
  = match find (fun r : AVCodecID * codec_t => bool_decide (r.2 = ug)) av_to_uv_map with
    | Some r => r.1
    | None => AV_CODEC_ID_NONE
    end.
Proof. destruct ug; reflexivity. Qed.

(** X1: the two codec translations read the same table, each returning
    the first row that matches, and they are inverse to each other wherever
    they are defined: a codec that one of them translates is given back by
    the other. *)
Theorem codec_translation_round_trip :
  (forall av, get_av_to_ug_codec av
              = match find (fun r : AVCodecID * codec_t => bool_decide (r.1 = av)) av_to_uv_map with
                | Some r => r.2
                | None => VIDEO_CODEC_NONE
                end)
  /\ (forall ug, get_ug_to_av_codec ug
                 = match find (fun r : AVCodecID * codec_t => bool_decide (r.2 = ug)) av_to_uv_map with
                   | Some r => r.1
                   | None => AV_CODEC_ID_NONE
                   end)
  /\ (forall av, get_av_to_ug_codec av <> VIDEO_CODEC_NONE ->
                 get_ug_to_av_codec (get_av_to_ug_codec av) = av)
  /\ (forall ug, get_ug_to_av_codec ug <> AV_CODEC_ID_NONE ->
                 get_av_to_ug_codec (get_ug_to_av_codec ug) = ug).
Proof.
  split; [exact get_av_to_ug_codec_table|].
  split; [exact get_ug_to_av_codec_table|].
  split.
  - intros av Hav. destruct av; try reflexivity; simpl in Hav; congruence.
  - intros ug Hug. destruct ug; try reflexivity; simpl in Hug; congruence.
Qed.

Lemma av_to_uv_log_cases (level : Z) :
  let q := Z.quot level 8 in
  (q <= 0 /\ av_to_uv_log level = q + 1)
  \/ (1 <= q <= 3 /\ av_to_uv_log level = q)
  \/ (4 <= q /\ av_to_uv_log level = q + 1).
Proof.
  cbv zeta. unfold av_to_uv_log.
  destruct (Z.leb_spec (Z.quot level 8) 0); [left; lia|].
  destruct (Z.leb_spec (Z.quot level 8) 3); [right; left; lia | right; right; lia].
Qed.

(** X2: [av_to_uv_log] keeps the order of log levels (a more verbose FFmpeg
    level never comes out as a less verbose UltraGrid level), and no FFmpeg
    level comes out as level 4. *)
Theorem av_to_uv_log_monotone :
  (forall a b, a <= b -> av_to_uv_log a <= av_to_uv_log b)
  /\ (forall a, av_to_uv_log a <> 4).
Proof.
  split.
  - intros a b Hab.
    assert (Hq : Z.quot a 8 <= Z.quot b 8) by (apply Z.quot_le_mono; lia).
    pose proof (av_to_uv_log_cases a) as Ha. pose proof (av_to_uv_log_cases b) as Hb.
    cbv zeta in Ha, Hb. lia.
  - intros a. pose proof (av_to_uv_log_cases a) as Ha. cbv zeta in Ha. lia.
Qed.

Section LavcCommonProperties.
Context `{Platform}.

(** X3: with UltraGrid's levels (quiet = 0, notice = 4), translating an
    UltraGrid log level to FFmpeg's scale and back gives the level itself,
    except for level 4 (notice), which shares FFmpeg's level with level 5
    and comes back as 5. *)
Theorem log_level_round_trip (level : Z) :
  log_level_quiet = 0 ->
  log_level_notice = 4 ->
  0 <= level < 2 ^ 27 ->
  av_to_uv_log (uv_to_av_log level) = if level =? 4 then 5 else level.
Proof.
  intros Hq Hn Hl. unfold uv_to_av_log. cbv zeta. rewrite Hq, Hn.
  assert (Hw : wrap_int (level * 8) = level * 8).
  { unfold wrap_int. rewrite Z.mod_small by lia. lia. }
  rewrite Hw. change (8 * 0) with 0. change (8 * 4) with 32.
  assert (Hw8 : wrap_int (level * 8 - 8) = level * 8 - 8).
  { unfold wrap_int. rewrite Z.mod_small by lia. lia. }
  rewrite Hw8.
  destruct (Z.eqb_spec (level * 8) 0) as [H0|H0].
  - assert (level = 0) by lia. subst. reflexivity.
  - destruct (Z.leb_spec (level * 8) 32) as [H4|H4].
    + assert (Hc : level = 1 \/ level = 2 \/ level = 3 \/ level = 4) by lia.
      destruct Hc as [->|[->|[->| ->]]]; reflexivity.
    + destruct (Z.eqb_spec level 4) as [->|Hne]; [lia|].
      replace (level * 8 - 8) with ((level - 1) * 8) by lia.
      unfold av_to_uv_log. rewrite Z.quot_mul by lia.
      destruct (Z.leb_spec (level - 1) 0); [lia|].
      destruct (Z.leb_spec (level - 1) 3); lia.
Qed.

(** X4: the two views of chroma subsampling agree: a format has 4:2:0
    subsampling for [pixfmt_has_420_subsampling] exactly when
    [av_pixfmt_get_subsampling] gives 4200 for it; a format FFmpeg does not
    know is not 4:2:0 for the first, while the second dereferences the
    null descriptor. *)
Theorem subsampling_views_agree (fmt : AVPixelFormat) :
  (pixfmt_has_420_subsampling fmt = true <-> av_pixfmt_get_subsampling fmt = inr 4200)
  /\ (av_pix_fmt_desc_get fmt = None <-> av_pixfmt_get_subsampling fmt = inl NullDereference)
  /\ (forall v, av_pixfmt_get_subsampling fmt = inr v -> v = 4440 \/ v = 4220 \/ v = 4200 \/ v = 0).
Proof.
  unfold pixfmt_has_420_subsampling, av_pixfmt_get_subsampling.
  destruct (av_pix_fmt_desc_get fmt) as [pd|].
  - split; [|split].
    + destruct (Z.eqb_spec (log2_chroma_w pd) 0) as [Hw0|Hw0];
        destruct (Z.eqb_spec (log2_chroma_h pd) 0) as [Hh0|Hh0];
        destruct (Z.eqb_spec (log2_chroma_w pd) 1) as [Hw1|Hw1];
        destruct (Z.eqb_spec (log2_chroma_h pd) 1) as [Hh1|Hh1];
        cbn [andb]; split; intros Heq; try reflexivity; try discriminate; try lia.
    + split; discriminate.
    + intros v Hv. inversion Hv.
      repeat match goal with
             | |- context [if ?b then _ else _] => destruct b
             end; auto.
  - split; [|split].
    + split; discriminate.
    + split; reflexivity.
    + discriminate.
Qed.

(** X5: [pixfmt_list_has_420_subsampling] answers [true] exactly when every
    format of the array, up to its terminator, is 4:2:0 or hardware
    accelerated; it stops at the first format that is neither, with [false]
    when FFmpeg knows the format and by dereferencing a null descriptor
    when it does not. *)
Theorem pixfmt_list_has_420_subsampling_spec (arr : list AVPixelFormat) :
  (pixfmt_list_has_420_subsampling arr = inr true
   <-> Forall (fun f => is_420_or_hwaccel f = true) (array_entries arr))
  /\ (forall pre f post,
        array_entries arr = pre ++ f :: post ->
        Forall (fun g => is_420_or_hwaccel g = true) pre ->
        is_420_or_hwaccel f = false ->
        pixfmt_list_has_420_subsampling arr
        = match av_pix_fmt_desc_get f with
          | Some _ => inr false
          | None => inl NullDereference
          end).
Proof.
  split.
  - induction arr as [|x arr IH]; simpl.
    + split; [constructor | reflexivity].
    + destruct (x =? AV_PIX_FMT_NONE); [split; [constructor | reflexivity]|].
      unfold pixfmt_has_420_subsampling.
      rewrite Forall_cons. unfold is_420_or_hwaccel at 1.
      destruct (av_pix_fmt_desc_get x) as [pd|].
      * destruct ((log2_chroma_w pd =? 1) && (log2_chroma_h pd =? 1)); cbn [orb].
        -- rewrite IH. tauto.
        -- destruct (Z.land (pixdesc_flags pd) AV_PIX_FMT_FLAG_HWACCEL =? 0); cbn [negb].
           ++ split; [discriminate | intros [? _]; discriminate].
           ++ rewrite IH. tauto.
      * split; [discriminate | intros [? _]; discriminate].
  - induction arr as [|x arr IH]; intros pre f post Harr Hpre Hf; simpl in Harr.
    + destruct pre; discriminate.
    + destruct (x =? AV_PIX_FMT_NONE) eqn:Hx; [destruct pre; discriminate|].
      simpl. rewrite Hx.
      destruct pre as [|p pre]; simpl in Harr; inversion Harr; subst.
      * unfold is_420_or_hwaccel in Hf. unfold pixfmt_has_420_subsampling.
        destruct (av_pix_fmt_desc_get f) as [pd|]; [|reflexivity].
        apply orb_false_iff in Hf as [-> Hhw].
        apply negb_false_iff in Hhw. now rewrite Hhw.
      * apply Forall_cons in Hpre as [Hp Hpre].
        unfold is_420_or_hwaccel in Hp. unfold pixfmt_has_420_subsampling.
        destruct (av_pix_fmt_desc_get p) as [pd|]; [|discriminate].
        destruct ((log2_chroma_w pd =? 1) && (log2_chroma_h pd =? 1)); cbn [orb] in Hp.
        -- eapply IH; eauto.
        -- apply negb_true_iff in Hp. rewrite Hp. eapply IH; eauto.
Qed.

End LavcCommonProperties.

Lemma log_level_round_trip_witness :
  av_to_uv_log (uv_to_av_log 3) = 3 /\ av_to_uv_log (uv_to_av_log 4) = 5.
Proof.
  split.
  - apply (log_level_round_trip 3); [reflexivity | reflexivity | lia].
  - apply (log_level_round_trip 4); [reflexivity | reflexivity | lia].
Defined.

(** *** The option parser and the messages *)

Section ParserProperties.
Context `{Collaborators}.

Lemma parse_item_help (s : state) (h : bool) (item : string) (s' : state) (h' : bool) :
  parse_item s h item = Continue s' h' -> h' = h || starts_with_ci "help" item.
Proof.
  unfold parse_item.
  destruct (starts_with_ci "help" item).
  - intros Heq. inversion Heq. now rewrite orb_true_r.
  - rewrite orb_false_r.
    repeat match goal with
           | |- (if ?b then _ else _) = _ -> _ => destruct b
           | |- (match ?x with _ => _ end) = _ -> _ => destruct x
           | |- (let s := _ in _) = _ -> _ => cbv zeta
           end;
      intros Heq; inversion Heq; reflexivity.
Qed.

Lemma parse_item_stop (s : state) (h : bool) (item : string) (st : parse_status) (s' : state) :
  parse_item s h item = Stop st s' -> st = Returned (-1) \/ exists c, st = Crashed c.
Proof.
  unfold parse_item.
  repeat match goal with
         | |- (if ?b then _ else _) = _ -> _ => destruct b
         | |- (match ?x with _ => _ end) = _ -> _ => destruct x
         | |- (let s := _ in _) = _ -> _ => cbv zeta
         end;
    intros Heq; inversion Heq; eauto.
Qed.

Lemma apply_items_help (items : list string) :
  forall s h s' h',
    apply_items s h items = Some (s', h') ->
    h' = h || existsb (starts_with_ci "help") items.
Proof.
  induction items as [|item items IH]; intros s h s' h' Ha; simpl in Ha.
  - inversion Ha. simpl. now rewrite orb_false_r.
  - destruct (parse_item s h item) as [s1 h1|st s1] eqn:Hitem; [|discriminate].
    apply parse_item_help in Hitem. apply IH in Ha. subst. simpl.
    now rewrite orb_assoc.
Qed.

Lemma parse_items_apply_items (items : list string) :
  forall s h,
    match apply_items s h items with
    | Some (s', h') => parse_items s h items = parse_fmt_finish s' h'
    | None => fst (parse_items s h items) = Returned (-1)
              \/ exists c, fst (parse_items s h items) = Crashed c
    end.
Proof.
  induction items as [|item items IH]; intros s h; simpl.
  - reflexivity.
  - destruct (parse_item s h item) as [s1 h1|st s1] eqn:Hitem.
    + apply IH.
    + simpl. apply parse_item_stop in Hitem. exact Hitem.
Qed.

(** X6: what [parse_fmt] returns. When the loop accepts every token of the
    configuration, the result is 1 if some token starts with [help] (in any
    letter case) or the parameter [lavc-use-codec] is [help], and 0
    otherwise, and the state is the one the tokens built, with the
    original-format flag set when [keep-pixfmt] is given. When a token is
    not accepted the result is -1, or the process stops on an exception or
    assertion; a help request does not change that. *)
Theorem parse_fmt_return_value (s : state) (cfg : string) :
  match apply_items s false (config_tokens cfg) with
  | Some (s', h) =>
      h = existsb (starts_with_ci "help") (config_tokens cfg)
      /\ parse_fmt s (Some cfg)
         = (Returned (if h || use_codec_help then 1 else 0),
            match get_commandline_param "keep-pixfmt" with
            | Some _ => set_store_orig_format true s'
            | None => s'
            end)
  | None =>
      fst (parse_fmt s (Some cfg)) = Returned (-1)
      \/ exists c, fst (parse_fmt s (Some cfg)) = Crashed c
  end.
Proof.
  unfold parse_fmt, config_tokens.
  pose proof (parse_items_apply_items (strtok_all ":" (escape_colons cfg)) s false) as Hp.
  destruct (apply_items s false (strtok_all ":" (escape_colons cfg))) as [[s' h]|] eqn:Ha.
  - split.
    + apply apply_items_help in Ha. exact Ha.
    + rewrite Hp. reflexivity.
  - exact Hp.
Qed.

(** X7: [libavcodec_compress_init] hands back a module exactly when every
    token of the configuration is accepted and no help was asked for; when
    every token is accepted and help was asked for (by a token or by
    [lavc-use-codec]), it returns [INIT_NOERR]: the program has nothing to
    run, and that is no error. *)
Theorem compress_init_result (conv_threads : Z) (cfg : string) :
  let accepted := apply_items (initial_state conv_threads) false (config_tokens cfg) in
  let help := existsb (starts_with_ci "help") (config_tokens cfg) || use_codec_help in
  ((exists s, libavcodec_compress_init conv_threads cfg = InitModule s)
   <-> is_Some accepted /\ help = false)
  /\ (libavcodec_compress_init conv_threads cfg = INIT_NOERR
      <-> is_Some accepted /\ help = true)
  /\ (accepted = None ->
      libavcodec_compress_init conv_threads cfg = InitNULL
      \/ exists c, libavcodec_compress_init conv_threads cfg = InitCrashed c).
Proof.
  cbv zeta. unfold libavcodec_compress_init.
  pose proof (parse_fmt_return_value (initial_state conv_threads) cfg) as Hp.
  destruct (apply_items (initial_state conv_threads) false (config_tokens cfg))
    as [[s' h]|] eqn:Ha.
  - destruct Hp as [Hh Hp]. rewrite Hp, <- Hh.
    destruct (h || use_codec_help); cbn.
    + split; [|split].
      * split; [intros [s0 Hs0]; discriminate | intros [_ ?]; discriminate].
      * split; [intros _; split; [eauto | reflexivity] | reflexivity].
      * discriminate.
    + split; [|split].
      * split; [intros _; split; [eauto | reflexivity] | intros _; eauto].
      * split; [discriminate | intros [_ ?]; discriminate].
      * discriminate.
  - destruct (parse_fmt (initial_state conv_threads) (Some cfg)) as [st s1].
    cbn [fst] in Hp. split; [|split].
    + split.
      * intros [s0 Hs0]. destruct Hp as [-> | [c ->]]; discriminate.
      * intros [[x Hx] _]. discriminate.
    + split.
      * intros Hs0. destruct Hp as [-> | [c ->]]; discriminate.
      * intros [[x Hx] _]. discriminate.
    + intros _. destruct Hp as [-> | [c ->]]; [left; reflexivity | right; eauto].
Qed.


End ParserProperties.

(** *** Encoder selection, negotiation and configuration *)

Lemma erase_first_sublist (x : AVPixelFormat) (l : list AVPixelFormat) :
  sublist (erase_first x l) l.
Proof.
  induction l as [|y l IH]; simpl; [constructor|].
  destruct (y =? x).
  - apply sublist_cons. reflexivity.
  - apply sublist_skip. exact IH.
Qed.

Lemma erase_first_length (x : AVPixelFormat) (l : list AVPixelFormat) :
  (length l <= S (length (erase_first x l)))%nat.
Proof.
  induction l as [|y l IH]; simpl; [lia|].
  destruct (y =? x); simpl; lia.
Qed.

Lemma erase_first_other (x f : AVPixelFormat) (l : list AVPixelFormat) :
  f <> x -> In f l -> In f (erase_first x l).
Proof.
  intros Hne. induction l as [|y l IH]; simpl; [tauto|].
  intros [->|Hin].
  - destruct (Z.eqb_spec f x); [contradiction | left; reflexivity].
  - destruct (y =? x); [exact Hin | right; auto].
Qed.

Section SelectionProperties.
Context `{Collaborators}.

(** X9: the encoder [get_av_codec] returns fits the request. With an
    explicit backend name the encoder is the one FFmpeg finds under that
    name, the output codec becomes the codec of that encoder, which
    UltraGrid must know, and a requested codec must be that very codec;
    without a backend name the output codec stays as requested. *)
Theorem get_av_codec_fits_request
    (s : state) (ug_codec : codec_t) (src_rgb : bool) (enc : AVCodec) (ug' : codec_t) :
  get_av_codec s ug_codec src_rgb = (Some enc, ug') ->
  (backend s <> "" ->
   avcodec_find_encoder_by_name (backend s) = Some enc
   /\ ug' = get_av_to_ug_codec (id enc)
   /\ ug' <> VIDEO_CODEC_NONE
   /\ (requested_codec_id s <> VIDEO_CODEC_NONE -> requested_codec_id s = ug'))
  /\ (backend s = "" -> ug' = ug_codec).
Proof.
  unfold get_av_codec. intros Hget.
  destruct (String.eqb_spec (backend s) "") as [Hb|Hb]; cbn [negb] in Hget.
  - split; [contradiction|]. intros _.
    destruct (codec_params ug_codec) as [[[pref|] ? ?]|]; inversion Hget; reflexivity.
  - split; [|contradiction]. intros _.
    destruct (avcodec_find_encoder_by_name (backend s)) as [found|]; [|discriminate].
    destruct (decide (requested_codec_id s = VIDEO_CODEC_NONE)) as [Hr|Hr].
    + rewrite bool_decide_true in Hget by exact Hr. cbn [negb andb] in Hget.
      destruct (decide (get_av_to_ug_codec (id found) = VIDEO_CODEC_NONE)) as [Hn|Hn].
      * rewrite bool_decide_true in Hget by exact Hn. discriminate.
      * rewrite bool_decide_false in Hget by exact Hn. inversion Hget; subst.
        repeat split; auto. intros Hc. contradiction.
    + rewrite (bool_decide_false _ Hr) in Hget. cbn [negb andb] in Hget.
      destruct (decide (requested_codec_id s = get_av_to_ug_codec (id found))) as [He|He].
      * rewrite (bool_decide_true _ He) in Hget. cbn [negb] in Hget.
        destruct (decide (get_av_to_ug_codec (id found) = VIDEO_CODEC_NONE)) as [Hn|Hn].
        -- rewrite bool_decide_true in Hget by exact Hn. discriminate.
        -- rewrite bool_decide_false in Hget by exact Hn. inversion Hget; subst.
           repeat split; auto.
      * rewrite (bool_decide_false _ He) in Hget. discriminate.
Qed.

(** X10: the blacklist of pixel formats never empties the candidate list
    and removes nothing but the one format: what [apply_blacklist] returns
    is a subsequence of the candidates, at most one shorter, non-empty when
    the candidates are, with every format other than X2RGB10LE still in it;
    for an encoder whose name does not contain [nvenc] it is the candidate
    list itself. *)
Theorem apply_blacklist_keeps_candidates (formats : list AVPixelFormat) (encoder_name : string) :
  sublist (apply_blacklist formats encoder_name) formats
  /\ (length formats <= S (length (apply_blacklist formats encoder_name)))%nat
  /\ (formats <> [] -> apply_blacklist formats encoder_name <> [])
  /\ (forall f, In f formats -> Some f <> AV_PIX_FMT_X2RGB10LE ->
                In f (apply_blacklist formats encoder_name))
  /\ (contains "nvenc" encoder_name = false -> apply_blacklist formats encoder_name = formats).
Proof.
  unfold apply_blacklist.
  destruct AV_PIX_FMT_X2RGB10LE as [x|].
  2:{ repeat split; auto; lia. }
  destruct (contains "nvenc" encoder_name).
  2:{ repeat split; auto; lia. }
  destruct (Nat.eqb_spec (length formats) 1) as [H1|H1].
  { repeat split; auto; lia. }
  split; [apply erase_first_sublist|].
  split; [apply erase_first_length|].
  split.
  - intros Hne Hnil. pose proof (erase_first_length x formats) as Hlen.
    rewrite Hnil in Hlen. simpl in Hlen.
    destruct formats as [|a [|b l]]; simpl in *; try congruence; lia.
  - split; [|discriminate].
    intros f Hin Hf. apply erase_first_other; [congruence | exact Hin].
Qed.

(** X11: the swscale fallback of [configure_with] tries only formats of
    the encoder's own list that FFmpeg knows as software formats, in the
    order of that list, each position at most once. *)
Theorem swscale_fallback_tries_software_formats
    (d : video_desc) (ug_codec : codec_t) (enc : AVCodec) (s : state) (pix : list AVPixelFormat) :
  let evs := snd (swscale_fallback d ug_codec enc s pix) in
  sublist (trial_fmts evs) (array_entries pix)
  /\ Forall (fun f => pix_fmt_is_software f = true) (trial_fmts evs)
  /\ length (trial_fmts evs) = length evs.
Proof.
  cbv zeta. revert s.
  induction pix as [|p rest IH]; intros s; cbn [swscale_fallback array_entries].
  - repeat split; constructor.
  - destruct (p =? AV_PIX_FMT_NONE); [repeat split; constructor|].
    destruct (pix_fmt_is_software p) eqn:Hp.
    + destruct (try_open_codec s p d ug_codec enc) as [[[] curr] s'].
      * cbn [snd trial_fmts length]. split; [|split; [|reflexivity]].
        -- apply sublist_skip. apply sublist_nil_l.
        -- constructor; [exact Hp | constructor].
      * specialize (IH s').
        destruct (swscale_fallback d ug_codec enc s' rest) as [[r s''] evs].
        cbn [snd trial_fmts length] in *. destruct IH as (Hsub & Hall & Hlen).
        split; [apply sublist_skip; exact Hsub|].
        split; [constructor; assumption | now rewrite Hlen].
    + destruct (IH s) as (Hsub & Hall & Hlen).
      split; [apply sublist_cons; exact Hsub | split; assumption].
Qed.

End SelectionProperties.

Section ConfigurationProperties.
Context `{Collaborators}.








(** X13: an encoder that advertises no list of pixel formats is never
    opened by [configure_with]: the negotiation makes no trial, and then,
    in a build with swscale and without [lavc-use-codec], the fallback loop
    reads the null pointer; otherwise [configure_with] returns false. *)
Theorem encoder_without_formats_is_not_opened
    (s : state) (d : video_desc) (enc : AVCodec) (ug : codec_t) :
  get_av_codec s (if bool_decide (requested_codec_id s = VIDEO_CODEC_NONE)
                  then DEFAULT_CODEC else requested_codec_id s)
               (codec_is_a_rgb (color_spec d)) = (Some enc, ug) ->
  pix_fmts enc = None ->
  let '(r, _, evs) := configure_with s d in
  trial_fmts evs = []
  /\ r = if have_swscale && negb (bool_decide (is_Some (get_commandline_param "lavc-use-codec")))
         then ConfigureCrashed NullDereference else NotConfigured.
Proof.
  intros Hget Hnone. unfold configure_with.
  set (ug0 := if bool_decide (requested_codec_id s = VIDEO_CODEC_NONE)
              then DEFAULT_CODEC else requested_codec_id s) in *.
  match goal with
  | |- context [get_av_codec ?sx ug0 ?b] =>
      change (get_av_codec sx ug0 b) with (get_av_codec s ug0 b);
      set (s0 := sx)
  end.
  rewrite Hget.
  assert (Hev0 : trial_fmts (get_requested_pix_fmts (color_spec d) (req_conv_prop s0)).2 = []).
  { unfold get_requested_pix_fmts.
    repeat match goal with
           | |- context [match ?x with _ => _ end] => destruct x
           end; reflexivity. }
  destruct (get_requested_pix_fmts (color_spec d) (req_conv_prop s0)) as [requested ev0].
  cbn [snd] in Hev0.
  rewrite negotiate_step, Hnone. cbn [get_first_matching_pix_fmt].
  change (AV_PIX_FMT_NONE =? AV_PIX_FMT_NONE) with true. cbv iota beta.
  rewrite andb_true_r.
  destruct (have_swscale && negb (bool_decide (is_Some (get_commandline_param "lavc-use-codec")))).
  - rewrite app_nil_r. auto.
  - cbv iota beta. change (AV_PIX_FMT_NONE =? AV_PIX_FMT_NONE) with true. cbv iota.
    rewrite !app_nil_r. auto.
Qed.

End ConfigurationProperties.

Lemma encoder_without_formats_is_not_opened_witness :
  fst (fst (@configure_with sample_collaborators_swscale
              (set_backend "libx264" sample_state) sample_desc))
  = ConfigureCrashed NullDereference.
Proof.
  pose proof (@encoder_without_formats_is_not_opened sample_collaborators_swscale
                (set_backend "libx264" sample_state) sample_desc
                sample_encoder_without_formats H264 eq_refl eq_refl) as Hw.
  destruct (@configure_with sample_collaborators_swscale
              (set_backend "libx264" sample_state) sample_desc) as [[r s'] evs].
  destruct Hw as [_ Hr]. exact Hr.
Defined.

(** *** The parameter tuner *)

Section TunerLogic.
Context `{Collaborators} `{Platform}.

Lemma tuner_triple_conseq {A} (P P' : tuning -> Prop) (m : tuner A)
    (Q Q' : A -> tuning -> Prop) (E E' : event -> Prop) :
  tuner_triple P m Q E ->
  (forall t, P' t -> P t) -> (forall a t, Q a t -> Q' a t) -> (forall e, E e -> E' e) ->
  tuner_triple P' m Q' E'.
Proof.
  intros Hm HP HQ HE t Ht. destruct (Hm t (HP t Ht)) as [Hev Hq]. split.
  - eapply Forall_impl; [exact Hev | exact HE].
  - intros a Ha. apply HQ. now apply Hq.
Qed.

Lemma tuner_triple_ret {A} (P : tuning -> Prop) (a : A) (Q : A -> tuning -> Prop) E :
  (forall t, P t -> Q a t) -> tuner_triple P (tuner_ret a) Q E.
Proof.
  intros HPQ t Ht. split; [constructor|]. intros a' Ha'. inversion Ha'; subst. now apply HPQ.
Qed.

Lemma tuner_triple_stop {A} (P : tuning -> Prop) (c : crash) (Q : A -> tuning -> Prop) E :
  tuner_triple P (tuner_stop c) Q E.
Proof. intros t Ht. split; [constructor | discriminate]. Qed.

Lemma tuner_triple_bind {A B} (P : tuning -> Prop) (m : tuner A) (Q1 : A -> tuning -> Prop)
    (k : A -> tuner B) (Q2 : B -> tuning -> Prop) E :
  tuner_triple P m Q1 E ->
  (forall a, tuner_triple (Q1 a) (k a) Q2 E) ->
  tuner_triple P (tuner_bind m k) Q2 E.
Proof.
  intros Hm Hk t Ht. unfold tuner_bind.
  destruct (Hm t Ht) as [Hev Hq].
  destruct (m t) as [[[c|a] t'] evs]; cbn [fst snd] in *.
  - split; [exact Hev | discriminate].
  - destruct (Hk a t' (Hq a eq_refl)) as [Hev' Hq'].
    destruct (k a t') as [[r t''] evs']. cbn [fst snd] in *.
    split; [apply Forall_app; auto | exact Hq'].
Qed.

Lemma tuner_triple_get_bind {B} (P : tuning -> Prop) (k : tuning -> tuner B)
    (Q : B -> tuning -> Prop) E :
  (forall t0, P t0 -> tuner_triple (fun t => t = t0) (k t0) Q E) ->
  tuner_triple P (tuner_bind tuner_get k) Q E.
Proof.
  intros Hk t Ht. unfold tuner_bind, tuner_get.
  destruct (Hk t Ht t eq_refl) as [Hev Hq].
  destruct (k t t) as [[r t''] evs']. cbn [fst snd] in *. auto.
Qed.

Lemma tuner_keeps_ret {A} J E (a : A) : tuner_keeps J E (tuner_ret a).
Proof. apply tuner_triple_ret. auto. Qed.

Lemma tuner_keeps_stop {A} J E (c : crash) : tuner_keeps J E (@tuner_stop A c).
Proof. apply tuner_triple_stop. Qed.

Lemma tuner_keeps_emit J (E : event -> Prop) (e : event) : E e -> tuner_keeps J E (tuner_emit e).
Proof.
  intros He t Ht. split; [repeat constructor; exact He|]. intros a _. exact Ht.
Qed.

Lemma tuner_keeps_bind {A B} J E (m : tuner A) (k : A -> tuner B) :
  tuner_keeps J E m -> (forall a, tuner_keeps J E (k a)) -> tuner_keeps J E (tuner_bind m k).
Proof. intros Hm Hk. eapply tuner_triple_bind; [exact Hm | exact Hk]. Qed.

Lemma tuner_keeps_get_bind {B} (J : tuning -> Prop) E (k : tuning -> tuner B) :
  (forall t0, J t0 -> tuner_keeps J E (k t0)) -> tuner_keeps J E (tuner_bind tuner_get k).
Proof.
  intros Hk. apply tuner_triple_get_bind. intros t0 Ht0.
  eapply tuner_triple_conseq; [apply (Hk t0 Ht0) | | auto | auto].
  intros t Heq. rewrite Heq. exact Ht0.
Qed.

Lemma tuner_keeps_when J E (b : bool) (m : tuner unit) :
  (b = true -> tuner_keeps J E m) -> tuner_keeps J E (tuner_when b m).
Proof. destruct b; simpl; [auto | intros _; apply tuner_keeps_ret]. Qed.

Lemma tuner_keeps_if {A} J E (b : bool) (m1 m2 : tuner A) :
  (b = true -> tuner_keeps J E m1) -> (b = false -> tuner_keeps J E m2) ->
  tuner_keeps J E (if b then m1 else m2).
Proof. destruct b; auto. Qed.

(** The primitive steps keep the frame. *)

Lemma frame_modify_ctx enc hp bl0 E (f : AVCodecContext -> AVCodecContext) :
  (forall c, codec (f c) = codec c) -> tuner_keeps (tuner_frame enc hp bl0) E (modify_ctx f).
Proof.
  intros Hf t (Hc & Hp & Hb1 & Hb2). split; [constructor|]. intros _ _.
  repeat split; cbn; auto. now rewrite Hf.
Qed.

Lemma frame_modify_tail enc hp bl0 E (f : AVCodecContextTail -> AVCodecContextTail) :
  tuner_keeps (tuner_frame enc hp bl0) E (modify_tail f).
Proof. intros t Ht. split; [constructor|]. intros _ _. exact Ht. Qed.

Lemma frame_modify_param enc hp bl0 E (f : setparam_param -> setparam_param) :
  (forall p, have_preset (f p) = have_preset p) ->
  tuner_keeps (tuner_frame enc hp bl0) E (modify_param f).
Proof.
  intros Hf t (Hc & Hp & Hb1 & Hb2). split; [constructor|]. intros _ _.
  repeat split; cbn; auto. now rewrite Hf.
Qed.

Lemma frame_blacklist_insert enc hp bl0 E (key : string) :
  key = "rc" \/ key = "x265-params" ->
  tuner_keeps (tuner_frame enc hp bl0) E (blacklist_insert key).
Proof.
  intros Hk t (Hc & Hp & Hb1 & Hb2). split; [constructor|]. intros _ _.
  repeat split; cbn; auto.
  - etrans; [exact Hb1 | apply union_subseteq_r].
  - apply union_least; [|exact Hb2].
    apply singleton_subseteq_l, elem_of_union. right.
    apply elem_of_union. destruct Hk as [-> | ->]; [left | right]; now apply elem_of_singleton.
Qed.

Lemma frame_opt_set enc hp bl0 (K : string -> Prop) (key : string) (val : opt_val) :
  K key -> tuner_keeps (tuner_frame enc hp bl0) (option_keys K) (opt_set key val).
Proof.
  intros HK t (Hc & Hp & Hb1 & Hb2). unfold opt_set, check_av_opt_set. cbn [fst snd].
  split; [repeat constructor; exact HK|]. intros _ _.
  repeat split; cbn; auto.
  destruct (av_opt_accepts (codec (t_ctx t)) key val); exact Hc.
Qed.

Lemma frame_opt_set_ enc hp bl0 (K : string -> Prop) (key : string) (val : opt_val) :
  K key -> tuner_keeps (tuner_frame enc hp bl0) (option_keys K) (opt_set_ key val).
Proof.
  intros HK. apply tuner_keeps_bind; [now apply frame_opt_set | intros _; apply tuner_keeps_ret].
Qed.

End TunerLogic.

Section TunerProperties2.
Context `{Collaborators} `{Platform}.

Lemma configure_qsv_rc_frame (ctx : AVCodecContext) (rc : string) :
  codec (configure_qsv_rc ctx rc).1.2 = codec ctx
  /\ forall K, Forall (option_keys K) (configure_qsv_rc ctx rc).2.
Proof.
  unfold configure_qsv_rc.
  repeat match goal with
         | |- context [if ?b then _ else _] => destruct b
         end; cbn; split; try reflexivity; intros K; repeat constructor.
Qed.

Lemma check_av_opt_set_keys (ctx : AVCodecContext) (key : string) (val : opt_val) :
  exists ok ctx',
    check_av_opt_set ctx key val = (ok, ctx', [EvOptSet key val ok])
    /\ codec ctx' = codec ctx.
Proof.
  unfold check_av_opt_set.
  destruct (av_opt_accepts (codec ctx) key val); eexists _, _; split; reflexivity.
Qed.

Lemma configure_qsv_frame enc hp bl0 (K : string -> Prop) (opts : gmap string string) :
  K "scenario" -> K "async_depth" -> K "int_ref_type" -> K "int_ref_cycle_size" ->
  tuner_triple (tuner_frame enc hp bl0) (configure_qsv opts)
    (fun _ t => tuner_frame enc hp bl0 t /\ (is_Some (opts !! "rc") -> "rc" ∈ t_blacklist t))
    (option_keys K).
Proof.
  intros K1 K2 K3 K4 t (Hc & Hp & Hb1 & Hb2).
  unfold configure_qsv, configure_qsv_h264_hevc.
  destruct (check_av_opt_set_keys (t_ctx t) "scenario" (OptStr "livestreaming"))
    as (ok1 & c1 & -> & Hc1).
  destruct (check_av_opt_set_keys c1 "async_depth" (OptInt 1)) as (ok2 & c2 & -> & Hc2).
  assert (Hintra : exists c3 e3,
             (if negb (periodic_intra (t_param t) =? 0)
              then
                let '(_, ctx0, a) := check_av_opt_set c2 "int_ref_type" (OptStr "vertical") in
                let '(_, ctx1, b) := check_av_opt_set ctx0 "int_ref_cycle_size" (OptInt 20) in
                (ctx1, a ++ b)
              else (c2, [])) = (c3, e3)
             /\ codec c3 = codec c2 /\ Forall (option_keys K) e3).
  { destruct (negb (periodic_intra (t_param t) =? 0)).
    - destruct (check_av_opt_set_keys c2 "int_ref_type" (OptStr "vertical"))
        as (ok3 & c3 & -> & Hc3).
      destruct (check_av_opt_set_keys c3 "int_ref_cycle_size" (OptInt 20))
        as (ok4 & c4 & -> & Hc4).
      eexists _, _. split; [reflexivity|]. split; [congruence|].
      repeat constructor; assumption.
    - eexists _, _. split; [reflexivity|]. split; [reflexivity | constructor]. }
  destruct Hintra as (c3 & e3 & -> & Hc3 & He3).
  set (c4 := if bool_decide (interlacing (desc (t_param t)) = INTERLACED_MERGED)
                && negb (interlaced_dct (t_param t) =? 0)
             then set_flags (Z.lor (flags c3) AV_CODEC_FLAG_INTERLACED_DCT) c3 else c3).
  assert (Hc4 : codec c4 = codec c3) by (unfold c4; destruct (_ && _); reflexivity).
  clearbody c4.
  destruct (opts !! "rc") as [v|] eqn:Hrc.
  - pose proof (configure_qsv_rc_frame c4 v) as [Hc5 He5].
    destruct (configure_qsv_rc c4 v) as [[c c5] e4]. cbn [fst snd] in *.
    split.
    + repeat (apply Forall_app; split); try (repeat constructor; assumption); auto.
    + intros _ _. split.
      * repeat split; cbn; try congruence.
        -- etrans; [exact Hb1 | apply union_subseteq_r].
        -- apply union_least; [|exact Hb2].
           apply singleton_subseteq_l, elem_of_union. right.
           apply elem_of_union. left. now apply elem_of_singleton.
      * intros _. cbn. apply elem_of_union. left. now apply elem_of_singleton.
  - pose proof (configure_qsv_rc_frame c4 DEFAULT_QSV_RC) as [Hc5 He5].
    destruct (configure_qsv_rc c4 DEFAULT_QSV_RC) as [[c c5] e4]. cbn [fst snd] in *.
    split.
    + repeat (apply Forall_app; split); try (repeat constructor; assumption); auto.
    + intros _ _. split.
      * repeat split; cbn; try congruence; assumption.
      * intros [x Hx]. discriminate.
Qed.

Lemma thread_mode_letters_events (rest : string) (t0 : Z) :
  forall K, Forall (option_keys K) (thread_mode_letters rest t0).2.
Proof.
  intros K. revert t0. induction rest as [|c rest IH]; intros t0; cbn [thread_mode_letters].
  - constructor.
  - repeat match goal with
           | |- context [if ?b then _ else _] => destruct b
           end; try apply IH.
    specialize (IH t0). destruct (thread_mode_letters rest t0) as [t1 evs].
    constructor; [exact I | exact IH].
Qed.

Lemma set_codec_thread_mode_frame (ctx : AVCodecContext) (param : setparam_param) :
  codec (set_codec_thread_mode ctx param).1.2 = codec ctx
  /\ forall K, Forall (option_keys K) (set_codec_thread_mode ctx param).2.
Proof.
  unfold set_codec_thread_mode.
  destruct (String.eqb (thread_mode param) "no"); [split; [reflexivity | constructor]|].
  destruct (stoi (thread_mode param)) as [v endpos| |]; cbv iota beta;
    try (split; [reflexivity | constructor]).
  all: match goal with
       | |- context [thread_mode_letters ?r ?z] =>
           pose proof (thread_mode_letters_events r z) as Hl;
           destruct (thread_mode_letters r z) as [rt ev1]
       end; cbn [snd] in Hl.
  all: repeat match goal with
              | |- context [if ?b then _ else _] => destruct b
              end; cbn; split; try reflexivity; intros K;
         repeat (apply Forall_app; split); auto; repeat constructor.
Qed.

Lemma thread_mode_step_frame enc hp bl0 (K : string -> Prop) :
  tuner_keeps (tuner_frame enc hp bl0) (option_keys K) thread_mode_step.
Proof.
  intros t (Hc & Hp & Hb1 & Hb2). unfold thread_mode_step.
  pose proof (set_codec_thread_mode_frame (t_ctx t) (t_param t)) as [Hc' He'].
  destruct (set_codec_thread_mode (t_ctx t) (t_param t)) as [[c ctx'] evs].
  cbn [fst snd] in *. split; [apply He'|].
  intros _ _. repeat split; cbn; auto. congruence.
Qed.

End TunerProperties2.

(** Discharges [K key] for a key of [tuner_option_keys]. *)
Ltac tuner_key HK :=
  apply HK; repeat (first [left; reflexivity | right]).

(** One rule of the tuner logic on a goal [tuner_keeps (tuner_frame ..) ..]. *)
Ltac frame_step HK :=
  first
    [ apply tuner_keeps_ret
    | apply tuner_keeps_stop
    | apply frame_modify_tail
    | apply frame_modify_ctx; intros; reflexivity
    | apply frame_modify_param; intros; reflexivity
    | apply frame_blacklist_insert; auto
    | apply frame_opt_set_; tuner_key HK
    | apply frame_opt_set; tuner_key HK
    | apply tuner_keeps_emit; exact I
    | apply tuner_keeps_get_bind; intros ? ?
    | apply tuner_keeps_bind; [| intros ?]
    | apply tuner_keeps_when; intros ?
    | match goal with
      | |- tuner_keeps _ _ (if ?b then _ else _) => destruct b eqn:?
      | |- tuner_keeps _ _ (match ?x with _ => _ end) => destruct x eqn:?
      end ].

Section TunerFamilies.
Context `{Collaborators} `{Platform}.
Variables (enc : AVCodec) (hp : bool) (bl0 : gset string) (K : string -> Prop).
Hypothesis HK : forall key, In key tuner_option_keys -> K key.
Hypothesis HKpreset : hp = false -> K "preset".

Lemma setparam_default_frame :
  tuner_keeps (tuner_frame enc hp bl0) (option_keys K) setparam_default.
Proof. unfold setparam_default. repeat frame_step HK. Qed.

Lemma setparam_jpeg_frame :
  tuner_keeps (tuner_frame enc hp bl0) (option_keys K) setparam_jpeg.
Proof. unfold setparam_jpeg. repeat frame_step HK. Qed.

Lemma configure_amf_frame :
  tuner_keeps (tuner_frame enc hp bl0) (option_keys K) configure_amf.
Proof. unfold configure_amf. repeat frame_step HK. Qed.

Lemma configure_vaapi_frame :
  tuner_keeps (tuner_frame enc hp bl0) (option_keys K) configure_vaapi.
Proof. unfold configure_vaapi. repeat frame_step HK. Qed.

Lemma set_forced_idr_frame (value : Z) :
  tuner_keeps (tuner_frame enc hp bl0) (option_keys K) (set_forced_idr value).
Proof. unfold set_forced_idr. repeat frame_step HK. Qed.

Lemma rc_buffer_size_factor_frame :
  tuner_keeps (tuner_frame enc hp bl0) (option_keys K) rc_buffer_size_factor.
Proof. unfold rc_buffer_size_factor. repeat frame_step HK. Qed.

Lemma configure_x264_x265_frame (opts : gmap string string) :
  tuner_keeps (tuner_frame enc hp bl0) (option_keys K) (configure_x264_x265 opts).
Proof.
  unfold configure_x264_x265, set_interlaced_dct_flag.
  repeat first [apply rc_buffer_size_factor_frame | frame_step HK].
Qed.

Lemma configure_nvenc_frame :
  tuner_keeps (tuner_frame enc hp bl0) (option_keys K) configure_nvenc.
Proof.
  unfold configure_nvenc, set_interlaced_dct_flag.
  apply tuner_keeps_bind; [apply frame_opt_set; tuner_key HK | intros ok].
  apply tuner_keeps_bind; [repeat frame_step HK | intros _].
  apply tuner_keeps_get_bind. intros t0 (_ & Hhp & _).
  apply tuner_keeps_bind.
  { apply tuner_keeps_when. intros Hno. apply frame_opt_set_. apply HKpreset.
    rewrite <- Hhp. now apply negb_true_iff. }
  intros _.
  repeat first [apply rc_buffer_size_factor_frame | apply set_forced_idr_frame | frame_step HK].
Qed.

Lemma configure_svt_frame :
  tuner_keeps (tuner_frame enc hp bl0) (option_keys K) configure_svt.
Proof.
  unfold configure_svt.
  repeat first [apply set_forced_idr_frame | frame_step HK].
Qed.

Lemma configure_qsv_keeps (opts : gmap string string) :
  tuner_keeps (tuner_frame enc hp bl0) (option_keys K) (configure_qsv opts).
Proof.
  eapply tuner_triple_conseq;
    [apply (configure_qsv_frame enc hp bl0 K opts); tuner_key HK | auto | | auto].
  intros _ t [Ht _]. exact Ht.
Qed.

Lemma setparam_h264_h265_av1_frame (opts : gmap string string) :
  tuner_keeps (tuner_frame enc hp bl0) (option_keys K) (setparam_h264_h265_av1 opts).
Proof.
  unfold setparam_h264_h265_av1.
  repeat first [ apply configure_amf_frame | apply configure_vaapi_frame
               | apply configure_x264_x265_frame | apply configure_nvenc_frame
               | apply configure_qsv_keeps | apply configure_svt_frame
               | frame_step HK ].
Qed.

Lemma setparam_vp8_vp9_frame :
  tuner_keeps (tuner_frame enc hp bl0) (option_keys K) setparam_vp8_vp9.
Proof. unfold setparam_vp8_vp9. repeat frame_step HK. Qed.

Lemma codec_params_set_param_frame (ug_codec : codec_t) (opts : gmap string string)
    (set_param : gmap string string -> tuner unit) :
  codec_params_set_param ug_codec = Some set_param ->
  tuner_keeps (tuner_frame enc hp bl0) (option_keys K) (set_param opts).
Proof.
  destruct ug_codec; cbn; intros Heq; inversion Heq; subst;
    first [ apply setparam_h264_h265_av1_frame | apply setparam_jpeg_frame
          | apply setparam_default_frame | apply setparam_vp8_vp9_frame ].
Qed.

Lemma preset_step_frame (d : video_desc) (ug_codec : codec_t) :
  tuner_keeps (tuner_frame enc hp bl0) (option_keys K) (preset_step d ug_codec).
Proof.
  unfold preset_step.
  apply tuner_keeps_get_bind. intros t0 (_ & Hhp & _).
  apply tuner_keeps_when. intros Hno.
  assert (HKp : K "preset").
  { apply HKpreset. rewrite <- Hhp. now apply negb_true_iff. }
  cbv zeta.
  apply tuner_keeps_bind; [|intros _].
  - apply tuner_keeps_when. intros _. apply frame_opt_set_. exact HKp.
  - repeat frame_step HK.
Qed.

End TunerFamilies.

Section UserOptions.
Context `{Collaborators} `{Platform}.

Lemma in_key_order_spec (m : gmap string string) :
  List.NoDup ((in_key_order m).*1)
  /\ forall k v, In (k, v) (in_key_order m) <-> m !! k = Some v.
Proof.
  unfold in_key_order.
  pose proof (merge_sort_Permutation
                (fun a b : string * string => String.leb (a.1) (b.1)) (map_to_list m)) as Hperm.
  split.
  - apply NoDup_ListNoDup. rewrite Hperm. exact (NoDup_fst_map_to_list m).
  - intros k v. rewrite <- list_elem_of_In, Hperm. apply elem_of_map_to_list.
Qed.

Lemma set_user_options_run (opts : list (string * string)) :
  List.NoDup (opts.*1) ->
  forall t,
    let '(r, t', evs) := set_user_options opts t in
    (exists b, r = inr b)
    /\ t_tail t' = t_tail t /\ t_param t' = t_param t /\ t_blacklist t' = t_blacklist t
    /\ codec (t_ctx t') = codec (t_ctx t)
    /\ thread_type (t_ctx t') = thread_type (t_ctx t)
    /\ thread_count (t_ctx t') = thread_count (t_ctx t)
    /\ (forall k, ~ In k (opts.*1) -> priv_data (t_ctx t') !! k = priv_data (t_ctx t) !! k)
    /\ Forall (user_option_event opts (t_blacklist t)) evs
    /\ (r = inr true ->
        forall k v, In (k, v) opts -> k ∉ t_blacklist t ->
                    priv_data (t_ctx t') !! k = Some (OptStr v))
    /\ (r = inr false ->
        exists k v, In (k, v) opts /\ (k ∉ t_blacklist t)
                    /\ av_opt_accepts (codec (t_ctx t)) k (OptStr v) = false).
Proof.
  induction opts as [|[key val] rest IH]; intros Hnd t.
  - cbn. split; [eauto|]. do 8 (split; [auto|]). split; [|discriminate]. intros _ k v [].
  - cbn [fmap list_fmap fst] in Hnd. apply List.NoDup_cons_iff in Hnd as [Hkey Hnd].
    specialize (IH Hnd).
    cbn [set_user_options]. unfold tuner_bind at 1. cbn [tuner_get].
    destruct (decide (key ∈ t_blacklist t)) as [Hbl|Hbl].
    + rewrite (bool_decide_true _ Hbl).
      specialize (IH t). destruct (set_user_options rest t) as [[r t'] evs].
      destruct IH as (Hr & Ht1 & Ht2 & Ht3 & Hc & Htt & Htc & Hpd & Hev & Htrue & Hfalse).
      cbn [app]. split; [exact Hr|]. do 6 (split; [assumption|]).
      split; [|split; [|split]].
      * intros k Hk. apply Hpd. intros Hin. apply Hk. right. exact Hin.
      * eapply Forall_impl; [exact Hev|]. intros [] He; cbn in *; auto.
        destruct He as (v & -> & Hin & Hnb). exists v. auto using in_cons.
      * intros Hrt k v [Heq|Hin] Hnb; [inversion Heq; subst; contradiction|].
        now apply Htrue.
      * intros Hrf. destruct (Hfalse Hrf) as (k & v & Hin & Hnb & Hacc).
        exists k, v. split; [right; exact Hin | auto].
    + rewrite (bool_decide_false _ Hbl).
      unfold tuner_bind, opt_set, check_av_opt_set. cbn [fst snd].
      destruct (av_opt_accepts (codec (t_ctx t)) key (OptStr val)) eqn:Hacc.
      * match goal with
        | |- context [set_user_options rest ?tx] =>
            specialize (IH tx); destruct (set_user_options rest tx) as [[r t'] evs]
        end.
        cbn [t_tail t_param t_blacklist t_ctx codec thread_type thread_count priv_data
             set_priv_data] in IH.
        destruct IH as (Hr & Ht1 & Ht2 & Ht3 & Hc & Htt & Htc & Hpd & Hev & Htrue & Hfalse).
        split; [exact Hr|]. do 6 (split; [assumption|]).
        split; [|split; [|split]].
        -- intros k Hk. rewrite Hpd by (intros Hin; apply Hk; right; exact Hin).
           apply lookup_insert_ne. intros ->. apply Hk. left. reflexivity.
        -- cbn [app]. constructor.
           ++ cbn. exists val. repeat split; auto using in_eq.
           ++ eapply Forall_impl; [exact Hev|]. intros [] He; cbn in *; auto.
              destruct He as (v & -> & Hin & Hnb). exists v. auto using in_cons.
        -- intros Hrt k v [Heq|Hin] Hnb.
           ++ inversion Heq; subst. rewrite Hpd by exact Hkey. apply lookup_insert_eq.
           ++ now apply Htrue.
        -- intros Hrf. destruct (Hfalse Hrf) as (k & v & Hin & Hnb & Hacc').
           exists k, v. split; [right; exact Hin | auto].
      * cbn. split; [eauto|]. do 6 (split; [reflexivity|]).
        split; [|split; [|split]].
        -- reflexivity.
        -- constructor; [|repeat constructor].
           cbn. exists val. repeat split; auto using in_eq.
        -- discriminate.
        -- intros _. exists key, val. repeat split; auto using in_eq.
Qed.

End UserOptions.

Section ThreadModeProperties.
Context `{Collaborators}.

(** X14: [set_codec_thread_mode] never gives the encoder a thread type it
    does not advertise. When the requested type needs slice or frame
    threads that the encoder lacks, an error is logged and the thread type
    is left as it was; otherwise every threading bit set in the context is
    a capability of the encoder. The mode [no] switches threading off (type
    0, one thread), and a leading number of the specification other than
    -1 becomes the thread count as it stands. *)
Theorem thread_mode_respects_capabilities (ctx : AVCodecContext) (param : setparam_param) :
  let '(c, ctx', evs) := set_codec_thread_mode ctx param in
  let caps := capabilities (codec ctx) in
  (In (EvLog LOG_LEVEL_ERROR MSG_THREAD_MODE_UNSUPPORTED) evs ->
   thread_type ctx' = thread_type ctx)
  /\ (c = None -> thread_mode param <> "no" ->
      ~ In (EvLog LOG_LEVEL_ERROR MSG_THREAD_MODE_UNSUPPORTED) evs ->
      (Z.land (thread_type ctx') FF_THREAD_SLICE <> 0 ->
       Z.land caps AV_CODEC_CAP_SLICE_THREADS <> 0)
      /\ (Z.land (thread_type ctx') FF_THREAD_FRAME <> 0 ->
          Z.land caps AV_CODEC_CAP_FRAME_THREADS <> 0))
  /\ (thread_mode param = "no" -> thread_type ctx' = 0 /\ thread_count ctx' = 1)
  /\ (forall n endpos, thread_mode param <> "no" ->
        stoi (thread_mode param) = StoiOk n endpos -> n <> -1 -> thread_count ctx' = n).
Proof.
  unfold set_codec_thread_mode.
  destruct (String.eqb_spec (thread_mode param) "no") as [Hno|Hno].
  { cbv zeta. split; [intros []|]. split; [intros _ Hc; contradiction|].
    split; [intros _; split; reflexivity | intros n e Hc; contradiction]. }
  assert (Hletters : forall r z,
             ~ In (EvLog LOG_LEVEL_ERROR MSG_THREAD_MODE_UNSUPPORTED) (thread_mode_letters r z).2).
  { intros r. induction r as [|ch r IH]; intros z; cbn [thread_mode_letters]; [tauto|].
    repeat match goal with
           | |- context [if ?b then _ else _] => destruct b
           end; try apply IH.
    specialize (IH z). destruct (thread_mode_letters r z) as [t1 evs].
    cbn [snd] in *. intros [Heq|Hin]; [discriminate | contradiction]. }
  destruct (stoi (thread_mode param)) as [v endpos| |] eqn:Hstoi; cbv iota beta zeta.
  3:{ split; [intros []|]. split; [discriminate|].
      split; [intros Hc; contradiction | intros n e _ Hc; discriminate]. }
  all: match goal with
       | |- context [thread_mode_letters ?r ?z] =>
           pose proof (Hletters r z) as Hl;
           destruct (thread_mode_letters r z) as [rt ev1]
       end; cbn [snd] in Hl; clear Hletters.
  all: lazymatch goal with
       | |- context [if ?r =? 0 then if negb (Z.land ?c _ =? 0) then _ else _ else _] =>
           destruct (Z.eqb_spec (Z.land c AV_CODEC_CAP_SLICE_THREADS) 0) as [Hcs|Hcs];
           destruct (Z.eqb_spec (Z.land c AV_CODEC_CAP_FRAME_THREADS) 0) as [Hcf|Hcf];
           destruct (Z.eqb_spec r 0) as [Hrt0|Hrt0];
           destruct (Z.eqb_spec r (-1)) as [Hrt1|Hrt1]
       end;
       try (exfalso; lia);
       cbn [negb andb orb];
       repeat match goal with
              | |- context [Z.land ?c AV_CODEC_CAP_OTHER_THREADS =? 0] =>
                  destruct (Z.land c AV_CODEC_CAP_OTHER_THREADS =? 0); cbn [negb andb orb]
              end;
       try change (Z.land FF_THREAD_SLICE FF_THREAD_SLICE =? 0) with false;
       try change (Z.land FF_THREAD_SLICE FF_THREAD_FRAME =? 0) with true;
       try change (Z.land 0 FF_THREAD_SLICE =? 0) with true;
       try change (Z.land 0 FF_THREAD_FRAME =? 0) with true;
       cbn [negb andb orb];
       repeat match goal with
              | |- context [Z.land ?rt ?m =? 0] =>
                  destruct (Z.eqb_spec (Z.land rt m) 0); cbn [negb andb orb]
              end.
  all: repeat match goal with
              | |- context [if ?b then _ else _] => destruct b eqn:?
              end.
  all: cbn [thread_type thread_count set_thread_type set_thread_count].
  all: rewrite ?in_app_iff; cbn [In].
  all: split; [|split; [|split]].
  all: try (intros Hc; contradiction).
  all: try (intros Hin; first [reflexivity | exfalso; intuition discriminate]).
  all: try (intros _ _ Hnin;
            first [ exfalso; apply Hnin; right; right; left; reflexivity
                  | split; intros Hbit;
                    first [ assumption | exfalso; apply Hbit; assumption
                          | exfalso; apply Hbit; reflexivity
                          | exfalso; subst; apply Hbit; reflexivity ] ]).
  all: try (intros ? ? _ Heq Hn1; inversion Heq; subst;
            first [ reflexivity
                  | exfalso;
                    match goal with
                    | Hb : negb (_ =? -1) = false |- _ =>
                        apply negb_false_iff, Z.eqb_eq in Hb; contradiction
                    end ]).
Qed.

End ThreadModeProperties.

Section FullTunerProperties.
Context `{Collaborators} `{Platform}.

Lemma set_cqp_keys (ctx : AVCodecContext) (cqp : Z) :
  codec (set_cqp ctx cqp).1 = codec ctx
  /\ Forall (option_keys (fun k => k = "qp" \/ k = "crf")) (set_cqp ctx cqp).2.
Proof.
  unfold set_cqp. cbv zeta.
  destruct (strcmp_eq (name (codec ctx)) "mjpeg"); [split; [reflexivity | constructor]|].
  destruct (contains "_qsv" (name (codec ctx))); [split; [reflexivity | constructor]|].
  match goal with
  | |- context [check_av_opt_set ?c ?k ?v] =>
      destruct (check_av_opt_set_keys c k v) as (ok & ctx' & -> & Hc)
  end.
  cbn [fst snd]. split; [exact Hc | repeat constructor; left; reflexivity].
Qed.

Lemma set_codec_ctx_params_quality_frame
    (s : state) (ctx : AVCodecContext) (d : video_desc) (ug_codec : codec_t) :
  let '(s1, ctx1, ev) := set_codec_ctx_params_quality s ctx d ug_codec in
  codec ctx1 = codec ctx
  /\ s1 = set_params (set_have_preset (bool_decide (is_Some (lavc_opts s !! "preset")))
                                      (params s)) s
  /\ Forall (option_keys (fun k => k = "qp" \/ k = "crf")) ev.
Proof.
  unfold set_codec_ctx_params_quality. cbv zeta.
  match goal with
  | |- context [cqp_selected ?sx ?n] => destruct (cqp_selected sx n)
  end.
  - match goal with
    | |- context [set_cqp ?c ?q] =>
        pose proof (set_cqp_keys c q) as [Hc Hev]; destruct (set_cqp c q) as [ctx1 ev]
    end.
    cbn [fst snd orb] in *.
    destruct (0 <? requested_bitrate _); (split; [exact Hc | split; [reflexivity | exact Hev]]).
  - match goal with
    | |- context [crf_selected ?sx ?n] => destruct (crf_selected sx n)
    end.
    + match goal with
      | |- context [check_av_opt_set ?c ?k ?v] =>
          destruct (check_av_opt_set_keys c k v) as (ok & ctx' & -> & Hc)
      end.
      cbn [orb].
      destruct (0 <? requested_bitrate _);
        (split; [exact Hc | split; [reflexivity | repeat constructor; right; reflexivity]]).
    + cbn [orb]. split; [reflexivity | split; [reflexivity | constructor]].
Qed.

Lemma tuner_keeps_weaken {A} (J : tuning -> Prop) (E E' : event -> Prop) (m : tuner A) :
  tuner_keeps J E m -> (forall e, E e -> E' e) -> tuner_keeps J E' m.
Proof. intros Hm HE. eapply tuner_triple_conseq; [exact Hm | auto | auto | exact HE]. Qed.

(** The structure of [set_codec_ctx_params_rest]: a prefix that assigns
    plain fields, the family tuning, the thread mode, slices and preset,
    and the loop over the user's options. *)
Lemma set_codec_ctx_params_rest_compose
    (P0 P1 P2 : tuning -> Prop) (Q : bool -> tuning -> Prop) (E : event -> Prop)
    (s : state) (pix_fmt : AVPixelFormat) (d : video_desc) (ug_codec : codec_t) :
  (forall f, tuner_keeps P0 E (modify_tail f)) ->
  tuner_keeps P0 E (modify_ctx (set_pix_fmt pix_fmt)) ->
  (forall set_param, codec_params_set_param ug_codec = Some set_param ->
                     tuner_triple P0 (set_param (lavc_opts s)) (fun _ => P1) E) ->
  tuner_triple P1 thread_mode_step (fun _ => P2) E ->
  (forall f, tuner_keeps P2 E (modify_tail f)) ->
  tuner_keeps P2 E (preset_step d ug_codec) ->
  tuner_triple P2 (set_user_options (in_key_order (lavc_opts s))) Q E ->
  tuner_triple P0 (set_codec_ctx_params_rest s pix_fmt d ug_codec) Q E.
Proof.
  intros Htail0 Hpix Hparam Hthread Htail2 Hpreset Hloop.
  unfold set_codec_ctx_params_rest.
  do 5 (eapply tuner_triple_bind; [apply Htail0 | intros ?; cbv beta]).
  eapply tuner_triple_bind; [apply Hpix | intros ?; cbv beta].
  eapply tuner_triple_bind.
  { destruct (av_pix_fmt_desc_get pix_fmt); [apply Htail0 | apply tuner_triple_stop]. }
  intros ?; cbv beta.
  eapply tuner_triple_bind.
  { destruct (codec_params_set_param ug_codec) as [set_param|];
      [apply Hparam; reflexivity | apply tuner_triple_stop]. }
  intros ?; cbv beta.
  eapply tuner_triple_bind; [apply Hthread | intros ?; cbv beta].
  apply tuner_triple_get_bind. intros t0 Ht0.
  eapply tuner_triple_conseq with (P := P2) (Q := Q) (E := E); auto.
  2:{ intros t Heq. rewrite Heq. exact Ht0. }
  eapply tuner_triple_bind; [apply Htail2 | intros ?; cbv beta].
  eapply tuner_triple_bind; [apply Hpreset | intros ?; cbv beta].
  exact Hloop.
Qed.

Lemma set_user_options_triple enc hp bl1 (E : event -> Prop) (opts : list (string * string)) :
  List.NoDup (opts.*1) ->
  (forall k v ok, In (k, v) opts -> k ∉ bl1 -> E (EvOptSet k (OptStr v) ok)) ->
  (forall l m, E (EvLog l m)) ->
  tuner_triple (tuner_frame enc hp bl1) (set_user_options opts)
    (fun r t' =>
       tuner_frame enc hp bl1 t'
       /\ (r = true ->
           forall k v, In (k, v) opts -> k ∉ t_blacklist t' ->
                       priv_data (t_ctx t') !! k = Some (OptStr v))
       /\ (r = false ->
           exists k v, In (k, v) opts /\ (k ∉ t_blacklist t')
                       /\ av_opt_accepts enc k (OptStr v) = false))
    E.
Proof.
  intros Hnd HE HElog t (Hc & Hp & Hb1 & Hb2).
  pose proof (set_user_options_run opts Hnd t) as Hrun.
  destruct (set_user_options opts t) as [[r t'] evs].
  destruct Hrun as (Hr & Ht1 & Ht2 & Ht3 & Hc' & _ & _ & _ & Hev & Htrue & Hfalse).
  cbn [fst snd]. split.
  - eapply Forall_impl; [exact Hev|]. intros [] He; cbn in He; try contradiction.
    + apply HElog.
    + destruct He as (v & -> & Hin & Hnb). apply HE; [exact Hin|].
      intros Hin1. apply Hnb. now apply Hb1.
  - intros b ->. split; [|split].
    + unfold tuner_frame. rewrite Ht2, Ht3, Hc'. repeat split; assumption.
    + intros -> k v Hin Hnb. rewrite Ht3 in Hnb. now apply Htrue.
    + intros ->. destruct (Hfalse eq_refl) as (k & v & Hin & Hnb & Hacc).
      exists k, v. rewrite Ht3, <- Hc. auto.
Qed.

End FullTunerProperties.

Section FullTunerTheorems.
Context `{Collaborators} `{Platform}.

Lemma tuner_option_keys_true : forall key, In key tuner_option_keys -> True.
Proof. auto. Qed.

(** The whole of [set_codec_ctx_params_rest] for an invariant of the form
    [tuner_frame]. *)
Lemma set_codec_ctx_params_rest_frame enc hp bl0 (K : string -> Prop) (E : event -> Prop)
    (s : state) (pix_fmt : AVPixelFormat) (d : video_desc) (ug_codec : codec_t) :
  (forall key, In key tuner_option_keys -> K key) ->
  (hp = false -> K "preset") ->
  (forall e, option_keys K e -> E e) ->
  (forall k v ok, lavc_opts s !! k = Some v -> k ∉ bl0 -> E (EvOptSet k (OptStr v) ok)) ->
  tuner_triple (tuner_frame enc hp bl0) (set_codec_ctx_params_rest s pix_fmt d ug_codec)
    (fun r t' =>
       tuner_frame enc hp bl0 t'
       /\ (r = true ->
           forall k v, lavc_opts s !! k = Some v -> k ∉ t_blacklist t' ->
                       priv_data (t_ctx t') !! k = Some (OptStr v))
       /\ (r = false ->
           exists k v, lavc_opts s !! k = Some v /\ (k ∉ t_blacklist t')
                       /\ av_opt_accepts enc k (OptStr v) = false))
    E.
Proof.
  intros HK HKp HE HEuser.
  destruct (in_key_order_spec (lavc_opts s)) as [Hnd Hin].
  apply set_codec_ctx_params_rest_compose
    with (P1 := tuner_frame enc hp bl0) (P2 := tuner_frame enc hp bl0).
  - intros f. apply frame_modify_tail.
  - apply frame_modify_ctx. reflexivity.
  - intros set_param Hsp.
    apply tuner_keeps_weaken with (E := option_keys K); [|exact HE].
    now apply (codec_params_set_param_frame enc hp bl0 K HK HKp ug_codec).
  - apply tuner_keeps_weaken with (E := option_keys K); [|exact HE].
    apply thread_mode_step_frame.
  - intros f. apply frame_modify_tail.
  - apply tuner_keeps_weaken with (E := option_keys K); [|exact HE].
    now apply preset_step_frame.
  - eapply tuner_triple_conseq.
    + apply (set_user_options_triple enc hp bl0 E (in_key_order (lavc_opts s)) Hnd).
      * intros k v ok Hkv Hnb. apply HEuser; [now apply Hin | exact Hnb].
      * intros l m. apply HE. exact I.
    + auto.
    + intros r t' (Hf & Htrue & Hfalse). split; [exact Hf|]. split.
      * intros Hr k v Hkv Hnb. apply Htrue; auto. now apply Hin.
      * intros Hr. destruct (Hfalse Hr) as (k & v & Hkv & Hnb & Hacc).
        exists k, v. split; [now apply Hin | auto].
    + auto.
Qed.

(** X15: the user's pass-through options reach the encoder unless they
    are blacklisted. When [set_codec_ctx_params] returns true, every option
    of the request whose key is not on the blacklist is set in the
    encoder's private options with the user's value, whatever the tuner had
    set under that key before; when it returns false, the encoder refused
    one of these options. *)
Theorem user_options_reach_the_encoder
    (s : state) (ctx : AVCodecContext) (tail : AVCodecContextTail)
    (pix_fmt : AVPixelFormat) (d : video_desc) (ug_codec : codec_t) :
  let '(r, s', t, _) := set_codec_ctx_params s ctx tail pix_fmt d ug_codec in
  (r = inr true ->
   forall k v, lavc_opts s !! k = Some v -> k ∉ blacklist_opts s' ->
               priv_data (t_ctx t) !! k = Some (OptStr v))
  /\ (r = inr false ->
      exists k v, lavc_opts s !! k = Some v /\ (k ∉ blacklist_opts s')
                  /\ av_opt_accepts (codec ctx) k (OptStr v) = false).
Proof.
  unfold set_codec_ctx_params.
  pose proof (set_codec_ctx_params_quality_frame s ctx d ug_codec) as Hq.
  destruct (set_codec_ctx_params_quality s ctx d ug_codec) as [[s1 ctx1] ev0].
  destruct Hq as (Hc1 & Hs1 & _).
  set (t0 := mk_tuning ctx1 tail (params s1) (blacklist_opts s1)).
  assert (Hopts : lavc_opts s1 = lavc_opts s) by (rewrite Hs1; reflexivity).
  pose proof (set_codec_ctx_params_rest_frame (codec ctx) (have_preset (params s1))
                (blacklist_opts s1) (fun _ => True) (fun _ => True)
                s1 pix_fmt d ug_codec
                tuner_option_keys_true (fun _ => I) (fun _ _ => I) (fun _ _ _ _ _ => I) t0) as Hrest.
  destruct Hrest as [_ Hpost].
  { unfold tuner_frame, t0. cbn. repeat split; auto.
    apply union_subseteq_l. }
  destruct (set_codec_ctx_params_rest s1 pix_fmt d ug_codec t0) as [[r t] ev1].
  cbn [fst snd] in Hpost. cbn [blacklist_opts set_blacklist_opts].
  rewrite Hopts in Hpost.
  split.
  - intros ->. destruct (Hpost true eq_refl) as (_ & Htrue & _). now apply Htrue.
  - intros ->. destruct (Hpost false eq_refl) as (_ & _ & Hfalse). now apply Hfalse.
Qed.


End FullTunerTheorems.

Section PresetAndRateControl.
Context `{Collaborators} `{Platform}.

Lemma tuner_option_keys_not_preset :
  forall key, In key tuner_option_keys -> key <> "preset".
Proof.
  intros key Hin ->. cbn in Hin.
  repeat (destruct Hin as [Hin|Hin]; [discriminate|]). exact Hin.
Qed.

(** X17: a preset of the user is the only preset the encoder is
    given. When the request carries the option [preset], every value
    [set_codec_ctx_params] passes for the encoder's [preset] option is the
    user's string: no default of a codec family is set beside it. *)
Theorem user_preset_is_the_only_preset
    (s : state) (ctx : AVCodecContext) (tail : AVCodecContextTail)
    (pix_fmt : AVPixelFormat) (d : video_desc) (ug_codec : codec_t) (p : string) :
  lavc_opts s !! "preset" = Some p ->
  let '(_, _, _, evs) := set_codec_ctx_params s ctx tail pix_fmt d ug_codec in
  forall v ok, In (EvOptSet "preset" v ok) evs -> v = OptStr p.
Proof.
  intros Hp. unfold set_codec_ctx_params.
  pose proof (set_codec_ctx_params_quality_frame s ctx d ug_codec) as Hq.
  destruct (set_codec_ctx_params_quality s ctx d ug_codec) as [[s1 ctx1] ev0].
  destruct Hq as (Hc1 & Hs1 & Hev0).
  set (t0 := mk_tuning ctx1 tail (params s1) (blacklist_opts s1)).
  assert (Hhp : have_preset (params s1) = true).
  { rewrite Hs1. cbn. rewrite Hp. apply bool_decide_eq_true. eauto. }
  assert (Hopts : lavc_opts s1 = lavc_opts s) by (rewrite Hs1; reflexivity).
  pose proof (set_codec_ctx_params_rest_frame (codec ctx) true
                (blacklist_opts s1) (fun k => k <> "preset") (preset_is p)
                s1 pix_fmt d ug_codec tuner_option_keys_not_preset) as Hrest.
  destruct (Hrest) with (t := t0) as [Hev1 _].
  - discriminate.
  - intros [] Hk; cbn in *; auto. intros ->. now contradiction Hk.
  - intros k v ok Hkv _ ->. rewrite Hopts, Hp in Hkv. congruence.
  - unfold tuner_frame, t0. cbn. repeat split; auto. apply union_subseteq_l.
  - destruct (set_codec_ctx_params_rest s1 pix_fmt d ug_codec t0) as [[r t] ev1].
    cbn [snd] in Hev1. intros v ok Hin.
    apply in_app_or in Hin. destruct Hin as [Hin|Hin].
    + rewrite List.Forall_forall in Hev0. apply Hev0 in Hin. cbn in Hin.
      destruct Hin; discriminate.
    + rewrite List.Forall_forall in Hev1. apply Hev1 in Hin. cbn in Hin. auto.
Qed.

(** X18: the Quick Sync encoders are never given an option [rc]. For
    [h264_qsv] and [hevc_qsv] the rate control of the user is translated by
    [configure_qsv_h264_hevc] into fields of the context: in the whole of
    [set_codec_ctx_params] no private option [rc] is set, and when the
    request carries [rc] and the function returns, the key is on the
    blacklist. *)
Theorem qsv_rate_control_is_not_forwarded
    (s : state) (ctx : AVCodecContext) (tail : AVCodecContextTail)
    (pix_fmt : AVPixelFormat) (d : video_desc) (ug_codec : codec_t) :
  name (codec ctx) = "h264_qsv" \/ name (codec ctx) = "hevc_qsv" ->
  ug_codec = H264 \/ ug_codec = H265 ->
  let '(r, s', _, evs) := set_codec_ctx_params s ctx tail pix_fmt d ug_codec in
  (forall v ok, ~ In (EvOptSet "rc" v ok) evs)
  /\ (forall b, r = inr b -> is_Some (lavc_opts s !! "rc") -> "rc" ∈ blacklist_opts s').
Proof.
  intros Hname Hug. unfold set_codec_ctx_params.
  pose proof (set_codec_ctx_params_quality_frame s ctx d ug_codec) as Hq.
  destruct (set_codec_ctx_params_quality s ctx d ug_codec) as [[s1 ctx1] ev0].
  destruct Hq as (Hc1 & Hs1 & Hev0).
  set (t0 := mk_tuning ctx1 tail (params s1) (blacklist_opts s1)).
  assert (Hopts : lavc_opts s1 = lavc_opts s) by (rewrite Hs1; reflexivity).
  set (enc := codec ctx) in *. set (hp := have_preset (params s1)).
  set (bl0 := blacklist_opts s1).
  set (bl1 := if bool_decide (is_Some (lavc_opts s !! "rc")) then {["rc"]} ∪ bl0 else bl0).
  set (K := fun k : string => k <> "rc").
  destruct (in_key_order_spec (lavc_opts s1)) as [Hnd Hin].
  assert (Hbl1 : bl0 ⊆ bl1).
  { unfold bl1. destruct (bool_decide (is_Some (lavc_opts s !! "rc")));
      [apply union_subseteq_r | reflexivity]. }
  assert (Hrest : tuner_triple (tuner_frame enc hp bl0)
                    (set_codec_ctx_params_rest s1 pix_fmt d ug_codec)
                    (fun _ t' => tuner_frame enc hp bl1 t') (option_keys K)).
  { apply set_codec_ctx_params_rest_compose
      with (P1 := tuner_frame enc hp bl1) (P2 := tuner_frame enc hp bl1).
    - intros f. apply frame_modify_tail.
    - apply frame_modify_ctx. reflexivity.
    - intros set_param Hsp.
      assert (set_param = setparam_h264_h265_av1) as ->.
      { destruct Hug as [-> | ->]; cbn in Hsp; congruence. }
      unfold setparam_h264_h265_av1. apply tuner_triple_get_bind.
      intros t1 Ht1. pose proof Ht1 as (Hc & _).
      cbv zeta. rewrite Hc.
      assert (Hq : tuner_triple (fun t => t = t1) (configure_qsv (lavc_opts s1))
                     (fun _ t => tuner_frame enc hp bl1 t) (option_keys K)).
      { eapply tuner_triple_conseq.
        - apply (configure_qsv_frame enc hp bl0 K (lavc_opts s1)); discriminate.
        - intros t Heq. rewrite Heq. exact Ht1.
        - intros _ t ((Hc' & Hp' & Hb1 & Hb2) & Hrc). unfold tuner_frame.
          repeat split; auto; unfold bl1; rewrite <- Hopts;
            destruct (bool_decide_reflect (is_Some (lavc_opts s1 !! "rc"))) as [Hsome|_];
            auto.
          + apply union_least; [apply singleton_subseteq_l; auto | exact Hb1].
          + intros x Hx. apply Hb2 in Hx. apply elem_of_union in Hx.
            destruct Hx as [Hx|Hx]; apply elem_of_union; [left|right; exact Hx].
            apply elem_of_union_r. exact Hx.
        - auto. }
      destruct Hname as [Hn | Hn]; rewrite Hn;
        repeat lazymatch goal with
          | |- tuner_triple _ (if ?c then _ else _) _ _ =>
              let v := eval vm_compute in c in change c with v; cbv iota
          end; exact Hq.
    - apply thread_mode_step_frame.
    - intros f. apply frame_modify_tail.
    - apply preset_step_frame. discriminate.
    - eapply tuner_triple_conseq.
      + apply (set_user_options_triple enc hp bl1 (option_keys K)
                 (in_key_order (lavc_opts s1)) Hnd).
        * intros k v ok Hkv Hnb ->. apply Hin in Hkv. rewrite Hopts in Hkv.
          apply Hnb. unfold bl1. rewrite bool_decide_eq_true_2 by eauto.
          apply elem_of_union_l, elem_of_singleton. reflexivity.
        * intros l m. exact I.
      + auto.
      + intros r t' (Hf & _). exact Hf.
      + auto. }
  destruct (Hrest t0) as [Hev1 Hpost].
  { unfold tuner_frame, t0, enc, hp, bl0. cbn. repeat split; auto.
    apply union_subseteq_l. }
  destruct (set_codec_ctx_params_rest s1 pix_fmt d ug_codec t0) as [[r t] ev1].
  cbn [fst snd] in Hev1, Hpost. split.
  - intros v ok Hin'. apply in_app_or in Hin'. destruct Hin' as [Hin'|Hin'].
    + rewrite List.Forall_forall in Hev0. apply Hev0 in Hin'. cbn in Hin'.
      destruct Hin'; discriminate.
    + rewrite List.Forall_forall in Hev1. apply Hev1 in Hin'. cbn in Hin'.
      now apply Hin'.
  - intros b Hr Hsome. destruct (Hpost b Hr) as (_ & _ & Hb1 & _).
    cbn [blacklist_opts set_blacklist_opts]. apply Hb1. unfold bl1.
    rewrite bool_decide_eq_true_2 by exact Hsome.
    apply elem_of_union_l, elem_of_singleton. reflexivity.
Qed.


End PresetAndRateControl.

Lemma list_ascii_of_string_app (a b : string) :
  list_ascii_of_string (a ++ b) = (list_ascii_of_string a ++ list_ascii_of_string b)%list.
Proof.
  induction a as [|c a IH]; [reflexivity|].
  change (c :: list_ascii_of_string (a ++ b) = c :: (list_ascii_of_string a ++ list_ascii_of_string b)%list).
  now rewrite IH.
Qed.

Lemma regex_match_any_then_suffix (suffix s : string) :
  regex_match_any_then suffix s = true -> exists pre, s = (pre ++ suffix)%string.
Proof.
  induction s as [|c s IH]; cbn [regex_match_any_then].
  - rewrite orb_false_r. intros Heq. apply String.eqb_eq in Heq. exists ""%string.
    now rewrite <- Heq.
  - intros Hm. apply orb_true_iff in Hm. destruct Hm as [Heq | Hm].
    + apply String.eqb_eq in Heq. exists ""%string. now rewrite <- Heq.
    + apply andb_true_iff in Hm. destruct Hm as [_ Hm].
      destruct (IH Hm) as [pre ->]. now exists (String c pre).
Qed.

Lemma vaapi_name_is_not_amf (nm : string) :
  regex_match_any_then "_vaapi" nm = true -> regex_match_any_then "_amf" nm = false.
Proof.
  intros Hv. destruct (regex_match_any_then "_amf" nm) eqn:Ha; [|reflexivity].
  apply regex_match_any_then_suffix in Hv. destruct Hv as [p1 H1].
  apply regex_match_any_then_suffix in Ha. destruct Ha as [p2 H2].
  assert (Hl : List.last (list_ascii_of_string nm) "x"%char = "i"%char).
  { rewrite H1, list_ascii_of_string_app.
    change (list_ascii_of_string "_vaapi") with (list_ascii_of_string "_vaap" ++ ["i"%char])%list.
    rewrite app_assoc. apply List.last_last. }
  rewrite H2, list_ascii_of_string_app in Hl.
  change (list_ascii_of_string "_amf") with (list_ascii_of_string "_am" ++ ["f"%char])%list in Hl.
  rewrite app_assoc, List.last_last in Hl. discriminate.
Qed.

Section VaapiThreads.
Context `{Collaborators} `{Platform}.

Lemma opt_set__threads (key : string) (val : opt_val) :
  tuner_keeps threads_off (fun _ => True) (opt_set_ key val).
Proof.
  intros t (H1 & H2 & H3). unfold opt_set_, opt_set, tuner_bind, tuner_ret, check_av_opt_set.
  split.
  - apply Forall_forall. auto.
  - intros _ _. cbn. destruct (av_opt_accepts _ _ _); repeat split; cbn; auto.
Qed.

Lemma preset_step_threads (d : video_desc) (ug_codec : codec_t) :
  tuner_keeps threads_off (fun _ => True) (preset_step d ug_codec).
Proof.
  unfold preset_step. apply tuner_keeps_get_bind. intros t0 _.
  apply tuner_keeps_when. intros _. cbv zeta. apply tuner_keeps_bind.
  - apply tuner_keeps_when. intros _. apply opt_set__threads.
  - intros _. apply tuner_keeps_when. intros _. now apply tuner_keeps_emit.
Qed.

(** X19: VA-API encoders of H.264, HEVC and AV1 run without threads,
    whatever thread mode was asked for. When the encoder's name ends in
    [_vaapi] and [set_codec_ctx_params] returns, the context has thread
    type 0 and thread count 1 and the thread mode of the parameters reads
    [no]. *)
Theorem vaapi_runs_without_threads
    (s : state) (ctx : AVCodecContext) (tail : AVCodecContextTail)
    (pix_fmt : AVPixelFormat) (d : video_desc) (ug_codec : codec_t) :
  regex_match_any_then "_vaapi" (name (codec ctx)) = true ->
  ug_codec = H264 \/ ug_codec = H265 \/ ug_codec = AV1 ->
  let '(r, s', t, _) := set_codec_ctx_params s ctx tail pix_fmt d ug_codec in
  forall b, r = inr b ->
    thread_type (t_ctx t) = 0 /\ thread_count (t_ctx t) = 1
    /\ thread_mode (params s') = "no".
Proof.
  intros Hname Hug. unfold set_codec_ctx_params.
  pose proof (set_codec_ctx_params_quality_frame s ctx d ug_codec) as Hq.
  destruct (set_codec_ctx_params_quality s ctx d ug_codec) as [[s1 ctx1] ev0].
  destruct Hq as (Hc1 & Hs1 & Hev0).
  set (t0 := mk_tuning ctx1 tail (params s1) (blacklist_opts s1)).
  destruct (in_key_order_spec (lavc_opts s1)) as [Hnd Hin].
  assert (Hrest : tuner_triple (fun t => codec (t_ctx t) = codec ctx)
                    (set_codec_ctx_params_rest s1 pix_fmt d ug_codec)
                    (fun _ t' => threads_off t') (fun _ => True)).
  { apply set_codec_ctx_params_rest_compose
      with (P1 := fun t => thread_mode (t_param t) = "no"%string) (P2 := threads_off).
    - intros f t Ht. split; [apply Forall_forall; auto|]. intros _ _. exact Ht.
    - intros t Ht. split; [apply Forall_forall; auto|]. intros _ _. exact Ht.
    - intros set_param Hsp.
      assert (set_param = setparam_h264_h265_av1) as ->.
      { destruct Hug as [-> | [-> | ->]]; cbn in Hsp; congruence. }
      unfold setparam_h264_h265_av1. apply tuner_triple_get_bind.
      intros t1 Ht1. cbv zeta. rewrite Ht1, (vaapi_name_is_not_amf _ Hname), Hname.
      intros t _. split; [apply Forall_forall; auto|]. intros _ _. reflexivity.
    - intros t Ht. unfold thread_mode_step, set_codec_thread_mode.
      rewrite Ht. cbn. split; [constructor|]. intros _ _. repeat split. exact Ht.
    - intros f t Ht. split; [apply Forall_forall; auto|]. intros _ _. exact Ht.
    - apply preset_step_threads.
    - intros t (H1 & H2 & H3). pose proof (set_user_options_run _ Hnd t) as Hrun.
      destruct (set_user_options (in_key_order (lavc_opts s1)) t) as [[r t'] evs].
      destruct Hrun as (_ & _ & Hp & _ & _ & Htt & Htc & _).
      split; [apply Forall_forall; auto|]. intros _ _. cbn [fst snd].
      unfold threads_off. rewrite Htt, Htc, Hp. auto. }
  destruct (Hrest t0) as [_ Hpost]; [exact Hc1|].
  destruct (set_codec_ctx_params_rest s1 pix_fmt d ug_codec t0) as [[r t] ev1].
  cbn [fst snd] in Hpost. intros b Hr. destruct (Hpost b Hr) as (H1 & H2 & H3).
  cbn [params set_params set_blacklist_opts]. auto.
Qed.

End VaapiThreads.

Lemma starts_with_app (a b : string) : starts_with a (a ++ b) = true.
Proof.
  induction a as [|c a IH]; [reflexivity|]. simpl.
  now rewrite Ascii.eqb_refl.
Qed.

Lemma starts_with_app_l (k a b : string) :
  starts_with k a = true -> starts_with k (a ++ b) = true.
Proof.
  revert a. induction k as [|c k IH]; intros [|c' a]; simpl;
    try easy.
  intros Hs. apply andb_true_iff in Hs. destruct Hs as [-> Hs]. now apply IH.
Qed.

Lemma starts_with_trans (a b c : string) :
  starts_with a b = true -> starts_with b c = true -> starts_with a c = true.
Proof.
  revert b c. induction a as [|x a IH]; intros [|y b] [|z c]; cbn [starts_with]; try easy.
  intros H1 H2. apply andb_true_iff in H1, H2. destruct H1 as [H1 H1'], H2 as [H2 H2'].
  apply Ascii.eqb_eq in H1, H2. subst. rewrite Ascii.eqb_refl. cbn [andb]. eauto.
Qed.

Lemma contains_app_l (k a b : string) :
  contains k a = true -> contains k (a ++ b) = true.
Proof.
  induction a as [|c a IH]; simpl.
  - rewrite orb_false_r. destruct k; [|discriminate]. intros _. now destruct b.
  - intros Hc. apply orb_true_iff in Hc. apply orb_true_iff. destruct Hc as [Hs | Hc].
    + left. now apply (starts_with_app_l k (String c a) b).
    + right. now apply IH.
Qed.

Lemma contains_app_r (k a b : string) :
  contains k b = true -> contains k (a ++ b) = true.
Proof.
  intros Hc. induction a as [|c a IH]; [exact Hc|].
  simpl. rewrite IH. apply orb_true_r.
Qed.

Lemma contains_prefix (k b : string) : contains k (k ++ b) = true.
Proof.
  destruct (k ++ b)%string eqn:Heq; cbn [contains]; rewrite <- Heq, starts_with_app; reflexivity.
Qed.

(** [x265_params_append]: what was there is kept in front, and the key
    occurs afterwards. *)
Lemma x265_params_append_prefix (key val p : string) :
  starts_with p (x265_params_append key val p) = true.
Proof.
  unfold x265_params_append. destruct (contains key p).
  - induction p as [|c p IH]; [reflexivity|]. simpl. now rewrite Ascii.eqb_refl.
  - apply starts_with_app.
Qed.

Lemma x265_params_append_contains (key val p : string) :
  contains key (x265_params_append key val p) = true.
Proof.
  unfold x265_params_append. destruct (contains key p) eqn:Hc; [exact Hc|].
  apply contains_app_r, contains_app_r, contains_prefix.
Qed.

Lemma x265_params_append_keeps (k key val p : string) :
  contains k p = true -> contains k (x265_params_append key val p) = true.
Proof.
  intros Hc. unfold x265_params_append. destruct (contains key p); [exact Hc|].
  now apply contains_app_l.
Qed.

Lemma x265_params_complete_spec (user : string) (periodic_intra : Z) (g : string) :
  x265_params_complete user periodic_intra
    (let p := x265_params_append "keyint" g user in
     if negb (periodic_intra =? 0)
     then x265_params_append "no-open-gop" "1"
            (x265_params_append "constrained-intra" "1"
               (x265_params_append "intra-refresh" "1" p))
     else p).
Proof.
  cbv zeta. unfold x265_params_complete.
  destruct (Z.eqb_spec periodic_intra 0) as [->|Hne]; cbn [negb].
  - split; [apply x265_params_append_prefix|]. split; [apply x265_params_append_contains|].
    split; [intros Hne; now contradiction Hne|].
    intros _ Hc. unfold x265_params_append. now rewrite Hc.
  - split; [|split; [|split; [intros _; split; [|split] | intros Hz; now contradiction Hne]]].
    + do 3 (eapply starts_with_trans; [|apply x265_params_append_prefix]).
      apply x265_params_append_prefix.
    + do 3 apply x265_params_append_keeps. apply x265_params_append_contains.
    + do 2 apply x265_params_append_keeps. apply x265_params_append_contains.
    + apply x265_params_append_keeps. apply x265_params_append_contains.
    + apply x265_params_append_contains.
Qed.

Section X26xFrame.
Context `{Collaborators} `{Platform}.

Lemma tuner_run_bind_last {A B} (P : tuning -> Prop) (m : tuner A) (Q1 : A -> tuning -> Prop)
    (k : A -> tuner B) (Q2 : B -> tuning -> list event -> Prop) :
  tuner_triple P m Q1 (fun _ => True) ->
  (forall a, tuner_run (Q1 a) (k a) Q2) ->
  (forall b t e0 e, Q2 b t e -> Q2 b t (e0 ++ e)%list) ->
  tuner_run P (tuner_bind m k) Q2.
Proof.
  intros Hm Hk Hpre t Ht b. unfold tuner_bind.
  destruct (Hm t Ht) as [_ Hq]. destruct (m t) as [[[c|a] t1] e1]; cbn [fst snd] in *.
  - discriminate.
  - specialize (Hk a t1 (Hq a eq_refl)).
    destruct (k a t1) as [[r t2] e2]. cbn [fst snd] in *. intros Hr.
    apply Hpre. now apply Hk.
Qed.

Lemma tuner_run_get_bind {B} (P : tuning -> Prop) (k : tuning -> tuner B)
    (Q : B -> tuning -> list event -> Prop) :
  (forall t0, P t0 -> tuner_run (fun t => t = t0) (k t0) Q) ->
  tuner_run P (tuner_bind tuner_get k) Q.
Proof.
  intros Hk t Ht b. unfold tuner_bind, tuner_get.
  specialize (Hk t Ht t eq_refl). destruct (k t t) as [[r t2] e2]. cbn [fst snd] in *.
  exact (Hk b).
Qed.

Lemma tuner_run_pre {A} (P P' : tuning -> Prop) (m : tuner A)
    (Q : A -> tuning -> list event -> Prop) :
  tuner_run P m Q -> (forall t, P' t -> P t) -> tuner_run P' m Q.
Proof. intros Hm HP t Ht. apply Hm. now apply HP. Qed.

Variables (enc : AVCodec) (periodic : Z).

Lemma x26x_opt_set_ R (key : string) (val : opt_val) :
  tuner_keeps (x26x_frame enc periodic R) (fun _ => True) (opt_set_ key val).
Proof.
  intros t (H1 & H2 & H3). unfold opt_set_, opt_set, tuner_bind, tuner_ret, check_av_opt_set.
  split; [apply Forall_forall; auto|]. intros _ _. cbn.
  destruct (av_opt_accepts _ _ _); repeat split; cbn; auto.
Qed.

Lemma x26x_modify_ctx R (f : AVCodecContext -> AVCodecContext) :
  (forall c, codec (f c) = codec c) ->
  tuner_keeps (x26x_frame enc periodic R) (fun _ => True) (modify_ctx f).
Proof.
  intros Hf t (H1 & H2 & H3). split; [constructor|]. intros _ _.
  repeat split; cbn; auto. now rewrite Hf.
Qed.

Lemma x26x_modify_tail R (f : AVCodecContextTail -> AVCodecContextTail) :
  tuner_keeps (x26x_frame enc periodic R) (fun _ => True) (modify_tail f).
Proof. intros t Ht. split; [constructor|]. intros _ _. exact Ht. Qed.

End X26xFrame.

Section X265Params.
Context `{Collaborators} `{Platform}.

(** X20: libx265 gets the user's [x265-params] extended, not
    replaced. When [configure_x264_x265] returns for the encoder [libx265],
    the last option it sets is [x265-params], with a string that starts with
    the user's string (empty when none was given), names a key interval,
    and, with periodic intra refresh on, the keys [intra-refresh],
    [constrained-intra] and [no-open-gop]; with periodic intra refresh off,
    a user's string in which [keyint] occurs anywhere, also inside another
    key, is passed unchanged. A user's [x265-params] is then on
    the blacklist, so that the loop over the user's options does not set
    it again. *)
Theorem x265_params_extend_the_user_string (opts : gmap string string) (t : tuning) :
  name (codec (t_ctx t)) = "libx265" ->
  let '(r, t', evs) := configure_x264_x265 opts t in
  forall u, r = inr u ->
    (exists p ok evs0,
        evs = (evs0 ++ [EvOptSet "x265-params" (OptStr p) ok])%list
        /\ x265_params_complete (default "" (opts !! "x265-params"))
                                (periodic_intra (t_param t)) p)
    /\ (is_Some (opts !! "x265-params") -> "x265-params" ∈ t_blacklist t').
Proof.
  intros Hname.
  set (user := default "" (opts !! "x265-params")).
  set (R1 := fun bl : gset string => is_Some (opts !! "x265-params") -> "x265-params" ∈ bl).
  set (J0 := x26x_frame (codec (t_ctx t)) (periodic_intra (t_param t)) (fun _ => True)).
  set (J1 := x26x_frame (codec (t_ctx t)) (periodic_intra (t_param t)) R1).
  set (Q := fun (_ : unit) (t' : tuning) (evs : list event) =>
              (exists p ok evs0,
                  evs = (evs0 ++ [EvOptSet "x265-params" (OptStr p) ok])%list
                  /\ x265_params_complete user (periodic_intra (t_param t)) p)
              /\ R1 (t_blacklist t')).
  assert (HQ : forall b t' e0 e, Q b t' e -> Q b t' (e0 ++ e)%list).
  { intros b t' e0 e ((p & ok & evs0 & -> & Hp) & HR). split; [|exact HR].
    exists p, ok, (e0 ++ evs0)%list. split; [now rewrite app_assoc | exact Hp]. }
  assert (Hrun : tuner_run (fun t' => t' = t) (configure_x264_x265 opts) Q).
  { unfold configure_x264_x265. apply tuner_run_get_bind. intros t0 ->. cbv zeta.
    apply tuner_run_pre with (P := J0); [|intros t' ->; repeat split].
    assert (Hfactor : tuner_keeps J0 (fun _ => True) rc_buffer_size_factor).
    { unfold rc_buffer_size_factor. destruct (get_commandline_param _) as [val|];
        [destruct (stof val)|]; first [apply tuner_keeps_ret | apply tuner_keeps_stop]. }
    assert (Huser : tuner_triple J0
                      match opts !! "x265-params" with
                      | Some v => tuner_bind (blacklist_insert "x265-params")
                                             (fun _ => tuner_ret v)
                      | None => tuner_ret ""
                      end
                      (fun a t' => a = user /\ J1 t') (fun _ => True)).
    { unfold user, J1, R1. intros t' (H1 & H2 & _).
      destruct (opts !! "x265-params") as [v|];
        (split; [apply Forall_forall; auto|]); cbn; intros a Ha;
        injection Ha as <-; repeat split; auto.
      - intros _. apply elem_of_union_l, elem_of_singleton. reflexivity.
      - intros [x Hx]. discriminate. }
    eapply tuner_run_bind_last; [apply x26x_opt_set_ | intros ?; cbv beta | exact HQ].
    eapply tuner_run_bind_last;
      [apply x26x_modify_ctx; intros; reflexivity | intros ?; cbv beta | exact HQ].
    eapply tuner_run_bind_last; [exact Hfactor | intros val; cbv beta | exact HQ].
    apply tuner_run_get_bind. intros t1 Ht1.
    apply tuner_run_pre with (P := J0); [|intros t' ->; exact Ht1].
    do 2 (eapply tuner_run_bind_last; [apply x26x_modify_tail | intros ?; cbv beta | exact HQ]).
    do 2 (eapply tuner_run_bind_last;
          [apply x26x_modify_ctx; intros; reflexivity | intros ?; cbv beta | exact HQ]).
    eapply tuner_run_bind_last; [apply x26x_modify_tail | intros ?; cbv beta | exact HQ].
    apply tuner_run_get_bind. intros t2 Ht2.
    apply tuner_run_pre with (P := J0); [|intros t' ->; exact Ht2].
    eapply tuner_run_bind_last;
      [apply tuner_keeps_when; intros _; apply x26x_modify_ctx; intros; reflexivity
      | intros ?; cbv beta | exact HQ].
    eapply tuner_run_bind_last; [exact Huser | intros x265_params; cbv beta | exact HQ].
    apply tuner_run_get_bind. intros t3 (-> & Ht3). cbv zeta.
    rewrite Hname.
    change ("libx264" =? "libx265")%string with false.
    change ("libx264rgb" =? "libx265")%string with false.
    change ("libx265" =? "libx265")%string with true.
    cbv iota. cbn [orb].
    pose proof Ht3 as (_ & Hperiodic & _). rewrite Hperiodic.
    set (g := to_string (gop_size (t_tail t3))).
    pose proof (x265_params_complete_spec user (periodic_intra (t_param t)) g) as Hspec.
    cbv zeta in Hspec.
    set (p := if negb (periodic_intra (t_param t) =? 0)
              then x265_params_append "no-open-gop" "1"
                     (x265_params_append "constrained-intra" "1"
                        (x265_params_append "intra-refresh" "1"
                           (x265_params_append "keyint" g user)))
              else x265_params_append "keyint" g user) in Hspec.
    eapply tuner_run_bind_last with (Q1 := fun a t' => a = p /\ J1 t'); [| |exact HQ].
    - intros t' ->. unfold p.
      destruct (negb (periodic_intra (t_param t) =? 0)); cbn;
        (split; [apply Forall_forall; auto|]); intros r Hr; injection Hr as <-;
        (split; [reflexivity | exact Ht3]).
    - intros x265_params t' (-> & Ht') u _.
      unfold tuner_when, opt_set_, opt_set, tuner_bind, tuner_ret, check_av_opt_set.
      cbn. split.
      + exists p, (av_opt_accepts (codec (t_ctx t')) "x265-params" (OptStr p)), [].
        split; [reflexivity | exact Hspec].
      + apply Ht'. }
  specialize (Hrun t eq_refl).
  destruct (configure_x264_x265 opts t) as [[r t'] evs]. cbn [fst snd] in Hrun.
  intros u Hr. exact (Hrun u Hr).
Qed.

End X265Params.

Lemma take_chars_0 (s : string) : take_chars 0 s = "".
Proof. now destruct s. Qed.

Lemma strlen_nonneg (s : string) : 0 <= strlen s.
Proof. unfold strlen. lia. Qed.

Lemma strlen_String (c : ascii) (s : string) : strlen (String c s) = 1 + strlen s.
Proof. unfold strlen. cbn [String.length]. lia. Qed.

Lemma strlen_take_chars (n : Z) (s : string) :
  0 <= n -> strlen (take_chars n s) <= n.
Proof.
  revert n. induction s as [|c s IH]; intros n Hn; simpl.
  - exact Hn.
  - destruct (Z.leb_spec n 0); [exact Hn|].
    specialize (IH (n - 1)). rewrite strlen_String. lia.
Qed.

Lemma take_chars_app (n : Z) (x y : string) :
  0 <= n ->
  (take_chars n x ++ take_chars (n - strlen (take_chars n x)) y)%string = take_chars n (x ++ y).
Proof.
  revert n. induction x as [|c x IH]; intros n Hn; simpl.
  - change (strlen "") with 0. now rewrite Z.sub_0_r.
  - destruct (Z.leb_spec n 0).
    + replace n with 0 by lia. change (strlen "") with 0. simpl. apply take_chars_0.
    + rewrite strlen_String, <- (IH (n - 1)) by lia.
      replace (n - (1 + strlen (take_chars (n - 1) x)))
        with (n - 1 - strlen (take_chars (n - 1) x)) by lia.
      reflexivity.
Qed.

Section CodecDetails.
Context `{Collaborators} `{Platform}.
Variable buflen : Z.
Hypothesis Hbuflen : 0 < buflen < 2 ^ 64.

Lemma details_cat_take (x y : string) :
  details_cat buflen (take_chars (buflen - 1) x) y = take_chars (buflen - 1) (x ++ y).
Proof.
  unfold details_cat, strncat, wrap_size_t.
  pose proof (strlen_take_chars (buflen - 1) x ltac:(lia)).
  pose proof (strlen_nonneg (take_chars (buflen - 1) x)).
  rewrite Z.mod_small by lia.
  replace (buflen - strlen (take_chars (buflen - 1) x) - 1)
    with (buflen - 1 - strlen (take_chars (buflen - 1) x)) by lia.
  apply take_chars_app. lia.
Qed.

Lemma details_cat_names_take (names : list string) (x : string) :
  details_cat_names buflen (take_chars (buflen - 1) x) names
  = take_chars (buflen - 1) (fold_left (fun buf nm => ((buf ++ " ") ++ nm)%string) names x).
Proof.
  unfold details_cat_names. revert x. induction names as [|nm names IH]; intros x; simpl.
  - reflexivity.
  - rewrite !details_cat_take. apply IH.
Qed.

End CodecDetails.

Section CodecDetailsProperties.
Context `{Collaborators} `{Platform}.

(** X21: [get_codec_details] never writes past its buffer. For a
    buffer of [buflen] characters ([0 < buflen], a [size_t]) it leaves the
    first [buflen - 1] characters of the full text, so at most [buflen - 1]
    characters and the terminator; with an empty buffer the assertion
    fails. *)
Theorem get_codec_details_fits_the_buffer (cid : AVCodecID) (buflen : Z) :
  0 <= buflen < 2 ^ 64 ->
  let '(encoders, decoders) := get_codec_encoders_decoders cid in
  (buflen = 0 -> get_codec_details cid buflen = inl AssertionFailure)
  /\ (0 < buflen ->
      exists buf, get_codec_details cid buflen = inr buf
                  /\ buf = take_chars (buflen - 1) (codec_details_text encoders decoders)
                  /\ strlen buf <= buflen - 1).
Proof.
  intros Hb. unfold get_codec_details.
  destruct (get_codec_encoders_decoders cid) as [encoders decoders].
  split.
  - intros ->. reflexivity.
  - intros Hpos. destruct (Z.ltb_spec 0 buflen) as [_|]; [|lia]. cbn [negb].
    assert (Hb' : 0 < buflen < 2 ^ 64) by lia.
    assert (Hfit : forall txt, exists buf,
               @inr crash string (take_chars (buflen - 1) txt) = inr buf
               /\ buf = take_chars (buflen - 1) txt /\ strlen buf <= buflen - 1).
    { intros txt. eexists. split; [reflexivity|]. split; [reflexivity|].
      apply strlen_take_chars. lia. }
    unfold codec_details_text. cbv zeta.
    change (details_cat buflen "" " (")
      with (details_cat buflen (take_chars (buflen - 1) "") " (").
    destruct encoders as [|e es], decoders as [|dd ds];
      repeat first [ rewrite (details_cat_take buflen Hb')
                   | rewrite (details_cat_names_take buflen Hb') ];
      first [apply Hfit | exact (Hfit "")].
Qed.

End CodecDetailsProperties.

(** The packing of [orig_format_byte] on its fields: depth step [d],
    subsampling digit [a], horizontal flag [h] and colour model [r]. *)
Lemma orig_format_fields (d a : Z) (h r : bool) :
  0 <= d <= 15 -> 1 <= a <= 4 ->
  let f := Z.lor (Z.lor (Z.lor (wrap_uint (Z.shiftl d 4))
                               (wrap_uint (Z.shiftl (wrap_uint (a - 1)) 2)))
                        (wrap_uint (Z.shiftl (if h then 0 else 1) 1)))
                 (if r then 1 else 0) mod 256 in
  0 <= f < 256 /\ Z.shiftr f 4 = d /\ Z.land (Z.shiftr f 2) 3 = a - 1
  /\ Z.testbit f 1 = negb h /\ Z.testbit f 0 = r.
Proof.
  intros Hd Ha.
  assert (Hall : forallb (fun d0 : Z =>
                   forallb (fun a0 : Z =>
                     forallb (fun h0 : bool =>
                       forallb (fun r0 : bool =>
                         let f := Z.lor (Z.lor (Z.lor (wrap_uint (Z.shiftl d0 4))
                                                      (wrap_uint (Z.shiftl (wrap_uint (a0 - 1)) 2)))
                                               (wrap_uint (Z.shiftl (if h0 then 0 else 1) 1)))
                                        (if r0 then 1 else 0) mod 256 in
                         (0 <=? f) && (f <? 256) && (Z.shiftr f 4 =? d0)
                         && (Z.land (Z.shiftr f 2) 3 =? a0 - 1)
                         && Bool.eqb (Z.testbit f 1) (negb h0) && Bool.eqb (Z.testbit f 0) r0)
                       [true; false]) [true; false]) [1; 2; 3; 4])
                   [0; 1; 2; 3; 4; 5; 6; 7; 8; 9; 10; 11; 12; 13; 14; 15] = true)
    by (vm_compute; reflexivity).
  rewrite forallb_forall in Hall.
  assert (Hd' : In d [0; 1; 2; 3; 4; 5; 6; 7; 8; 9; 10; 11; 12; 13; 14; 15]).
  { cbn. lia. }
  assert (Ha' : In a [1; 2; 3; 4]) by (cbn; lia).
  specialize (Hall d Hd'). rewrite forallb_forall in Hall.
  specialize (Hall a Ha'). rewrite forallb_forall in Hall.
  specialize (Hall h ltac:(destruct h; cbn; tauto)). rewrite forallb_forall in Hall.
  specialize (Hall r ltac:(destruct r; cbn; tauto)). cbv zeta in Hall.
  repeat (apply andb_true_iff in Hall; destruct Hall as [Hall ?]).
  cbv zeta. repeat split.
  - now apply Z.leb_le.
  - now apply Z.ltb_lt.
  - now apply Z.eqb_eq.
  - now apply Z.eqb_eq.
  - now apply Bool.eqb_prop.
  - now apply Bool.eqb_prop.
Qed.

Section OrigFormat.
Context `{Collaborators} `{Platform}.

(** X22: the original pixel format can be read back from the bytes
    [write_orig_format] appends. For an H.264 or HEVC frame the data grow
    by the SEI prefix, one format byte and the byte 128; for a bit depth
    from 8 to 38 and a subsampling whose second digit is 1 to 4, the format
    byte holds half the depth above 8 in its upper four bits, that digit
    less one in bits 3 and 2, whether the third digit is not 0 in bit 1,
    and the colour model in bit 0. A frame of another codec is left as it
    is. *)
Theorem orig_format_can_be_read_back
    (data : list Z) (color_spec orig_pixfmt : codec_t) :
  let desc := get_pixfmt_desc orig_pixfmt in
  8 <= pd_depth desc <= 38 ->
  0 <= pd_subsampling desc ->
  1 <= pd_subsampling desc / 100 mod 10 <= 4 ->
  (color_spec <> H264 -> color_spec <> H265 ->
   write_orig_format data color_spec orig_pixfmt = data)
  /\ (color_spec = H264 \/ color_spec = H265 ->
      exists prefix f,
        write_orig_format data color_spec orig_pixfmt = (data ++ prefix ++ [f; 128])%list
        /\ prefix = (START_CODE_3B
                     ++ (if bool_decide (color_spec = H264)
                         then H264_NAL_SEI_PREFIX else HEVC_NAL_SEI_PREFIX)
                     ++ [(Z.of_nat (length UG_ORIG_FORMAT_ISO_IEC_11578_GUID) + 1) mod 256]
                     ++ UG_ORIG_FORMAT_ISO_IEC_11578_GUID)%list
        /\ 0 <= f < 256
        /\ Z.shiftr f 4 = (pd_depth desc - 8) / 2
        /\ Z.land (Z.shiftr f 2) 3 = pd_subsampling desc / 100 mod 10 - 1
        /\ Z.testbit f 1 = negb (pd_subsampling desc / 10 mod 10 =? 0)
        /\ Z.testbit f 0 = pd_rgb desc).
Proof.
  intros desc Hdepth Hsub Ha. unfold write_orig_format. split.
  - intros H1 H2. rewrite !bool_decide_eq_false_2 by assumption. reflexivity.
  - intros Hcs.
    assert (Hsel : negb (bool_decide (color_spec = H264))
                   && negb (bool_decide (color_spec = H265)) = false).
    { destruct Hcs as [-> | ->]; reflexivity. }
    rewrite Hsel. cbv zeta. eexists _, _. split; [reflexivity|].
    split; [reflexivity|].
    fold desc. unfold orig_format_byte.
    assert (Hw : wrap_int (pd_depth desc - 8) = pd_depth desc - 8).
    { unfold wrap_int. rewrite Z.mod_small; lia. }
    rewrite Hw, Z.quot_div_nonneg by lia.
    rewrite !Z.quot_div_nonneg, !Z.rem_mod_nonneg by
      first [lia | apply Z.div_pos; lia].
    assert (Hb : 0 <= pd_subsampling desc / 10 mod 10 < 10) by (apply Z.mod_pos_bound; lia).
    assert (HwA : wrap_uint (pd_subsampling desc / 100 mod 10)
                  = pd_subsampling desc / 100 mod 10)
      by (unfold wrap_uint; apply Z.mod_small; lia).
    assert (HwB : wrap_uint (pd_subsampling desc / 10 mod 10)
                  = pd_subsampling desc / 10 mod 10)
      by (unfold wrap_uint; apply Z.mod_small; lia).
    rewrite HwA, HwB.
    apply (orig_format_fields ((pd_depth desc - 8) / 2) (pd_subsampling desc / 100 mod 10)
             (pd_subsampling desc / 10 mod 10 =? 0) (pd_rgb desc)); [|exact Ha].
    split; [apply Z.div_pos; lia|].
    apply Z.div_le_upper_bound; lia.
Qed.

End OrigFormat.

Lemma user_preset_is_the_only_preset_witness :
  lavc_opts (set_lavc_opts {["preset" := "fast"]} sample_state) !! "preset" = Some "fast"
  /\ (let '(_, _, _, evs) :=
        set_codec_ctx_params (set_lavc_opts {["preset" := "fast"]} sample_state)
          (sample_context sample_libx264) sample_tail sample_pix_fmt_yuv420p sample_desc H264 in
      forall v ok, In (EvOptSet "preset" v ok) evs -> v = OptStr "fast").
Proof.
  split; [reflexivity|].
  apply (user_preset_is_the_only_preset
           (set_lavc_opts {["preset" := "fast"]} sample_state)
           (sample_context sample_libx264) sample_tail sample_pix_fmt_yuv420p sample_desc H264
           "fast").
  reflexivity.
Defined.

Lemma qsv_rate_control_is_not_forwarded_witness :
  let '(r, s', _, evs) :=
    set_codec_ctx_params (set_lavc_opts {["rc" := "cbr"]} sample_state)
      (sample_context sample_h264_qsv) sample_tail sample_pix_fmt_nv12 sample_desc H264 in
  (forall v ok, ~ In (EvOptSet "rc" v ok) evs)
  /\ (forall b, r = inr b ->
      is_Some (lavc_opts (set_lavc_opts {["rc" := "cbr"]} sample_state) !! "rc") ->
      "rc" ∈ blacklist_opts s').
Proof.
  apply (qsv_rate_control_is_not_forwarded
           (set_lavc_opts {["rc" := "cbr"]} sample_state)
           (sample_context sample_h264_qsv) sample_tail sample_pix_fmt_nv12 sample_desc H264).
  - left. reflexivity.
  - left. reflexivity.
Defined.

Lemma vaapi_runs_without_threads_witness :
  let '(r, s', t, _) :=
    set_codec_ctx_params (set_params (set_thread_mode "4FS" (params sample_state)) sample_state)
      (sample_context sample_h264_vaapi) sample_tail sample_pix_fmt_nv12 sample_desc H264 in
  r = inr true
  /\ thread_type (t_ctx t) = 0 /\ thread_count (t_ctx t) = 1 /\ thread_mode (params s') = "no".
Proof.
  pose proof (vaapi_runs_without_threads
                (set_params (set_thread_mode "4FS" (params sample_state)) sample_state)
                (sample_context sample_h264_vaapi) sample_tail sample_pix_fmt_nv12 sample_desc
                H264 eq_refl (or_introl eq_refl)) as Hw.
  assert (Hr : (set_codec_ctx_params
                  (set_params (set_thread_mode "4FS" (params sample_state)) sample_state)
                  (sample_context sample_h264_vaapi) sample_tail sample_pix_fmt_nv12 sample_desc
                  H264).1.1.1 = inr true) by (vm_compute; reflexivity).
  destruct (set_codec_ctx_params
              (set_params (set_thread_mode "4FS" (params sample_state)) sample_state)
              (sample_context sample_h264_vaapi) sample_tail sample_pix_fmt_nv12 sample_desc H264)
    as [[[r s'] t] evs].
  cbn [fst snd] in Hr. split; [exact Hr|]. exact (Hw true Hr).
Defined.

Lemma x265_params_extend_the_user_string_witness :
  name (codec (t_ctx (mk_tuning (sample_context sample_libx265) sample_tail
                                (params sample_state) ∅))) = "libx265"
  /\ (let '(r, t', evs) :=
        configure_x264_x265 {["x265-params" := "bframes=0"]}
          (mk_tuning (sample_context sample_libx265) sample_tail (params sample_state) ∅) in
      forall u, r = inr u ->
        (exists p ok evs0,
            evs = (evs0 ++ [EvOptSet "x265-params" (OptStr p) ok])%list
            /\ x265_params_complete
                 (default "" (({["x265-params" := "bframes=0"]} : gmap string string)
                               !! "x265-params"))
                 (periodic_intra
                    (t_param (mk_tuning (sample_context sample_libx265) sample_tail
                                        (params sample_state) ∅))) p)
        /\ (is_Some (({["x265-params" := "bframes=0"]} : gmap string string) !! "x265-params") ->
            "x265-params" ∈ t_blacklist t')).
Proof.
  split; [reflexivity|].
  apply (x265_params_extend_the_user_string
           {["x265-params" := "bframes=0"]}
           (mk_tuning (sample_context sample_libx265) sample_tail (params sample_state) ∅)).
  reflexivity.
Defined.

Lemma get_codec_details_fits_the_buffer_witness :
  exists buf, get_codec_details AV_CODEC_ID_H264 16 = inr buf /\ strlen buf <= 15.
Proof.
  pose proof (get_codec_details_fits_the_buffer AV_CODEC_ID_H264 16 ltac:(lia)) as Hw.
  destruct (get_codec_encoders_decoders AV_CODEC_ID_H264) as [encoders decoders].
  destruct Hw as [_ Hw]. destruct (Hw ltac:(lia)) as (buf & Hbuf & _ & Hlen).
  exists buf. split; [exact Hbuf | exact Hlen].
Defined.

Lemma orig_format_can_be_read_back_witness :
  exists prefix f,
    write_orig_format [1; 2; 3] H264 (OTHER_CODEC 2) = ([1; 2; 3] ++ prefix ++ [f; 128])%list
    /\ Z.shiftr f 4 = 1 /\ Z.land (Z.shiftr f 2) 3 = 1 /\ Z.testbit f 1 = true
    /\ Z.testbit f 0 = false.
Proof.
  destruct (orig_format_can_be_read_back [1; 2; 3] H264 (OTHER_CODEC 2)
              ltac:(vm_compute; split; discriminate) ltac:(vm_compute; discriminate)
              ltac:(vm_compute; split; discriminate)) as [_ Hw].
  destruct (Hw (or_introl eq_refl)) as (prefix & f & Hout & _ & _ & H4 & H2 & H1 & H0).
  exists prefix, f. split; [exact Hout|]. split; [exact H4|]. split; [exact H2|].
  split; [exact H1 | exact H0].
Defined.

Lemma get_av_codec_fits_request_witness :
  @get_av_codec sample_collaborators (set_backend "libx264" sample_state) VIDEO_CODEC_NONE false
  = (Some sample_libx264, H264)
  /\ @avcodec_find_encoder_by_name sample_collaborators "libx264" = Some sample_libx264
  /\ H264 = get_av_to_ug_codec (id sample_libx264).
Proof.
  split; [reflexivity|].
  destruct (@get_av_codec_fits_request sample_collaborators
              (set_backend "libx264" sample_state) VIDEO_CODEC_NONE false sample_libx264 H264
              eq_refl) as [Hb _].
  destruct (Hb ltac:(discriminate)) as (H1 & H2 & _). split; [exact H1 | exact H2].
Defined.

Section StableContextSteps.
Context `{Collaborators} `{Platform}.
Variable Inv : AVCodecContext -> Prop.

Lemma stable_modify_tail (f : AVCodecContextTail -> AVCodecContextTail) :
  tuner_keeps (fun t => Inv (t_ctx t)) (fun _ => True) (modify_tail f).
Proof. intros t Ht. split; [constructor|]. intros _ _. exact Ht. Qed.

Lemma stable_modify_param (f : setparam_param -> setparam_param) :
  tuner_keeps (fun t => Inv (t_ctx t)) (fun _ => True) (modify_param f).
Proof. intros t Ht. split; [constructor|]. intros _ _. exact Ht. Qed.

Lemma stable_blacklist_insert (key : string) :
  tuner_keeps (fun t => Inv (t_ctx t)) (fun _ => True) (blacklist_insert key).
Proof. intros t Ht. split; [constructor|]. intros _ _. exact Ht. Qed.

Lemma stable_modify_ctx (f : AVCodecContext -> AVCodecContext) :
  (forall c, Inv c -> Inv (f c)) ->
  tuner_keeps (fun t => Inv (t_ctx t)) (fun _ => True) (modify_ctx f).
Proof. intros Hf t Ht. split; [constructor|]. intros _ _. cbn. now apply Hf. Qed.

Hypothesis HI : context_stable Inv.

Lemma stable_check_av_opt_set (c : AVCodecContext) (key : string) (val : opt_val) :
  Inv c -> Inv (check_av_opt_set c key val).1.2.
Proof.
  intros Hc. unfold check_av_opt_set. cbn [fst snd].
  destruct (av_opt_accepts (codec c) key val); [now apply HI | exact Hc].
Qed.

Lemma stable_opt_set (key : string) (val : opt_val) :
  tuner_keeps (fun t => Inv (t_ctx t)) (fun _ => True) (opt_set key val).
Proof.
  intros t Ht. unfold opt_set.
  pose proof (stable_check_av_opt_set (t_ctx t) key val Ht) as Hc.
  destruct (check_av_opt_set (t_ctx t) key val) as [[ok ctx] evs]. cbn [fst snd] in *.
  split; [apply Forall_forall; auto|]. intros _ _. exact Hc.
Qed.

Lemma stable_opt_set_ (key : string) (val : opt_val) :
  tuner_keeps (fun t => Inv (t_ctx t)) (fun _ => True) (opt_set_ key val).
Proof.
  unfold opt_set_. apply tuner_keeps_bind; [apply stable_opt_set|].
  intros ?. apply tuner_keeps_ret.
Qed.

End StableContextSteps.

(** Discharges [Inv (f c)] from [Inv c] for a write that [context_stable]
    names. *)
Ltac stable_write HI :=
  cbv beta;
  first [ apply (proj1 HI)
        | apply (proj1 (proj2 HI))
        | apply (proj1 (proj2 (proj2 HI)))
        | apply (proj1 (proj2 (proj2 (proj2 HI))))
        | apply (proj1 (proj2 (proj2 (proj2 (proj2 HI)))))
        | apply (proj1 (proj2 (proj2 (proj2 (proj2 (proj2 HI))))))
        | apply (proj1 (proj2 (proj2 (proj2 (proj2 (proj2 (proj2 HI)))))))
        | apply (proj2 (proj2 (proj2 (proj2 (proj2 (proj2 (proj2 HI))))))) ];
  assumption.

(** One rule of the tuner logic on a goal
    [tuner_keeps (fun t => Inv (t_ctx t)) ..] for a stable [Inv]. *)
Ltac stable_step HI :=
  first
    [ apply tuner_keeps_ret
    | apply tuner_keeps_stop
    | apply stable_modify_tail
    | apply stable_modify_param
    | apply stable_blacklist_insert
    | apply stable_modify_ctx; intros ? ?; stable_write HI
    | apply (stable_opt_set_ _ HI)
    | apply (stable_opt_set _ HI)
    | apply tuner_keeps_emit; exact I
    | apply tuner_keeps_get_bind; intros ? ?
    | apply tuner_keeps_bind; [| intros ?]
    | apply tuner_keeps_when; intros ?
    | match goal with
      | |- tuner_keeps _ _ (if ?b then _ else _) => destruct b eqn:?
      | |- tuner_keeps _ _ (match ?x with _ => _ end) => destruct x eqn:?
      end ].

Section StableContextFamilies.
Context `{Collaborators} `{Platform}.
Variable Inv : AVCodecContext -> Prop.
Hypothesis HI : context_stable Inv.

Lemma setparam_default_stable :
  tuner_keeps (fun t => Inv (t_ctx t)) (fun _ => True) setparam_default.
Proof. unfold setparam_default. repeat stable_step HI. Qed.

Lemma setparam_jpeg_stable :
  tuner_keeps (fun t => Inv (t_ctx t)) (fun _ => True) setparam_jpeg.
Proof. unfold setparam_jpeg. repeat stable_step HI. Qed.

Lemma setparam_vp8_vp9_stable :
  tuner_keeps (fun t => Inv (t_ctx t)) (fun _ => True) setparam_vp8_vp9.
Proof. unfold setparam_vp8_vp9. repeat stable_step HI. Qed.

Lemma configure_amf_stable :
  tuner_keeps (fun t => Inv (t_ctx t)) (fun _ => True) configure_amf.
Proof. unfold configure_amf. repeat stable_step HI. Qed.

Lemma configure_vaapi_stable :
  tuner_keeps (fun t => Inv (t_ctx t)) (fun _ => True) configure_vaapi.
Proof. unfold configure_vaapi. repeat stable_step HI. Qed.

Lemma set_forced_idr_stable (value : Z) :
  tuner_keeps (fun t => Inv (t_ctx t)) (fun _ => True) (set_forced_idr value).
Proof. unfold set_forced_idr. repeat stable_step HI. Qed.

Lemma rc_buffer_size_factor_stable :
  tuner_keeps (fun t => Inv (t_ctx t)) (fun _ => True) rc_buffer_size_factor.
Proof. unfold rc_buffer_size_factor. repeat stable_step HI. Qed.

Lemma configure_x264_x265_stable (opts : gmap string string) :
  tuner_keeps (fun t => Inv (t_ctx t)) (fun _ => True) (configure_x264_x265 opts).
Proof.
  unfold configure_x264_x265, set_interlaced_dct_flag.
  repeat first [apply rc_buffer_size_factor_stable | stable_step HI].
Qed.

Lemma configure_nvenc_stable :
  tuner_keeps (fun t => Inv (t_ctx t)) (fun _ => True) configure_nvenc.
Proof.
  unfold configure_nvenc, set_interlaced_dct_flag.
  repeat first [apply rc_buffer_size_factor_stable | apply set_forced_idr_stable
               | stable_step HI].
Qed.

Lemma configure_svt_stable :
  tuner_keeps (fun t => Inv (t_ctx t)) (fun _ => True) configure_svt.
Proof.
  unfold configure_svt. repeat first [apply set_forced_idr_stable | stable_step HI].
Qed.

Lemma thread_mode_step_stable :
  tuner_keeps (fun t => Inv (t_ctx t)) (fun _ => True) thread_mode_step.
Proof.
  intros t Ht. unfold thread_mode_step, set_codec_thread_mode.
  split; [apply Forall_forall; auto|]. intros a _. revert a.
  destruct (String.eqb (thread_mode (t_param t)) "no"); [intros _; cbn; now do 2 apply HI|].
  destruct (stoi (thread_mode (t_param t))) as [v endpos| |]; cbv iota beta;
    try (intros _; exact Ht).
  all: match goal with
       | |- context [thread_mode_letters ?r ?z] => destruct (thread_mode_letters r z) as [rt ev1]
       end.
  all: repeat match goal with
              | |- context [if ?b then _ else _] => destruct b
              end; intros _; cbn; repeat apply HI; exact Ht.
Qed.

Lemma preset_step_stable (d : video_desc) (ug_codec : codec_t) :
  tuner_keeps (fun t => Inv (t_ctx t)) (fun _ => True) (preset_step d ug_codec).
Proof. unfold preset_step. cbv zeta. repeat stable_step HI. Qed.

Lemma set_user_options_stable (opts : list (string * string)) :
  tuner_keeps (fun t => Inv (t_ctx t)) (fun _ => True) (set_user_options opts).
Proof.
  induction opts as [|[key val] rest IH]; cbn [set_user_options].
  - apply tuner_keeps_ret.
  - repeat first [exact IH | stable_step HI].
Qed.

End StableContextFamilies.

Lemma ascii_eqb_ci_trans_l (x y z : ascii) :
  ascii_eqb_ci x y = true -> ascii_eqb_ci x z = ascii_eqb_ci y z.
Proof. unfold ascii_eqb_ci. intros Hxy. apply Ascii.eqb_eq in Hxy. now rewrite Hxy. Qed.

Lemma strcasecmp_eq_trans_l (a b c : string) :
  strcasecmp_eq a b = true -> strcasecmp_eq a c = strcasecmp_eq b c.
Proof.
  revert b c. induction a as [|x a IH]; intros [|y b] [|z c]; simpl; try easy.
  intros Hab. apply andb_true_iff in Hab. destruct Hab as [Hxy Hab].
  now rewrite (ascii_eqb_ci_trans_l x y z Hxy), (IH b c Hab).
Qed.

Lemma quality_is_stable enc br bt gq q : context_stable (quality_is enc br bt gq q).
Proof.
  unfold context_stable, quality_is.
  repeat match goal with
         | |- _ /\ _ => split
         end; try (intros c v (Hc & Hbr & Hbt & Hgq & Hq); repeat split; assumption).
  intros c (Hc & Hbr & Hbt & Hgq & Hq). repeat split; try assumption.
  cbn [flags set_flags]. rewrite Z.lor_spec, Hq. apply orb_false_r.
Qed.

(** The rate-control part of [configure_qsv_h264_hevc] on the quality
    settings: only [icq] and [qvbr] take the QSCALE flag back. *)
Lemma configure_qsv_rc_quality enc br bt gq (ctx : AVCodecContext) (rc : string) :
  quality_is enc br bt gq true ctx ->
  let clears := strcasecmp_eq rc "icq" || strcasecmp_eq rc "qvbr" in
  (configure_qsv_rc ctx rc).1.1 = None ->
  quality_is enc br bt (if clears && (gq <=? 0) then DEFAULT_CQP else gq) (negb clears)
             (configure_qsv_rc ctx rc).1.2.
Proof.
  intros (Hc & Hbr & Hbt & Hgq & Hq). cbv zeta. unfold configure_qsv_rc.
  destruct (strcmp_eq rc "help") eqn:Hhelp.
  { apply String.eqb_eq in Hhelp. subst rc. intros _. cbn. repeat split; assumption. }
  destruct (strcasecmp_eq rc "cbr") eqn:Hcbr.
  { rewrite !(strcasecmp_eq_trans_l rc "cbr" _ Hcbr). intros _. cbn. repeat split; assumption. }
  destruct (strcasecmp_eq rc "cqp") eqn:Hcqp.
  { rewrite !(strcasecmp_eq_trans_l rc "cqp" _ Hcqp). intros _. cbn [fst snd orb andb negb].
    repeat split; try assumption. apply qscale_bit_set. }
  destruct (strcasecmp_eq rc "icq" || strcasecmp_eq rc "qvbr") eqn:Hclr.
  - cbn [andb negb]. rewrite Hgq.
    assert (Hbit : Z.testbit (Z.land (flags ctx) (Z.lnot AV_CODEC_FLAG_QSCALE)) 1 = false).
    { rewrite Z.land_spec. apply andb_false_r. }
    destruct (strcasecmp_eq rc "qvbr").
    + cbn [bit_rate set_flags set_global_quality]. rewrite Hbr.
      destruct (0 <? br); [|discriminate]. intros _. cbn. repeat split; assumption.
    + intros _. cbn. repeat split; assumption.
  - cbn [andb negb].
    destruct (strcasecmp_eq rc "vbr"); intros _; cbn; repeat split; assumption.
Qed.

Section QualityThroughTuner.
Context `{Collaborators} `{Platform}.

Lemma configure_qsv_quality enc br bt gq (opts : gmap string string) :
  let clears := match opts !! "rc" with
                | Some rc => strcasecmp_eq rc "icq" || strcasecmp_eq rc "qvbr"
                | None => false
                end in
  tuner_triple (fun t => quality_is enc br bt gq true (t_ctx t)) (configure_qsv opts)
    (fun _ t => quality_is enc br bt (if clears && (gq <=? 0) then DEFAULT_CQP else gq)
                           (negb clears) (t_ctx t))
    (fun _ => True).
Proof.
  cbv zeta. intros t Ht. split; [apply Forall_forall; auto|].
  unfold configure_qsv, configure_qsv_h264_hevc.
  pose proof (quality_is_stable enc br bt gq true) as HI.
  pose proof (stable_check_av_opt_set _ HI (t_ctx t) "scenario" (OptStr "livestreaming") Ht) as H1.
  destruct (check_av_opt_set (t_ctx t) "scenario" (OptStr "livestreaming")) as [[ok1 c1] e1].
  cbn [fst snd] in H1.
  pose proof (stable_check_av_opt_set _ HI c1 "async_depth" (OptInt 1) H1) as H2.
  destruct (check_av_opt_set c1 "async_depth" (OptInt 1)) as [[ok2 c2] e2].
  cbn [fst snd] in H2.
  assert (H3 : quality_is enc br bt gq true
                 (if negb (periodic_intra (t_param t) =? 0)
                  then
                    let '(_, ctx0, a) := check_av_opt_set c2 "int_ref_type" (OptStr "vertical") in
                    let '(_, ctx1, b) := check_av_opt_set ctx0 "int_ref_cycle_size" (OptInt 20) in
                    (ctx1, (a ++ b)%list)
                  else (c2, [])).1).
  { destruct (negb (periodic_intra (t_param t) =? 0)); [|exact H2].
    pose proof (stable_check_av_opt_set _ HI c2 "int_ref_type" (OptStr "vertical") H2) as H3.
    destruct (check_av_opt_set c2 "int_ref_type" (OptStr "vertical")) as [[ok3 c3] e3].
    cbn [fst snd] in H3.
    pose proof (stable_check_av_opt_set _ HI c3 "int_ref_cycle_size" (OptInt 20) H3) as H4.
    destruct (check_av_opt_set c3 "int_ref_cycle_size" (OptInt 20)) as [[ok4 c4] e4].
    exact H4. }
  destruct (if negb (periodic_intra (t_param t) =? 0)
            then
              let '(_, ctx0, a) := check_av_opt_set c2 "int_ref_type" (OptStr "vertical") in
              let '(_, ctx1, b) := check_av_opt_set ctx0 "int_ref_cycle_size" (OptInt 20) in
              (ctx1, (a ++ b)%list)
            else (c2, [])) as [c3 e3].
  cbn [fst] in H3.
  set (c4 := if bool_decide (interlacing (desc (t_param t)) = INTERLACED_MERGED)
                && negb (interlaced_dct (t_param t) =? 0)
             then set_flags (Z.lor (flags c3) AV_CODEC_FLAG_INTERLACED_DCT) c3 else c3).
  assert (H4 : quality_is enc br bt gq true c4).
  { unfold c4. destruct (_ && _); [now apply HI | exact H3]. }
  clearbody c4.
  destruct (opts !! "rc") as [rc|].
  - pose proof (configure_qsv_rc_quality enc br bt gq c4 rc H4) as Hrc. cbv zeta in Hrc.
    destruct (configure_qsv_rc c4 rc) as [[c c5] e4]. cbn [fst snd] in *.
    intros a Ha. apply Hrc. destruct c; [discriminate | reflexivity].
  - pose proof (configure_qsv_rc_quality enc br bt gq c4 DEFAULT_QSV_RC H4) as Hrc.
    cbv zeta in Hrc.
    destruct (configure_qsv_rc c4 DEFAULT_QSV_RC) as [[c c5] e4]. cbn [fst snd] in *.
    intros a Ha. apply Hrc. destruct c; [discriminate | reflexivity].
Qed.

End QualityThroughTuner.

Section ExplicitCqp.
Context `{Collaborators} `{Platform}.

(** The quality policy (lines 732-763) for an explicit CQP. *)
Lemma quality_policy_explicit_cqp
    (s : state) (ctx : AVCodecContext) (d : video_desc) (ug_codec : codec_t) :
  0 <= requested_cqp s ->
  let ctx' := snd (fst (set_codec_ctx_params_quality s ctx d ug_codec)) in
  let ctx_q := fst (set_cqp (set_strict_std_compliance (-2) ctx) (requested_cqp s)) in
  snd (set_codec_ctx_params_quality s ctx d ug_codec)
  = snd (set_cqp (set_strict_std_compliance (-2) ctx) (requested_cqp s))
  /\ Z.testbit (flags ctx') 1 = true
  /\ global_quality ctx' = global_quality ctx_q
  /\ (requested_bitrate s <= 0 ->
      bit_rate ctx' = bit_rate ctx /\ bit_rate_tolerance ctx' = bit_rate_tolerance ctx)
  /\ (0 < requested_bitrate s ->
      bit_rate ctx' = CDouble.to_int64 (CDouble.of_Z (requested_bitrate s))).
Proof.
  intros Hcqp. cbv zeta.
  unfold set_codec_ctx_params_quality, cqp_selected. cbv zeta.
  cbn [requested_cqp requested_bitrate set_params].
  assert (E : (0 <=? requested_cqp s) = true) by now apply Z.leb_le.
  rewrite E. cbn [orb].
  pose proof (set_cqp_frame (set_strict_std_compliance (-2) ctx) (requested_cqp s))
    as (Hfl & Hbr & Hbt).
  destruct (set_cqp (set_strict_std_compliance (-2) ctx) (requested_cqp s)) as [ctx_q ev_q].
  cbn [fst snd] in *. cbn [orb].
  destruct (0 <? requested_bitrate s) eqn:Ebr.
  - apply Z.ltb_lt in Ebr. split; [reflexivity|]. split.
    + cbn [flags set_bit_rate_tolerance set_bit_rate]. rewrite Hfl. apply qscale_bit_set.
    + split; [reflexivity|]. split; [intros Hle; lia|]. intros _.
      cbn [bit_rate set_bit_rate_tolerance set_bit_rate].
      unfold target_bitrate. apply Z.ltb_lt in Ebr. now rewrite Ebr.
  - apply Z.ltb_ge in Ebr. split; [reflexivity|]. split.
    + rewrite Hfl. apply qscale_bit_set.
    + split; [reflexivity|]. split; [intros _; split; assumption | intros Hlt; lia].
Qed.

(** The family tuning on the quality settings with the QSCALE flag set. *)
Lemma set_param_quality enc br bt gq (opts : gmap string string) (ug_codec : codec_t)
    (set_param : gmap string string -> tuner unit) :
  codec_params_set_param ug_codec = Some set_param ->
  let cleared := qsv_rc_clears_qscale opts (name enc) ug_codec in
  tuner_triple (fun t => quality_is enc br bt gq true (t_ctx t)) (set_param opts)
    (fun _ t => quality_is enc br bt (if cleared && (gq <=? 0) then DEFAULT_CQP else gq)
                           (negb cleared) (t_ctx t))
    (fun _ => True).
Proof.
  intros Hsp. cbv zeta.
  pose proof (quality_is_stable enc br bt gq true) as HI.
  assert (Hother : qsv_rc_clears_qscale opts (name enc) ug_codec = false ->
                   tuner_keeps (fun t => quality_is enc br bt gq true (t_ctx t))
                               (fun _ => True) (set_param opts) ->
                   tuner_triple (fun t => quality_is enc br bt gq true (t_ctx t)) (set_param opts)
                     (fun _ t =>
                        quality_is enc br bt
                          (if qsv_rc_clears_qscale opts (name enc) ug_codec && (gq <=? 0)
                           then DEFAULT_CQP else gq)
                          (negb (qsv_rc_clears_qscale opts (name enc) ug_codec)) (t_ctx t))
                     (fun _ => True)).
  { intros -> Hk. exact Hk. }
  destruct ug_codec; cbn in Hsp; inversion Hsp; subst set_param;
    try (apply Hother;
         [ reflexivity
         | first [ apply setparam_default_stable | apply (setparam_jpeg_stable _ HI)
                 | apply (setparam_vp8_vp9_stable _ HI) ] ]).
  all: unfold setparam_h264_h265_av1; apply tuner_triple_get_bind; intros t0 Ht0;
    pose proof Ht0 as (Hc & _); cbv zeta; rewrite Hc;
    (eapply tuner_triple_conseq
       with (P := fun t => quality_is enc br bt gq true (t_ctx t)) (E := fun _ => True);
     [ | intros t Heq; rewrite Heq; exact Ht0 | intros ? ? Hq; exact Hq | auto ]).
  all: unfold qsv_rc_clears_qscale;
    match goal with
    | |- context [bool_decide (?a = ?b) || ?x || ?y] =>
        change (bool_decide (a = b) || x || y) with true
    end; cbn [andb].
  all: destruct (strcmp_eq (name enc) "h264_qsv" || strcmp_eq (name enc) "hevc_qsv") eqn:Hqsv;
    cbn [andb negb]; cbv iota.
  all: try (match goal with
            | |- tuner_triple ?P ?m _ ?E => change (tuner_keeps P E m)
            end;
            repeat first [ apply (configure_amf_stable _ HI) | apply configure_vaapi_stable
                         | apply (configure_x264_x265_stable _ HI)
                         | apply (configure_nvenc_stable _ HI)
                         | apply (configure_svt_stable _ HI) | stable_step HI ]; fail).
  all: assert (Hn : name enc = "h264_qsv" \/ name enc = "hevc_qsv")
    by (apply orb_true_iff in Hqsv; destruct Hqsv as [Hq | Hq]; apply String.eqb_eq in Hq; auto).
  all: destruct Hn as [Hn | Hn]; rewrite Hn;
    repeat lazymatch goal with
      | |- tuner_triple _ (if ?c then _ else _) _ _ =>
          let v := eval vm_compute in c in change c with v; cbv iota
      end;
    apply configure_qsv_quality.
Qed.

(** C3 (amended): a request with an explicit CQP value makes the tuner
    configure constant-QP mode first: the events of [set_codec_ctx_params]
    begin with those of [set_cqp]. When the tuner returns, the QSCALE flag
    is set and the global quality is the one [set_cqp] left, with one
    exception: for the encoders [h264_qsv] and [hevc_qsv], tuned as H.264,
    HEVC or AV1, a user's [rc=icq] or [rc=qvbr] clears the flag again and
    replaces a global quality that is not positive by 21. A bitrate is
    applied to the context only when the request also carries an explicit
    bitrate, and then it is that bitrate (as C evaluates it: converted to
    [double] and back, which returns it unchanged when it is below 2^53);
    without one, bitrate and bitrate tolerance stay as they were, so no
    bitrate computed from bits per pixel is ever applied. *)
Theorem explicit_cqp_sets_constant_qp
    (s : state) (ctx : AVCodecContext) (tail : AVCodecContextTail)
    (pix_fmt : AVPixelFormat) (d : video_desc) (ug_codec : codec_t) :
  0 <= requested_cqp s ->
  let '(r, _, t, evs) := set_codec_ctx_params s ctx tail pix_fmt d ug_codec in
  let ctx' := t_ctx t in
  let ctx_q := fst (set_cqp (set_strict_std_compliance (-2) ctx) (requested_cqp s)) in
  let cleared := qsv_rc_clears_qscale (lavc_opts s) (name (codec ctx)) ug_codec in
  (exists evs',
      evs = (snd (set_cqp (set_strict_std_compliance (-2) ctx) (requested_cqp s)) ++ evs')%list)
  /\ forall b, r = inr b ->
       Z.testbit (flags ctx') 1 = negb cleared
       /\ global_quality ctx'
          = (if cleared && (global_quality ctx_q <=? 0) then DEFAULT_CQP
             else global_quality ctx_q)
       /\ (requested_bitrate s <= 0 ->
           bit_rate ctx' = bit_rate ctx
           /\ bit_rate_tolerance ctx' = bit_rate_tolerance ctx)
       /\ (0 < requested_bitrate s ->
           bit_rate ctx' = CDouble.to_int64 (CDouble.of_Z (requested_bitrate s)))
       /\ (0 < requested_bitrate s < 2 ^ 53 -> bit_rate ctx' = requested_bitrate s).
Proof.
  intros Hcqp. unfold set_codec_ctx_params.
  pose proof (quality_policy_explicit_cqp s ctx d ug_codec Hcqp) as Hq. cbv zeta in Hq.
  pose proof (set_codec_ctx_params_quality_frame s ctx d ug_codec) as Hf.
  destruct (set_codec_ctx_params_quality s ctx d ug_codec) as [[s1 ctx1] ev0].
  cbn [fst snd] in Hq. destruct Hf as (Hc1 & Hs1 & _).
  destruct Hq as (Hev0 & Hbit & Hgq & Hno & Hyes).
  set (ctx_q := fst (set_cqp (set_strict_std_compliance (-2) ctx) (requested_cqp s))) in *.
  set (t0 := mk_tuning ctx1 tail (params s1) (blacklist_opts s1)).
  assert (Hopts : lavc_opts s1 = lavc_opts s) by (rewrite Hs1; reflexivity).
  set (cleared := qsv_rc_clears_qscale (lavc_opts s) (name (codec ctx)) ug_codec).
  set (gq' := if cleared && (global_quality ctx_q <=? 0) then DEFAULT_CQP
              else global_quality ctx_q).
  pose proof (quality_is_stable (codec ctx) (bit_rate ctx1) (bit_rate_tolerance ctx1)
                gq' (negb cleared)) as HI.
  assert (Hrest : tuner_triple
                    (fun t => quality_is (codec ctx) (bit_rate ctx1) (bit_rate_tolerance ctx1)
                                         (global_quality ctx_q) true (t_ctx t))
                    (set_codec_ctx_params_rest s1 pix_fmt d ug_codec)
                    (fun _ t => quality_is (codec ctx) (bit_rate ctx1) (bit_rate_tolerance ctx1)
                                           gq' (negb cleared) (t_ctx t))
                    (fun _ => True)).
  { apply set_codec_ctx_params_rest_compose
      with (P1 := fun t => quality_is (codec ctx) (bit_rate ctx1) (bit_rate_tolerance ctx1)
                                      gq' (negb cleared) (t_ctx t))
           (P2 := fun t => quality_is (codec ctx) (bit_rate ctx1) (bit_rate_tolerance ctx1)
                                      gq' (negb cleared) (t_ctx t)).
    - intros f. apply stable_modify_tail.
    - apply stable_modify_ctx. intros c Hc. now apply quality_is_stable.
    - intros set_param Hsp. rewrite Hopts.
      apply (set_param_quality (codec ctx) (bit_rate ctx1) (bit_rate_tolerance ctx1)
               (global_quality ctx_q) (lavc_opts s) ug_codec set_param Hsp).
    - apply (thread_mode_step_stable _ HI).
    - intros f. apply stable_modify_tail.
    - apply (preset_step_stable _ HI).
    - apply (set_user_options_stable _ HI). }
  destruct (Hrest t0) as [_ Hpost].
  { unfold quality_is, t0. cbn [t_ctx]. repeat split; auto. }
  destruct (set_codec_ctx_params_rest s1 pix_fmt d ug_codec t0) as [[r t] ev1].
  cbn [fst snd] in Hpost. cbv zeta. split.
  - exists ev1. now rewrite Hev0.
  - intros b Hr. destruct (Hpost b Hr) as (_ & Hbr & Hbt & Hg & Hb).
    split; [exact Hb|]. split; [exact Hg|].
    split; [intros Hle; destruct (Hno Hle); split; congruence|].
    assert (Hexact : 0 < requested_bitrate s ->
                     bit_rate (t_ctx t) = CDouble.to_int64 (CDouble.of_Z (requested_bitrate s))).
    { intros Hlt. rewrite Hbr. now apply Hyes. }
    split; [exact Hexact|].
    intros Hrange. rewrite Hexact by lia. apply double_to_int64_of_Z. lia.
Qed.

End ExplicitCqp.

(** C3 (as stated, refuted): with an explicit CQP and an explicit bitrate
    in the same request, the tuner does apply the bitrate: for
    [cqp=20:bitrate=1000000] on a QSV encoder [set_codec_ctx_params]
    returns true and the context ends up with [bit_rate = 1000000]. *)
Lemma explicit_cqp_with_bitrate_applies_bitrate :
  ~ (forall (E : Collaborators) (P : Platform) (s : state) (ctx : AVCodecContext)
            (tail : AVCodecContextTail) (pix_fmt : AVPixelFormat) (d : video_desc)
            (ug_codec : codec_t),
        0 <= requested_cqp s ->
        let '(r, _, t, _) := set_codec_ctx_params s ctx tail pix_fmt d ug_codec in
        forall b, r = inr b ->
          Z.testbit (flags (t_ctx t)) 1 = true /\ bit_rate (t_ctx t) = bit_rate ctx).
Proof.
  intros Hclaim.
  pose proof (Hclaim sample_collaborators sample_platform
                     (set_requested_bitrate 1000000 (set_requested_cqp 20 sample_state))
                     (sample_context sample_h264_qsv) sample_tail sample_pix_fmt_nv12
                     sample_desc H264 ltac:(vm_compute; discriminate)) as Hc.
  assert (Hr : (@set_codec_ctx_params sample_collaborators sample_platform
                  (set_requested_bitrate 1000000 (set_requested_cqp 20 sample_state))
                  (sample_context sample_h264_qsv) sample_tail sample_pix_fmt_nv12
                  sample_desc H264).1.1.1 = inr true) by (vm_compute; reflexivity).
  assert (Hb : bit_rate (t_ctx (@set_codec_ctx_params sample_collaborators sample_platform
                  (set_requested_bitrate 1000000 (set_requested_cqp 20 sample_state))
                  (sample_context sample_h264_qsv) sample_tail sample_pix_fmt_nv12
                  sample_desc H264).1.2) = 1000000) by (vm_compute; reflexivity).
  destruct (@set_codec_ctx_params sample_collaborators sample_platform
              (set_requested_bitrate 1000000 (set_requested_cqp 20 sample_state))
              (sample_context sample_h264_qsv) sample_tail sample_pix_fmt_nv12
              sample_desc H264) as [[[r s'] t] evs].
  cbn [fst snd] in Hr, Hb.
  destruct (Hc true Hr) as [_ Hbr]. rewrite Hb in Hbr. discriminate.
Qed.

Lemma explicit_cqp_sets_constant_qp_witness :
  (let '(r, _, t, _) :=
     set_codec_ctx_params
       (set_lavc_opts {["rc" := "icq"]} (set_requested_cqp 20 sample_state))
       (sample_context sample_h264_qsv) sample_tail sample_pix_fmt_nv12 sample_desc H264 in
   r = inr true /\ Z.testbit (flags (t_ctx t)) 1 = false /\ global_quality (t_ctx t) = 20
   /\ bit_rate (t_ctx t) = bit_rate (sample_context sample_h264_qsv))
  /\ (let '(r, _, t, _) :=
        set_codec_ctx_params
          (set_requested_bitrate 1000000 (set_requested_cqp 20 sample_state))
          (sample_context sample_libx264) sample_tail sample_pix_fmt_yuv420p sample_desc H264 in
      r = inr true /\ Z.testbit (flags (t_ctx t)) 1 = true /\ bit_rate (t_ctx t) = 1000000).
Proof.
  split.
  - pose proof (explicit_cqp_sets_constant_qp
                  (set_lavc_opts {["rc" := "icq"]} (set_requested_cqp 20 sample_state))
                  (sample_context sample_h264_qsv) sample_tail sample_pix_fmt_nv12
                  sample_desc H264 ltac:(vm_compute; discriminate)) as Hw.
    assert (Hr : (set_codec_ctx_params
                    (set_lavc_opts {["rc" := "icq"]} (set_requested_cqp 20 sample_state))
                    (sample_context sample_h264_qsv) sample_tail sample_pix_fmt_nv12
                    sample_desc H264).1.1.1 = inr true) by (vm_compute; reflexivity).
    destruct (set_codec_ctx_params
                (set_lavc_opts {["rc" := "icq"]} (set_requested_cqp 20 sample_state))
                (sample_context sample_h264_qsv) sample_tail sample_pix_fmt_nv12
                sample_desc H264) as [[[r s'] t] evs].
    cbn [fst snd] in Hr. destruct Hw as [_ Hret].
    destruct (Hret true Hr) as (Hq & Hg & Hno & _).
    split; [exact Hr|]. split; [exact Hq|]. split; [exact Hg|].
    apply Hno. vm_compute. discriminate.
  - pose proof (explicit_cqp_sets_constant_qp
                  (set_requested_bitrate 1000000 (set_requested_cqp 20 sample_state))
                  (sample_context sample_libx264) sample_tail sample_pix_fmt_yuv420p
                  sample_desc H264 ltac:(vm_compute; discriminate)) as Hw.
    assert (Hr : (set_codec_ctx_params
                    (set_requested_bitrate 1000000 (set_requested_cqp 20 sample_state))
                    (sample_context sample_libx264) sample_tail sample_pix_fmt_yuv420p
                    sample_desc H264).1.1.1 = inr true) by (vm_compute; reflexivity).
    destruct (set_codec_ctx_params
                (set_requested_bitrate 1000000 (set_requested_cqp 20 sample_state))
                (sample_context sample_libx264) sample_tail sample_pix_fmt_yuv420p
                sample_desc H264) as [[[r s'] t] evs].
    cbn [fst snd] in Hr. destruct Hw as [_ Hret].
    destruct (Hret true Hr) as (Hq & _ & _ & _ & Hexact).
    split; [exact Hr|]. split; [exact Hq|]. apply Hexact. vm_compute. split; reflexivity.
Defined.
